(* ===================================================================== *)
(*  gh-issues-pr-export: a shallow embedding of the export pipeline      *)
(*  (export_issues_prs.py, cleanup_img_ext.py, download_attachments.py)  *)
(*  and the properties its specification states about it.                *)
(*                                                                       *)
(*  Conventions                                                          *)
(*  - A Python `str` is modelled as the `string` of the bytes of its     *)
(*    UTF-8 form, so that a text of ASCII characters is itself. `lower`, *)
(*    `upper`, `len` and the classes \w, \s and \d of `re` are written   *)
(*    out for ASCII. Where the program applies them to other text, the   *)
(*    library decides by the Unicode character database: the matches of  *)
(*    the image patterns in such a text are oracles of the environment,  *)
(*    and a statement that rests on the ASCII reading of one of the      *)
(*    others says so in a hypothesis. `str.strip()` with no argument is  *)
(*    modelled with all of Python's white space.                         *)
(*  - Python `bytes` is `list byte`. A Markdown file is read as Python   *)
(*    reads it: ill-formed UTF-8 replaced by U+FFFD, line ends           *)
(*    translated.                                                        *)
(*  - A `pathlib.Path` is the list of its components, normalised and     *)
(*    absolute, on a POSIX system without symbolic links; the file       *)
(*    system is a finite map from the paths of the files to their        *)
(*    contents. A directory is there when a file lies below it; the      *)
(*    clean-up, which meets directories when it walks the tree, is also  *)
(*    given the directories that hold no file. A file that is listed     *)
(*    can be read.                                                       *)
(*  - The network, the `gh` client, `os.rename`, the writing of files,   *)
(*    the order in which the system lists a directory and the order of   *)
(*    a Python set are oracles of the environment; those of the exporter *)
(*    are indexed by the number of events so far.                        *)
(*  - An exception that the source catches is modelled with its          *)
(*    handler; one that it does not catch ends the call, which then      *)
(*    returns `None` or `Raised` with the state as it is at that point.  *)
(*    `urlsplit` raises `ValueError` on some hosts and `int` on more     *)
(*    than 4300 digits, the default limit of the interpreter.            *)
(*  - Unbounded Python integers are `nat`, `N` or `Z`; a float time      *)
(*    stamp is the rational number it denotes.                           *)
(*                                                                       *)
(*  Part I holds the embedding, Part II the lemmas and theorems.         *)
(* ===================================================================== *)

From Stdlib Require Import String Ascii Strings.Byte List Arith NArith ZArith QArith Lia
  Permutation Sorted DecimalString DecimalNat DecimalPos Lqa.
From stdpp Require Import base decidable option list gmap strings sorting.

Import ListNotations.
Local Open Scope string_scope.
Local Open Scope list_scope.

(* ===================================================================== *)
(*                      PART I - THE EMBEDDING                           *)
(* ===================================================================== *)

(* ===================================================================== *)
(** * File system                                                        *)
(* ===================================================================== *)

Abbreviation path := (list string) (only parsing).
Abbreviation bytes := (list byte) (only parsing).
Abbreviation FS := (gmap (list string) (list byte)) (only parsing).

#[global] Instance byte_eq_dec : EqDecision byte := Byte.byte_eq_dec.

(** [Path.read_bytes]: [None] stands for the raised [OSError]. *)
Definition read_bytes (fs : FS) (p : path) : option bytes := fs !! p.

(** The files in the order in which the system lists them *)
Definition listing (fs : FS) : list (list string) := (map_to_list fs).*1.

(** [Path.exists]: a file at the path, or a directory, which is there when a file
    lies below it *)
Definition path_exists (fs : FS) (p : path) : bool :=
  existsb (fun q => bool_decide (p `prefix_of` q)) (listing fs).

(** [Path.is_file] *)
Definition is_file (fs : FS) (p : path) : bool := bool_decide (is_Some (fs !! p)).

(* ===================================================================== *)
(** * Extension sniffer                                                  *)
(*    export_issues_prs.py:87 detect_ext_from_file                       *)
(*    cleanup_img_ext.py:12   detect_ext                                 *)
(* ===================================================================== *)

Definition PNG_SIG : bytes := [x89; x50; x4e; x47; x0d; x0a; x1a; x0a].
Definition JPEG_SIG : bytes := [xff; xd8; xff].
Definition GIF87a : bytes := [x47; x49; x46; x38; x37; x61].
Definition GIF89a : bytes := [x47; x49; x46; x38; x39; x61].
Definition RIFF : bytes := [x52; x49; x46; x46].
Definition WEBP : bytes := [x57; x45; x42; x50].

(** [bytes.startswith] *)
Definition bytes_startswith (data pfx : bytes) : bool :=
  bool_decide (take (length pfx) data = pfx).

(** [data[i:j]] *)
Definition slice (i j : nat) (data : bytes) : bytes := take (j - i) (drop i data).

(** The chain of tests both scripts run on [data = read_bytes()[:12]]. *)
Definition sniff (data : bytes) : option string :=
  if bytes_startswith data PNG_SIG then Some ".png"
  else if bytes_startswith data JPEG_SIG then Some ".jpg"
  else if bytes_startswith data GIF87a || bytes_startswith data GIF89a then Some ".gif"
  else if bool_decide (12 <= length data)
          && bool_decide (slice 0 4 data = RIFF)
          && bool_decide (slice 8 12 data = WEBP) then Some ".webp"
  else None.

Definition detect_ext_from_file (fs : FS) (p : path) : option string :=
  match read_bytes fs p with
  | None => None
  | Some content => sniff (take 12 content)
  end.

(** cleanup_img_ext.py carries a textual copy of the same function. *)
Definition detect_ext (fs : FS) (p : path) : option string :=
  match read_bytes fs p with
  | None => None
  | Some content => sniff (take 12 content)
  end.

(* ===================================================================== *)
(** * Python string operations                                           *)
(* ===================================================================== *)

Module Py.

Definition code (c : ascii) : nat := nat_of_ascii c.

Definition in_range (lo hi : ascii) (c : ascii) : bool :=
  Nat.leb (code lo) (code c) && Nat.leb (code c) (code hi).

Definition is_upper (c : ascii) : bool := in_range "A" "Z" c.
Definition is_lower (c : ascii) : bool := in_range "a" "z" c.
Definition is_alpha (c : ascii) : bool := is_upper c || is_lower c.
Definition is_digit (c : ascii) : bool := in_range "0" "9" c.
(** [\w] *)
Definition is_word (c : ascii) : bool := is_alpha c || is_digit c || bool_decide (c = "_"%char).
(** [\s]: tab, LF, VT, FF, CR, the separators 1C-1F and the space *)
Definition is_space (c : ascii) : bool :=
  in_range "009" "013" c || in_range "028" "032" c.

(** [str.isascii] *)
Definition is_ascii_char (c : ascii) : bool := Nat.ltb (code c) 128.
Fixpoint is_ascii (s : string) : bool :=
  match s with
  | EmptyString => true
  | String c r => is_ascii_char c && is_ascii r
  end.

Definition lower_char (c : ascii) : ascii :=
  if is_upper c then ascii_of_nat (code c + 32) else c.
Definition upper_char (c : ascii) : ascii :=
  if is_lower c then ascii_of_nat (code c - 32) else c.

(** [str.lower], [str.upper] *)
Fixpoint lower (s : string) : string :=
  match s with
  | EmptyString => EmptyString
  | String c r => String (lower_char c) (lower r)
  end.
Fixpoint upper (s : string) : string :=
  match s with
  | EmptyString => EmptyString
  | String c r => String (upper_char c) (upper r)
  end.

Definition len (s : string) : nat := String.length s.

(** [s[:n]] and [s[n:]] *)
Fixpoint take (n : nat) (s : string) : string :=
  match n, s with
  | S n', String c r => String c (take n' r)
  | _, _ => EmptyString
  end.
Fixpoint drop (n : nat) (s : string) : string :=
  match n, s with
  | S n', String _ r => drop n' r
  | _, _ => s
  end.

(** [s.startswith(pfx)] *)
Fixpoint startswith (s pfx : string) {struct pfx} : bool :=
  match pfx with
  | EmptyString => true
  | String a p' =>
      match s with
      | EmptyString => false
      | String b s' => bool_decide (a = b) && startswith s' p'
      end
  end.

(** [s.endswith(sfx)] *)
Definition endswith (s sfx : string) : bool :=
  Nat.leb (len sfx) (len s) && bool_decide (drop (len s - len sfx) s = sfx).

(** [sub in s] *)
Fixpoint contains (s sub : string) : bool :=
  startswith s sub ||
  match s with
  | EmptyString => false
  | String _ r => contains r sub
  end.

Definition has_char (c : ascii) (s : string) : bool := contains s (String c EmptyString).

(** [s.replace(old, new)] and [s.replace(old, new, count)] for a non-empty [old]:
    the occurrences are found left to right and do not overlap. [skip] counts the
    characters of the occurrence just replaced that are still to be dropped. *)
Fixpoint replace_go (old new : string) (skip : nat) (count : option nat) (s : string) : string :=
  match s with
  | EmptyString => EmptyString
  | String c r =>
      match skip with
      | S n => replace_go old new n count r
      | O =>
          if negb (bool_decide (count = Some 0)) && startswith s old
          then new +:+ replace_go old new (len old - 1) (Nat.pred <$> count) r
          else String c (replace_go old new 0 count r)
      end
  end.

(** With an empty [old] Python inserts [new] before every character and at the end. *)
Fixpoint replace_empty (new : string) (count : option nat) (s : string) : string :=
  if bool_decide (count = Some 0) then s
  else match s with
       | EmptyString => new
       | String c r => new +:+ String c (replace_empty new (Nat.pred <$> count) r)
       end.

Definition replace_count (s old new : string) (count : option nat) : string :=
  match old with
  | EmptyString => replace_empty new count s
  | _ => replace_go old new 0 count s
  end.

Definition replace (s old new : string) : string := replace_count s old new None.

(** [s.lstrip(chars)], [s.rstrip(chars)], [s.strip(chars)] with the set of characters
    given as a predicate *)
Fixpoint lstrip (p : ascii -> bool) (s : string) : string :=
  match s with
  | EmptyString => EmptyString
  | String c r => if p c then lstrip p r else s
  end.
Fixpoint rstrip (p : ascii -> bool) (s : string) : string :=
  match s with
  | EmptyString => EmptyString
  | String c r =>
      match rstrip p r with
      | EmptyString => if p c then EmptyString else String c EmptyString
      | r' => String c r'
      end
  end.
Definition strip (p : ascii -> bool) (s : string) : string := rstrip p (lstrip p s).

(** The white space outside ASCII, as it stands in a text: U+0085 and U+00A0 in two
    characters, U+1680, U+2000 to U+200A, U+2028, U+2029, U+202F, U+205F and U+3000 in
    three *)
Definition wide_space2 (c d : ascii) : bool :=
  Nat.eqb (code c) 194 && (Nat.eqb (code d) 133 || Nat.eqb (code d) 160).
Definition wide_space3 (c d e : ascii) : bool :=
  (Nat.eqb (code c) 225 && Nat.eqb (code d) 154 && Nat.eqb (code e) 128)
  || (Nat.eqb (code c) 226 && Nat.eqb (code d) 128
      && ((Nat.leb 128 (code e) && Nat.leb (code e) 138)
          || Nat.eqb (code e) 168 || Nat.eqb (code e) 169 || Nat.eqb (code e) 175))
  || (Nat.eqb (code c) 226 && Nat.eqb (code d) 129 && Nat.eqb (code e) 159)
  || (Nat.eqb (code c) 227 && Nat.eqb (code d) 128 && Nat.eqb (code e) 128).

(** [not s.strip()]: [str.strip] with no argument strips white space, so that
    nothing is left of a text of white space alone. *)
Fixpoint is_blank (s : string) : bool :=
  match s with
  | EmptyString => true
  | String c r =>
      if is_space c then is_blank r
      else match r with
           | String d r1 =>
               if wide_space2 c d then is_blank r1
               else match r1 with
                    | String e r2 => wide_space3 c d e && is_blank r2
                    | EmptyString => false
                    end
           | EmptyString => false
           end
  end.

(** [s.find(c)] and [s.rfind(c)] for a single character; [None] is Python's -1 *)
Fixpoint find_char (c : ascii) (s : string) : option nat :=
  match s with
  | EmptyString => None
  | String a r => if bool_decide (a = c) then Some 0 else S <$> find_char c r
  end.
Fixpoint rfind_char (c : ascii) (s : string) : option nat :=
  match s with
  | EmptyString => None
  | String a r =>
      match rfind_char c r with
      | Some i => Some (S i)
      | None => if bool_decide (a = c) then Some 0 else None
      end
  end.

(** [s.split(c, 1)]: the text before the first [c] and the text after it *)
Definition split_once (c : ascii) (s : string) : string * option string :=
  match find_char c s with
  | None => (s, None)
  | Some i => (take i s, Some (drop (S i) s))
  end.

(** [s.split(c)] *)
Fixpoint split_go (c : ascii) (cur : string) (s : string) : list string :=
  match s with
  | EmptyString => [cur]
  | String a r =>
      if bool_decide (a = c) then cur :: split_go c EmptyString r
      else split_go c (cur +:+ String a EmptyString) r
  end.
Definition split (c : ascii) (s : string) : list string := split_go c EmptyString s.

(** [sep.join(parts)] *)
Fixpoint join (sep : string) (parts : list string) : string :=
  match parts with
  | [] => EmptyString
  | [x] => x
  | x :: rest => x +:+ sep +:+ join sep rest
  end.

(** [''.join(parts)] *)
Definition cat (parts : list string) : string := foldr String.append EmptyString parts.

Definition chars (s : string) : list ascii := list_ascii_of_string s.

(** [a or b] on values that are [None] or strings: the first operand when it is
    truthy, that is a non-empty string, and the second otherwise *)
Definition or_else (a b : option string) : option string :=
  match a with
  | Some (String _ _) => a
  | _ => b
  end.

(** [str(n)] for a natural number *)
Definition str_of_nat (n : nat) : string := NilEmpty.string_of_uint (Nat.to_uint n).
Definition str_of_N (n : N) : string := NilEmpty.string_of_uint (N.to_uint n).

(** The number that a string of decimal digits denotes *)
Fixpoint int_go (acc : N) (s : string) : N :=
  match s with
  | EmptyString => acc
  | String c r => int_go (10 * acc + N.of_nat (code c - 48)) r
  end.
Definition value (s : string) : N := int_go 0 s.

(** [int(s)] for a string of decimal digits. The conversion is limited to
    [sys.int_info.default_max_str_digits] digits, leading zeros counted: beyond that
    it raises [ValueError], which is [None]. *)
Definition max_str_digits : nat := 4300.
Definition int (s : string) : option N :=
  if Nat.ltb max_str_digits (len s) then None else Some (value s).

(** [f"{n:03d}"]: the decimal digits of [n], padded with zeros on the left to width 3 *)
Fixpoint zeros (k : nat) : string :=
  match k with
  | O => EmptyString
  | S k' => String "0" (zeros k')
  end.
Definition format_03d (n : nat) : string :=
  let d := str_of_nat n in zeros (3 - len d) +:+ d.

End Py.

(* ===================================================================== *)
(** * Regular expressions ([re])                                         *)
(*    A backtracking matcher with the priorities of Python's engine:     *)
(*    alternatives left to right, greedy and lazy repetition, named      *)
(*    groups, back-references and the word boundary.                     *)
(* ===================================================================== *)

Module Re.

Inductive regex : Type :=
  | Eps                                   (* the empty pattern *)
  | Chr (p : ascii -> bool)               (* one character of a class *)
  | Seq (a b : regex)                     (* ab *)
  | Alt (a b : regex)                     (* a|b *)
  | Star (greedy : bool) (a : regex)      (* a* and a*? *)
  | Group (name : string) (a : regex)     (* (?P<name>a) *)
  | Backref (name : string)               (* (?P=name) *)
  | WordB.                                (* \b *)

(** The state of a match attempt: the character before the position, the text from
    the position on, and the groups captured so far (latest first). *)
Record mstate : Type := MState {
  prev : option ascii;
  rest : string;
  env : list (string * string)
}.

Definition lookup_group (name : string) (e : list (string * string)) : option string :=
  snd <$> List.find (fun kv => bool_decide (kv.1 = name)) e.

Definition is_word_opt (c : option ascii) : bool :=
  match c with
  | Some c => Py.is_word c
  | None => false
  end.

Definition head (s : string) : option ascii :=
  match s with
  | EmptyString => None
  | String c _ => Some c
  end.

(** Consume the literal [lit], comparing characters with [eqc]. *)
Fixpoint eat (eqc : ascii -> ascii -> bool) (lit : string) (st : mstate) : option mstate :=
  match lit with
  | EmptyString => Some st
  | String a lit' =>
      match rest st with
      | String b r =>
          if eqc a b then eat eqc lit' (MState (Some b) r (env st)) else None
      | EmptyString => None
      end
  end.

Definition consumed (st st' : mstate) : string :=
  Py.take (Py.len (rest st) - Py.len (rest st')) (rest st).

Section matcher.
Context {A : Type}.
(** [ignorecase] is the flag [re.IGNORECASE], which back-references obey. *)
Variable ignorecase : bool.

Definition eq_char (a b : ascii) : bool :=
  if ignorecase then bool_decide (Py.lower_char a = Py.lower_char b)
  else bool_decide (a = b).

(** The repetition of [step], the matcher of the repeated expression. An iteration
    must consume text, so [n], one more than the length of the text left, bounds
    the iterations. A greedy repetition tries one more iteration before it tries to
    go on with [k]; a lazy one tries [k] first. *)
Fixpoint star_loop (greedy : bool) (step : mstate -> (mstate -> option A) -> option A)
    (k : mstate -> option A) (n : nat) (st : mstate) {struct n} : option A :=
  match n with
  | O => k st
  | S n' =>
      if greedy then
        match step st (fun st' =>
                if Nat.ltb (Py.len (rest st')) (Py.len (rest st))
                then star_loop greedy step k n' st' else None) with
        | Some x => Some x
        | None => k st
        end
      else
        match k st with
        | Some x => Some x
        | None => step st (fun st' =>
                    if Nat.ltb (Py.len (rest st')) (Py.len (rest st))
                    then star_loop greedy step k n' st' else None)
        end
  end.

(** [run r st k]: match [r] at [st] and hand every way of doing so, in the order
    of the engine's preferences, to the continuation [k] until it accepts. *)
Fixpoint run (r : regex) (st : mstate) (k : mstate -> option A) {struct r} : option A :=
  match r with
  | Eps => k st
  | Chr p =>
      match rest st with
      | String c r' => if p c then k (MState (Some c) r' (env st)) else None
      | EmptyString => None
      end
  | Seq a b => run a st (fun st' => run b st' k)
  | Alt a b =>
      match run a st k with
      | Some x => Some x
      | None => run b st k
      end
  | Star greedy a => star_loop greedy (run a) k (S (Py.len (rest st))) st
  | Group name a =>
      run a st (fun st' => k (MState (prev st') (rest st') ((name, consumed st st') :: env st')))
  | Backref name =>
      match lookup_group name (env st) with
      | Some lit =>
          match eat eq_char lit st with
          | Some st' => k st'
          | None => None
          end
      | None => None
      end
  | WordB =>
      if xorb (is_word_opt (prev st)) (is_word_opt (head (rest st))) then k st else None
  end.
End matcher.

(** A compiled pattern: the expression and its [IGNORECASE] flag. *)
Record pattern : Type := Pattern { expr : regex; icase : bool }.

(** A match object: [group(0)] and the named groups that took part. *)
Record rmatch : Type := RMatch { group0 : string; groups : list (string * string) }.

(** [m.group(name)]; [None] when the group did not take part in the match. *)
Definition group (m : rmatch) (name : string) : option string := lookup_group name (groups m).

(** The match starting exactly at the position, as its length and groups. *)
Definition match_here (pat : pattern) (before : option ascii) (s : string)
    : option (nat * list (string * string)) :=
  run (icase pat) (expr pat) (MState before s [])
      (fun st' => Some (Py.len s - Py.len (rest st'), env st')).

(** The text cut into the pieces between matches and the matches themselves. *)
Inductive segment : Type :=
  | Lit (s : string)
  | Mat (m : rmatch).

Definition seg_text (sg : segment) : string :=
  match sg with
  | Lit s => s
  | Mat m => group0 m
  end.

Definition text_of (segs : list segment) : string :=
  foldr (fun sg acc => seg_text sg +:+ acc) EmptyString segs.

Definition flush (lit : string) (rest : list segment) : list segment :=
  match lit with
  | EmptyString => rest
  | _ => Lit lit :: rest
  end.

(** The scan of [finditer], [findall] and [sub]: leftmost match first, the search
    resuming where the match ended. [skip] counts the characters of the current match
    still to be passed and [lit] is the unmatched text met since the last match. The
    patterns of this program match no empty string; an empty match is not reported. *)
Fixpoint scan (pat : pattern) (before : option ascii) (s : string) (skip : nat) (lit : string)
    : list segment :=
  match s with
  | EmptyString => flush lit []
  | String c r =>
      match skip with
      | S n => scan pat (Some c) r n lit
      | O =>
          match match_here pat before s with
          | Some (S n, gs) =>
              flush lit (Mat (RMatch (Py.take (S n) s) gs) :: scan pat (Some c) r n EmptyString)
          | _ => scan pat (Some c) r 0 (lit +:+ String c EmptyString)
          end
      end
  end.

Definition segments (pat : pattern) (text : string) : list segment :=
  scan pat None text 0 EmptyString.

(** The text cut at matches that are given by their places: for each match the
    length of the text between the match before it and itself, its own length, and
    its groups. Whatever the numbers, the pieces make up the text. *)
Fixpoint cut (text : string) (ms : list (nat * nat * list (string * string))) : list segment :=
  match ms with
  | [] => flush text []
  | (gap, n, gs) :: more =>
      flush (Py.take gap text)
            (Mat (RMatch (Py.take n (Py.drop gap text)) gs)
             :: cut (Py.drop n (Py.drop gap text)) more)
  end.

(** [pat.finditer(text)] *)
Definition finditer (pat : pattern) (text : string) : list rmatch :=
  omap (fun sg => match sg with Mat m => Some m | Lit _ => None end) (segments pat text).

(** [pat.findall(text)] for a pattern whose single group spans the whole match *)
Definition findall (pat : pattern) (text : string) : list string :=
  group0 <$> finditer pat text.

(** [pat.sub(repl, text)] with a replacement function that may change a state [S]:
    unmatched text is copied, every match is replaced by what [repl] returns for it,
    from left to right. *)
Fixpoint sub_segs {S : Type} (repl : rmatch -> S -> string * S) (segs : list segment) (s : S)
    : string * S :=
  match segs with
  | [] => (EmptyString, s)
  | Lit t :: r =>
      let '(out, s') := sub_segs repl r s in (t +:+ out, s')
  | Mat m :: r =>
      let '(x, s1) := repl m s in
      let '(out, s2) := sub_segs repl r s1 in (x +:+ out, s2)
  end.

(** The same with a replacement function that may raise, which is [None]: the
    exception leaves [sub] at that match, with the state as it is then. *)
Fixpoint sub_segs_try {S : Type} (repl : rmatch -> S -> option string * S)
    (segs : list segment) (s : S) : option string * S :=
  match segs with
  | [] => (Some EmptyString, s)
  | Lit t :: r =>
      let '(out, s') := sub_segs_try repl r s in (String.append t <$> out, s')
  | Mat m :: r =>
      match repl m s with
      | (None, s1) => (None, s1)
      | (Some x, s1) =>
          let '(out, s2) := sub_segs_try repl r s1 in (String.append x <$> out, s2)
      end
  end.

Definition sub {S : Type} (pat : pattern) (repl : rmatch -> S -> string * S) (text : string)
    (s : S) : string * S :=
  sub_segs repl (segments pat text) s.

(** [re.sub(pat, new, text)] with a constant replacement *)
Definition sub_const (pat : pattern) (new : string) (text : string) : string :=
  (sub pat (fun _ (_ : unit) => (new, tt)) text tt).1.

(** Builders for the patterns below *)
Definition chr (c : ascii) : regex := Chr (fun x => bool_decide (x = c)).
Definition chr_ci (c : ascii) : regex :=
  Chr (fun x => bool_decide (Py.lower_char x = Py.lower_char c)).
Definition any : regex := Chr (fun _ => true).
Definition one_of (s : string) : regex := Chr (fun x => Py.has_char x s).
Definition none_of (p : ascii -> bool) : regex := Chr (fun x => negb (p x)).
Fixpoint lit (s : string) : regex :=
  match s with
  | EmptyString => Eps
  | String c r => Seq (chr c) (lit r)
  end.
Fixpoint lit_ci (s : string) : regex :=
  match s with
  | EmptyString => Eps
  | String c r => Seq (chr_ci c) (lit_ci r)
  end.
Definition plus (a : regex) : regex := Seq a (Star true a).
Definition opt (a : regex) : regex := Alt a Eps.
Fixpoint seq (l : list regex) : regex :=
  match l with
  | [] => Eps
  | [a] => a
  | a :: r => Seq a (seq r)
  end.

End Re.

(* ===================================================================== *)
(** * The patterns of the program                                        *)
(* ===================================================================== *)

Definition dquote : ascii := "034".
Definition squote : ascii := "039".
Definition is_quote (c : ascii) : bool := bool_decide (c = dquote) || bool_decide (c = squote).
Definition is_char (c : ascii) (x : ascii) : bool := bool_decide (x = c).

(** export_issues_prs.py:34, the Markdown branch
    [!\[[^\]]*\]\(\s*(?P<md_url>[^)\s]+)(?:\s+[\x22'][^\x22']*[\x22'])?\s*\)]
    (the double quote is written \x22 here) *)
Definition IMG_MD : Re.regex :=
  Re.seq [ Re.chr "!"; Re.chr "["; Re.Star true (Re.none_of (is_char "]")); Re.chr "]";
           Re.chr "("; Re.Star true (Re.Chr Py.is_space);
           Re.Group "md_url" (Re.plus (Re.none_of (fun c => is_char ")" c || Py.is_space c)));
           Re.opt (Re.seq [ Re.plus (Re.Chr Py.is_space); Re.Chr is_quote;
                            Re.Star true (Re.none_of is_quote); Re.Chr is_quote ]);
           Re.Star true (Re.Chr Py.is_space); Re.chr ")" ].

(** export_issues_prs.py:36, the HTML branch
    [<img\b[^>]*?\bsrc=(?:(?P<html_q>[\x22'])(?P<html_url>.*?)(?P=html_q)|(?P<html_url_unq>[^>\s]+))[^>]*?>] *)
Definition IMG_HTML : Re.regex :=
  Re.seq [ Re.lit_ci "<img"; Re.WordB; Re.Star false (Re.none_of (is_char ">")); Re.WordB;
           Re.lit_ci "src=";
           Re.Alt (Re.seq [ Re.Group "html_q" (Re.Chr is_quote);
                            Re.Group "html_url" (Re.Star false Re.any);
                            Re.Backref "html_q" ])
                  (Re.Group "html_url_unq"
                     (Re.plus (Re.none_of (fun c => is_char ">" c || Py.is_space c))));
           Re.Star false (Re.none_of (is_char ">")); Re.chr ">" ].

(** [IMG_PATTERN], compiled with [re.IGNORECASE | re.DOTALL] *)
Definition IMG_PATTERN : Re.pattern := Re.Pattern (Re.Alt IMG_MD IMG_HTML) true.

(** [[\w.-]] *)
Definition is_name_char (c : ascii) : bool := Py.is_word c || is_char "." c || is_char "-" c.

(** export_issues_prs.py:45
    [(?i)\b(?:fixe[sd]?|close[sd]?|resolve[sd]?)\s+(?:(?P<owner>[\w.-]+)/(?P<repo>[\w.-]+))?#(?P<num>\d+)] *)
Definition sd_opt : Re.regex := Re.opt (Re.Alt (Re.chr_ci "s") (Re.chr_ci "d")).
Definition ISSUE_FIX_PATTERN : Re.pattern :=
  Re.Pattern
    (Re.seq [ Re.WordB;
              Re.Alt (Re.Seq (Re.lit_ci "fixe") sd_opt)
                (Re.Alt (Re.Seq (Re.lit_ci "close") sd_opt)
                        (Re.Seq (Re.lit_ci "resolve") sd_opt));
              Re.plus (Re.Chr Py.is_space);
              Re.opt (Re.seq [ Re.Group "owner" (Re.plus (Re.Chr is_name_char)); Re.chr "/";
                               Re.Group "repo" (Re.plus (Re.Chr is_name_char)) ]);
              Re.chr "#";
              Re.Group "num" (Re.plus (Re.Chr Py.is_digit)) ])
    true.

(** cleanup_img_ext.py:63  [(?P<path>(?:\.\./|\./)?[^\s\x22'<>]+\.img)] *)
Definition is_ref_char (c : ascii) : bool :=
  negb (Py.is_space c || is_quote c || is_char "<" c || is_char ">" c).
Definition IMG_REF_PATTERN : Re.pattern :=
  Re.Pattern
    (Re.Group "path"
       (Re.seq [ Re.opt (Re.Alt (Re.lit "../") (Re.lit "./"));
                 Re.plus (Re.Chr is_ref_char);
                 Re.lit ".img" ]))
    false.

(* ===================================================================== *)
(** * URLs and file names                                                *)
(*    urllib.parse.urlsplit, os.path.basename, os.path.splitext (POSIX)  *)
(*    export_issues_prs.py:67 sanitize_name, :74 filename_from_url,      *)
(*    :123 _candidate_urls, :131 _is_user_attachment                     *)
(* ===================================================================== *)

Record SplitResult : Type := MkSplit {
  scheme : string;
  netloc : string;
  upath : string;
  query : string;
  fragment : string
}.

Definition is_c0_or_space (c : ascii) : bool := Nat.leb (Py.code c) 32.
Definition is_unsafe_url_byte (c : ascii) : bool :=
  is_char "009" c || is_char "010" c || is_char "013" c.
Definition is_scheme_char (c : ascii) : bool :=
  Py.is_alpha c || Py.is_digit c || is_char "+" c || is_char "-" c || is_char "." c.
Definition is_netloc_delim (c : ascii) : bool :=
  is_char "/" c || is_char "?" c || is_char "#" c.

Fixpoint remove_chars (p : ascii -> bool) (s : string) : string :=
  match s with
  | EmptyString => EmptyString
  | String c r => if p c then remove_chars p r else String c (remove_chars p r)
  end.

(** The longest prefix without a character of the class, and the rest *)
Fixpoint span_until (p : ascii -> bool) (s : string) : string * string :=
  match s with
  | EmptyString => (EmptyString, EmptyString)
  | String c r =>
      if p c then (EmptyString, s)
      else let '(a, b) := span_until p r in (String c a, b)
  end.

(** [urlsplit(url)] where it returns; when it raises instead is told by
    [urlsplit_raises] below. *)
Definition urlsplit (url : string) : SplitResult :=
  let url := Py.lstrip is_c0_or_space url in
  let url := remove_chars is_unsafe_url_byte url in
  let '(sch, url) :=
    match Py.find_char ":" url with
    | Some (S i) =>
        if from_option Py.is_alpha false (Re.head url)
           && forallb is_scheme_char (Py.chars (Py.take (S i) url))
        then (Py.lower (Py.take (S i) url), Py.drop (S (S i)) url)
        else (EmptyString, url)
    | _ => (EmptyString, url)
    end in
  let '(loc, url) :=
    if Py.startswith url "//" then span_until is_netloc_delim (Py.drop 2 url)
    else (EmptyString, url) in
  let '(url, frag) := Py.split_once "#" url in
  let '(url, qry) := Py.split_once "?" url in
  MkSplit sch loc url (default EmptyString qry) (default EmptyString frag).

(** [urlsplit] raises [ValueError] on a host with one square bracket but not the
    other. A host with both brackets, or with characters outside ASCII, goes through
    further checks (the form of the bracketed address, separators that appear under
    NFKC normalisation), which differ between versions of the library: [refused]
    stands for their verdict. Every other URL is accepted. *)
Definition bracket_fault (loc : string) : bool :=
  xorb (Py.has_char "[" loc) (Py.has_char "]" loc).

Definition host_checked (loc : string) : bool :=
  (Py.has_char "[" loc && Py.has_char "]" loc) || negb (Py.is_ascii loc).

Definition urlsplit_raises (refused : string -> bool) (url : string) : bool :=
  let loc := netloc (urlsplit url) in
  bracket_fault loc || (host_checked loc && refused loc).

(** [os.path.basename]: what follows the last slash *)
Definition basename (p : string) : string :=
  match Py.rfind_char "/" p with
  | Some i => Py.drop (S i) p
  | None => p
  end.

(** [os.path.splitext]: the extension starts at the last dot of the last component,
    unless only dots precede it there *)
Definition splitext (p : string) : string * string :=
  match Py.rfind_char "." p with
  | None => (p, EmptyString)
  | Some dotIndex =>
      let filenameIndex := match Py.rfind_char "/" p with Some i => S i | None => 0 end in
      if Nat.leb filenameIndex dotIndex
         && existsb (fun c => negb (is_char "." c))
              (Py.chars (Py.take (dotIndex - filenameIndex) (Py.drop filenameIndex p)))
      then (Py.take dotIndex p, Py.drop dotIndex p)
      else (p, EmptyString)
  end.

(** [[A-Za-z0-9._-]] *)
Definition is_safe (c : ascii) : bool :=
  Py.is_alpha c || Py.is_digit c || is_char "." c || is_char "_" c || is_char "-" c.

(** [[^A-Za-z0-9._-]+] *)
Definition UNSAFE_RUN : Re.pattern := Re.Pattern (Re.plus (Re.none_of is_safe)) false.

Definition sanitize_name (name : string) : string :=
  let cleaned := Re.sub_const UNSAFE_RUN "_" name in
  let cleaned := Py.strip (is_char "_") cleaned in
  match cleaned with
  | EmptyString => "image"
  | _ => cleaned
  end.

(** [filename_from_url(url, index)] on a URL that [urlsplit] accepts; on any other
    the call raises and there is no name. The name is cut to 40 characters after it
    has been sanitised, when all of them are ASCII; [lower] and [len] on the
    extension are those of ASCII. *)
Definition filename_from_url (url : string) (index : nat) : string :=
  let parsed := urlsplit url in
  let base := basename (upath parsed) in
  let base := match base with EmptyString => "image" | _ => base end in
  let '(name, ext) := splitext base in
  let name := Py.take 40 (sanitize_name name) in
  let ext := Py.lower ext in
  let ext := if bool_decide (ext = EmptyString) || Nat.ltb 10 (Py.len ext) then ".img" else ext in
  Py.format_03d index +:+ "_" +:+ name +:+ ext.

Definition _is_user_attachment (url : string) : bool :=
  let parsed := urlsplit url in
  bool_decide (Py.lower (netloc parsed) = "github.com")
  && Py.startswith (upath parsed) "/user-attachments/assets/".

Definition _candidate_urls (url : string) : list string :=
  let parsed := urlsplit url in
  if bool_decide (Py.lower (netloc parsed) = "github.com")
     && Py.startswith (upath parsed) "/user-attachments/assets/"
     && negb (Py.contains (query parsed) "download=1")
  then [url; url +:+ (match query parsed with EmptyString => "?" | _ => "&" end) +:+ "download=1"]
  else [url].

(* ===================================================================== *)
(** * Paths ([pathlib], [os.path])                                       *)
(* ===================================================================== *)

(** [PurePath.name]: the last component, empty for the root *)
Definition path_name (p : path) : string := List.last p EmptyString.

(** [PurePath.parent] *)
Definition path_parent (p : path) : path := removelast p.

(** [PurePath.suffix] of a name: from its last dot on, unless that dot starts or ends
    the name *)
Definition name_suffix (name : string) : string :=
  match Py.rfind_char "." name with
  | Some i => if Nat.ltb 0 i && Nat.ltb i (Py.len name - 1) then Py.drop i name else EmptyString
  | None => EmptyString
  end.

Definition path_suffix (p : path) : string := name_suffix (path_name p).

(** [PurePath.with_suffix] on a name and on a path with a name *)
Definition name_with_suffix (name suffix : string) : string :=
  Py.take (Py.len name - Py.len (name_suffix name)) name +:+ suffix.

Definition with_suffix (p : path) (suffix : string) : path :=
  (path_parent p ++ [name_with_suffix (path_name p) suffix])%list.

(** [PurePath.with_name] *)
Definition with_name (p : path) (name : string) : path := (path_parent p ++ [name])%list.

Fixpoint common_prefix_len (a b : path) : nat :=
  match a, b with
  | x :: a', y :: b' => if bool_decide (x = y) then S (common_prefix_len a' b') else 0
  | _, _ => 0
  end.

(** [os.path.relpath(p, start).replace(os.sep, "/")] *)
Definition relpath (p start : path) : string :=
  let i := common_prefix_len start p in
  match (replicate (length start - i) ".." ++ drop i p)%list with
  | [] => "."
  | rel_list => Py.join "/" rel_list
  end.

(* ===================================================================== *)
(** * Downloads and the image tracker                                    *)
(*    export_issues_prs.py:136 _download_with_gh, :171 download_image,   *)
(*    :206 ImageStats, :214 ImageTracker                                 *)
(* ===================================================================== *)

(** What the program does to the outside, in order. [EvDownload] marks an entry into
    [download_image], a download attempt; the other events are the requests and the
    file operations themselves. *)
Inductive event : Type :=
  | EvDownload (url : string) (p : path)
  | EvUrlopen (candidate : string)
  | EvGhApi (endpoint : string)
  | EvWarn (url : string)
  | EvSniff (p : path)
  | EvRename (src dst : path).

#[global] Instance event_eq_dec : EqDecision event.
Proof. solve_decision. Defined.

Record World : Type := MkWorld {
  files : FS;
  trace : list event
}.

(** One request with [urlopen] and the copy of its body to the file: it raises,
    possibly leaving a file behind, or it succeeds with the body received. *)
Inductive fetch : Type :=
  | FetchError (partial : option bytes)
  | FetchOk (body : bytes).

(** How the writing of a text file ends: the file is written, or the call raises,
    maybe with something left at the path. Where the program creates the directory
    first, that is part of it. *)
Inductive write_result : Type :=
  | WriteOk
  | WriteError (partial : option bytes).

(** One run of [gh api ... -o path]: it raises (the client is missing or exits with
    an error) or returns with exit status 0; either way it may have written the file. *)
Inductive gh_run : Type :=
  | GhRaise (written : option bytes)
  | GhExit0 (written : option bytes).

(** The environment. The first argument of the first three oracles is the number of
    events so far, so that the same request may be answered differently at different
    times. The last two stand for the library where the model does not follow it:
    the further checks of [urlsplit] on a host (see [urlsplit_raises]), and the
    matches of [IMG_PATTERN] in a text with characters outside ASCII, where the
    classes [\s] and [\w] and the comparison without case depend on the Unicode
    character database. Such matches are given as for [Re.cut]. *)
Record Env : Type := MkEnv {
  urlopen : nat -> string -> option string -> fetch;
  gh_api : nat -> string -> gh_run;
  rename_ok : nat -> path -> path -> bool;
  host_refused : string -> bool;
  img_outside_ascii : string -> list (nat * nat * list (string * string))
}.

Definition log (e : event) (w : World) : World := MkWorld (files w) (trace w ++ [e])%list.
Definition now (w : World) : nat := length (trace w).

Definition leave (p : path) (content : option bytes) (fs : FS) : FS :=
  match content with
  | Some c => <[p := c]> fs
  | None => fs
  end.

(** The loop of [download_image] over the candidate URLs *)
Fixpoint try_candidates (env : Env) (p : path) (token : option string)
    (candidates : list string) (w : World) : bool * World :=
  match candidates with
  | [] => (false, w)
  | candidate :: more =>
      match urlopen env (now w) candidate token with
      | FetchOk body =>
          (true, MkWorld (<[p := body]> (files w)) (trace w ++ [EvUrlopen candidate])%list)
      | FetchError partial =>
          try_candidates env p token more
            (MkWorld (leave p partial (files w)) (trace w ++ [EvUrlopen candidate])%list)
      end
  end.

Definition gh_endpoint (url : string) : string :=
  let parsed := urlsplit url in
  let endpoint := upath parsed in
  let endpoint :=
    match query parsed with
    | EmptyString => endpoint
    | q => endpoint +:+ "?" +:+ q
    end in
  if Py.startswith endpoint "/user-attachments/assets/"
     && negb (Py.contains endpoint "download=1")
  then endpoint +:+ (if Py.has_char "?" endpoint then "&" else "?") +:+ "download=1"
  else endpoint.

Definition _download_with_gh (env : Env) (url : string) (p : path) (w : World)
    : bool * World :=
  let endpoint := gh_endpoint url in
  let w' := log (EvGhApi endpoint) w in
  match gh_api env (now w) endpoint with
  | GhRaise written => (false, MkWorld (leave p written (files w')) (trace w'))
  | GhExit0 written =>
      let fs := leave p written (files w') in
      (match fs !! p with
       | Some content => negb (bool_decide (content = []))
       | None => false
       end, MkWorld fs (trace w'))
  end.

Definition download_image (env : Env) (url : string) (p : path) (token : option string)
    (w : World) : bool * World :=
  let w := log (EvDownload url p) w in
  if path_exists (files w) p then (true, w)
  else
    let '(ok, w1) := try_candidates env p token (_candidate_urls url) w in
    if ok then (true, w1)
    else if _is_user_attachment url then
      let '(ok, w2) := _download_with_gh env url p w1 in
      (ok, w2)
    else (false, log (EvWarn url) w1).

Record ImageStats : Type := MkStats {
  attempted : nat;
  downloaded : nat;
  failed : nat;
  stats_missing : list (list (string * string))
}.

(** [ImageStats()] *)
Definition ImageStats_init : ImageStats := MkStats 0 0 0 [].

Section tracker.
(** [M] is the state of the caller that the callback [missing_cb] changes. *)
Context {M : Type}.

Record ImageTracker : Type := MkTracker {
  assets_dir : path;
  md_dir : path;
  token : option string;
  missing_cb : option (string -> string -> M -> M);
  counter : nat;
  url_to_rel : gmap string string
}.

(** What a tracker shares with its caller: the statistics of the repository, the
    outside world and the caller's own state. *)
Record Heap : Type := MkHeap {
  stats : ImageStats;
  world : World;
  store : M
}.

(** [ImageTracker(assets_dir, md_dir, token, stats, missing_cb)] *)
Definition ImageTracker_init (assets md : path) (tok : option string)
    (cb : option (string -> string -> M -> M)) : ImageTracker :=
  MkTracker assets md tok cb 0 ∅.

(** The repair of a placeholder extension after a download: the file is sniffed and,
    when its kind is known and the rename goes through, renamed. *)
Definition repair_ext (env : Env) (abs_path : path) (w : World) : path * World :=
  if bool_decide (Py.lower (path_suffix abs_path) = ".img") then
    let w1 := log (EvSniff abs_path) w in
    match detect_ext_from_file (files w) abs_path with
    | Some real_ext =>
        let new_path := with_suffix abs_path real_ext in
        if rename_ok env (now w1) abs_path new_path then
          (new_path,
           MkWorld (match files w !! abs_path with
                    | Some content => <[new_path := content]> (delete abs_path (files w))
                    | None => files w
                    end)
                   (trace w1 ++ [EvRename abs_path new_path])%list)
        else (abs_path, w1)
    | None => (abs_path, w1)
    end
  else (abs_path, w).

(** [get_local(url)]. The path is [None] when the call raises: [filename_from_url]
    does so, with the [ValueError] of [urlsplit], after the counter and the number of
    attempts have been raised and before anything is cached. *)
Definition get_local (env : Env) (t : ImageTracker) (url : string) (h : Heap)
    : option string * ImageTracker * Heap :=
  match url_to_rel t !! url with
  | Some rel => (Some rel, t, h)
  | None =>
      let counter' := S (counter t) in
      let st := stats h in
      let st := MkStats (S (attempted st)) (downloaded st) (failed st) (stats_missing st) in
      if urlsplit_raises (host_refused env) url then
        (None,
         MkTracker (assets_dir t) (md_dir t) (token t) (missing_cb t) counter' (url_to_rel t),
         MkHeap st (world h) (store h))
      else
      let filename := filename_from_url url counter' in
      let abs_path := (assets_dir t ++ [filename])%list in
      let '(ok, w) := download_image env url abs_path (token t) (world h) in
      if negb ok then
        let st := MkStats (attempted st) (downloaded st) (S (failed st)) (stats_missing st) in
        let rel := relpath abs_path (md_dir t) in
        let t' := MkTracker (assets_dir t) (md_dir t) (token t) (missing_cb t) counter'
                    (<[url := rel]> (url_to_rel t)) in
        let m := match missing_cb t with
                 | Some cb => cb url rel (store h)
                 | None => store h
                 end in
        (Some rel, t', MkHeap st w m)
      else
        let '(abs_path, w) := repair_ext env abs_path w in
        let st := MkStats (attempted st) (S (downloaded st)) (failed st) (stats_missing st) in
        let rel := relpath abs_path (md_dir t) in
        let t' := MkTracker (assets_dir t) (md_dir t) (token t) (missing_cb t) counter'
                    (<[url := rel]> (url_to_rel t)) in
        (Some rel, t', MkHeap st w (store h))
  end.

(** A sequence of calls on one tracker, by a caller that goes on after a call that
    raises: what the calls return, the tracker and the heap *)
Fixpoint get_locals (env : Env) (t : ImageTracker) (urls : list string) (h : Heap)
    : list (option string) * ImageTracker * Heap :=
  match urls with
  | [] => ([], t, h)
  | url :: more =>
      let '(rel, t1, h1) := get_local env t url h in
      let '(rels, t2, h2) := get_locals env t1 more h1 in
      (rel :: rels, t2, h2)
  end.

End tracker.

Arguments ImageTracker : clear implicits.
Arguments Heap : clear implicits.

(** The download attempts made for [url] among the events [evs] *)
Definition is_attempt_for (url : string) (e : event) : bool :=
  match e with
  | EvDownload u _ => bool_decide (u = url)
  | _ => false
  end.

Definition attempts_for (url : string) (evs : list event) : nat :=
  length (List.filter (is_attempt_for url) evs).

(* ===================================================================== *)
(** * Rewriting the image references of a text                           *)
(*    export_issues_prs.py:265 replace_images                            *)
(* ===================================================================== *)

Section replace_images.
Context {M : Type}.

(** [match.group("md_url") or match.group("html_url") or match.group("html_url_unq")] *)
Definition match_url (m : Re.rmatch) : option string :=
  Py.or_else (Py.or_else (Re.group m "md_url") (Re.group m "html_url"))
             (Re.group m "html_url_unq").

(** The inner function [repl]; the tracker and what it shares are its state. The
    result is [None] when [get_local] raises. *)
Definition repl (env : Env) (m : Re.rmatch) (st : ImageTracker M * Heap M)
    : option string * (ImageTracker M * Heap M) :=
  match match_url m with
  | None | Some EmptyString => (Some (Re.group0 m), st)
  | Some url =>
      if Py.startswith url "data:" then (Some (Re.group0 m), st)
      else if negb (Py.startswith url "http://") && negb (Py.startswith url "https://")
      then (Some (Re.group0 m), st)
      else
        let '(loc, t, h) := get_local env st.1 url st.2 in
        ((fun loc => Py.replace_count (Re.group0 m) url loc (Some 1)) <$> loc, (t, h))
  end.

(** The matches of [IMG_PATTERN] in a text and the text between them: those of the
    pattern above on ASCII text, those the environment tells on any other. *)
Definition img_segments (env : Env) (text : string) : list Re.segment :=
  if Py.is_ascii text then Re.segments IMG_PATTERN text
  else Re.cut text (img_outside_ascii env text).

(** [replace_images(text, tracker)] for a string; [None] when it raises *)
Definition replace_images (env : Env) (text : string) (st : ImageTracker M * Heap M)
    : option string * (ImageTracker M * Heap M) :=
  match text with
  | EmptyString => (Some EmptyString, st)
  | _ => Re.sub_segs_try (repl env) (img_segments env text) st
  end.

End replace_images.

(* ===================================================================== *)
(** * JSON values, time stamps and the order of comments                 *)
(*    export_issues_prs.py:283 parse_iso, :297 sort_comments             *)
(* ===================================================================== *)

(** What [json.load] returns. An object keeps its members in the order of the file. *)
#[local] Unset Elimination Schemes.
Inductive json : Type :=
  | JNull
  | JBool (b : bool)
  | JNum (n : Z)
  | JStr (s : string)
  | JArr (items : list json)
  | JObj (members : list (string * json)).
#[local] Set Elimination Schemes.

(** A Python [dict] read from a JSON object *)
Abbreviation dict := (list (string * json)) (only parsing).

(** [d.get(key)]: of several members with one name the last counts; [JNull] is the
    [None] returned for a missing key *)
Definition dict_get (d : dict) (key : string) : json :=
  match List.find (fun kv => bool_decide (kv.1 = key)) (rev d) with
  | Some kv => kv.2
  | None => JNull
  end.

(** [key in d] *)
Definition dict_has (d : dict) (key : string) : bool :=
  existsb (fun kv => bool_decide (kv.1 = key)) d.

(** [bool(v)] *)
Definition truthy (v : json) : bool :=
  match v with
  | JNull => false
  | JBool b => b
  | JNum n => negb (Z.eqb n 0)
  | JStr s => negb (bool_decide (s = EmptyString))
  | JArr items => match items with [] => false | _ => true end
  | JObj members => match members with [] => false | _ => true end
  end.

(** [a or b] *)
Definition json_or (a b : json) : json := if truthy a then a else b.

(** The second component of what [parse_iso] returns: a finite time stamp, or
    [None] for [float("inf")] *)
Abbreviation stamp := (option Q) (only parsing).

Section comments.
(** [datetime.fromisoformat(s).timestamp()]: the seconds since the epoch as the
    rational number the float denotes, or [None] when either call raises *)
Variable iso_timestamp : string -> option Q.

Definition parse_iso (dt : json) : stamp :=
  if negb (truthy dt) then None
  else match dt with
       | JStr s =>
           if Py.endswith s "Z" then iso_timestamp (Py.replace s "Z" "+00:00")
           else iso_timestamp s
       | _ => None      (* [dt.endswith] raises, which the handler catches *)
       end.

(** [c.get("created_at") or c.get("createdAt") or ""] *)
Definition created_at (c : dict) : json :=
  json_or (json_or (dict_get c "created_at") (dict_get c "createdAt")) (JStr EmptyString).

Definition comment_stamp (c : dict) : stamp := parse_iso (created_at c).

End comments.

(** The comparisons of floats, [float("inf")] included *)
Definition stamp_ltb (a b : stamp) : bool :=
  match a, b with
  | Some x, Some y => negb (Qle_bool y x)
  | Some _, None => true
  | None, _ => false
  end.

Definition stamp_eqb (a b : stamp) : bool :=
  match a, b with
  | Some x, Some y => Qeq_bool x y
  | None, None => true
  | _, _ => false
  end.

Definition stamp_leb (a b : stamp) : bool := negb (stamp_ltb b a).

(** [(ts1, idx1) < (ts2, idx2)] on tuples: the first components decide unless they
    are equal *)
Definition key_ltb (a b : stamp * nat) : bool :=
  if stamp_eqb a.1 b.1 then Nat.ltb a.2 b.2 else stamp_ltb a.1 b.1.

Section sorting.
Context {A : Type}.
Variable key : A -> stamp * nat.

(** [list.sort(key=...)] is a stable sort; it is modelled by the insertion sort
    that puts an element before the first one that is not smaller than it. *)
Fixpoint insert_by (x : A) (l : list A) : list A :=
  match l with
  | [] => [x]
  | y :: l' => if key_ltb (key y) (key x) then y :: insert_by x l' else x :: l
  end.

Fixpoint sort_by (l : list A) : list A :=
  match l with
  | [] => []
  | x :: l' => insert_by x (sort_by l')
  end.
End sorting.

(** [enumerate(comments)] with the time stamp of each comment, from index [k] on *)
Fixpoint indexed_from (iso_timestamp : string -> option Q) (k : nat) (comments : list dict)
    : list (stamp * nat * dict) :=
  match comments with
  | [] => []
  | c :: more => (comment_stamp iso_timestamp c, k, c) :: indexed_from iso_timestamp (S k) more
  end.

Definition sort_comments (iso_timestamp : string -> option Q) (comments : list dict)
    : list dict :=
  let indexed := indexed_from iso_timestamp 0 comments in
  let indexed := sort_by (fun x => (x.1.1, x.1.2)) indexed in
  (fun x => x.2) <$> indexed.

(* ===================================================================== *)
(** * Issues closed by a pull request                                    *)
(*    export_issues_prs.py:366 find_related_issues                       *)
(* ===================================================================== *)

(** [bool(s)] for a group that is [None] or a string *)
Definition group_truthy (g : option string) : bool :=
  match g with
  | Some (String _ _) => true
  | _ => false
  end.

Definition group_lower (g : option string) : string := Py.lower (default EmptyString g).

(** One turn of the loop over the matches; [None] when [int] raises *)
Definition related_step (issue_numbers : gset N) (owner repo : string)
    (related : gset N) (m : Re.rmatch) : option (gset N) :=
  num ← Py.int (default EmptyString (Re.group m "num"));
  let m_owner := Re.group m "owner" in
  let m_repo := Re.group m "repo" in
  if group_truthy m_owner && group_truthy m_repo
     && (negb (bool_decide (group_lower m_owner = Py.lower owner))
         || negb (bool_decide (group_lower m_repo = Py.lower repo)))
  then Some related
  else if bool_decide (num ∈ issue_numbers) then Some (related ∪ {[num]})
  else Some related.

(** A loop whose turns may raise: the first exception ends it. *)
Definition foldl_try {A B : Type} (step : A -> B -> option A) (init : A) (l : list B)
    : option A :=
  foldl (fun acc x => acc ≫= fun a => step a x) (Some init) l.

(** [find_related_issues(pr_body, issue_numbers, owner, repo)]; [None] when it
    raises, which it does on a number of more than 4300 digits *)
Definition find_related_issues (pr_body : string) (issue_numbers : gset N)
    (owner repo : string) : option (list N) :=
  match pr_body with
  | EmptyString => Some []
  | _ =>
      related ← foldl_try (related_step issue_numbers owner repo) ∅
                  (Re.finditer ISSUE_FIX_PATTERN pr_body);
      Some (merge_sort N.le (elements related))
  end.
(* ===================================================================== *)
(** * The run over the repositories                                      *)
(*    export_issues_prs.py:54 slugify_repo, :58 load_json,               *)
(*    :516 process_repo, :667 main                                       *)
(* ===================================================================== *)

(** The raw files as [load_json] meets them: a path is absent from the map, or it
    holds [None], a file that cannot be read or parsed, or the parsed value. *)
Abbreviation RawFS := (gmap (list string) (option json)) (only parsing).

(** What the operator sees of a run *)
Inductive out_event : Type :=
  | Stderr (line : string)
  | Stdout (line : string).

(** How a call ends: it returns, or an exception leaves it. *)
Inductive ending : Type :=
  | Returned
  | Raised.

(** How the program ends: [SystemExit] with a status, or an uncaught exception. *)
Inductive exit : Type :=
  | Exit (status : nat)
  | Traceback.

Definition slugify_repo (repo : string) : string := Py.replace repo "/" "_".

(** [str(path)] *)
Definition path_str (p : path) : string := Py.join "/" p.

Definition is_list (v : json) : bool :=
  match v with
  | JArr _ => true
  | _ => false
  end.

Definition missing_raw_msg (repo : string) (issues_path prs_path : path) : string :=
  "ERROR: Missing raw files for " +:+ repo +:+ ". Expected " +:+ path_str issues_path
  +:+ " and " +:+ path_str prs_path +:+ ".".

Definition not_a_list_msg (p : path) : string :=
  "ERROR: " +:+ path_str p +:+ " is not a list. Make sure you used gh api --paginate.".

Definition invalid_repo_msg (repo : string) : string :=
  "ERROR: Invalid repo format: " +:+ repo.

(** [path.exists()] on the raw files, and [load_json(path)], where [None] stands for
    the exception that [open] or [json.load] raises *)
Definition raw_exists (raw : RawFS) (p : path) : bool := bool_decide (is_Some (raw !! p)).
Definition load_json (raw : RawFS) (p : path) : option json := mjoin (raw !! p).

Section run.
(** The rest of [process_repo], from line 537 on, once both raw files hold lists: the
    export of the issues and pull requests of one repository, with what it prints and
    how it ends. *)
Variable export_items : string -> json -> json -> ending * list out_event.

Definition process_repo (repo : string) (raw_root : path) (raw : RawFS)
    : ending * list out_event :=
  match Py.split_once "/" repo with
  | (_, None) => (Raised, [])        (* too few values to unpack *)
  | (owner, Some name) =>
      let slug := slugify_repo repo in
      let raw_dir := (raw_root ++ [slug])%list in
      let issues_path := (raw_dir ++ ["issues.json"])%list in
      let prs_path := (raw_dir ++ ["prs.json"])%list in
      if negb (raw_exists raw issues_path) || negb (raw_exists raw prs_path)
      then (Returned, [Stderr (missing_raw_msg repo issues_path prs_path)])
      else
        match load_json raw issues_path with
        | None => (Raised, [])
        | Some issues_raw =>
            match load_json raw prs_path with
            | None => (Raised, [])
            | Some prs_raw =>
                if negb (is_list issues_raw)
                then (Returned, [Stderr (not_a_list_msg issues_path)])
                else if negb (is_list prs_raw)
                then (Returned, [Stderr (not_a_list_msg prs_path)])
                else export_items repo issues_raw prs_raw
            end
        end
  end.

(** The loop of [main] over [args.repo] *)
Fixpoint main (repos : list string) (raw_root : path) (raw : RawFS) : exit * list out_event :=
  match repos with
  | [] => (Exit 0, [])
  | repo :: more =>
      if negb (Py.has_char "/" repo) then (Exit 1, [Stderr (invalid_repo_msg repo)])
      else
        match process_repo repo raw_root raw with
        | (Raised, evs) => (Traceback, evs)
        | (Returned, evs) =>
            let '(e, evs') := main more raw_root raw in (e, (evs ++ evs')%list)
        end
  end.

End run.

(* ===================================================================== *)
(** * The clean-up of placeholder extensions                             *)
(*    cleanup_img_ext.py:35 main                                         *)
(*    The lines printed under --debug are left out.                      *)
(* ===================================================================== *)

(** [str] to [bytes] and back: a text is kept as the bytes of its UTF-8 form. *)
Definition decode (content : bytes) : string := string_of_list_byte content.
Definition encode (text : string) : bytes := list_byte_of_string text.

(** ** Reading a Markdown file *)

Definition in_codes (lo hi : nat) (c : ascii) : bool :=
  Nat.leb lo (Py.code c) && Nat.leb (Py.code c) hi.

(** A continuation byte, and the second byte allowed after the lead byte of a
    sequence of three or four bytes *)
Definition is_cont (c : ascii) : bool := in_codes 128 191 c.
Definition second_ok (lead c : ascii) : bool :=
  if Nat.eqb (Py.code lead) 224 then in_codes 160 191 c
  else if Nat.eqb (Py.code lead) 237 then in_codes 128 159 c
  else if Nat.eqb (Py.code lead) 240 then in_codes 144 191 c
  else if Nat.eqb (Py.code lead) 244 then in_codes 128 143 c
  else is_cont c.

(** U+FFFD in UTF-8 *)
Definition replacement (r : string) : string := String "239" (String "191" (String "189" r)).

(** [content.decode("utf-8", errors="replace")]: a well-formed sequence stands for
    its character; an ill-formed one is replaced by U+FFFD, one for its longest
    prefix that begins a well-formed sequence, or for its first byte. *)
Fixpoint decode_replace (s : string) : string :=
  match s with
  | EmptyString => EmptyString
  | String c r =>
      if Nat.ltb (Py.code c) 128 then String c (decode_replace r)
      else if in_codes 194 223 c then
        match r with
        | String c2 r2 =>
            if is_cont c2 then String c (String c2 (decode_replace r2))
            else replacement (decode_replace r)
        | EmptyString => replacement EmptyString
        end
      else if in_codes 224 239 c then
        match r with
        | String c2 r2 =>
            if second_ok c c2 then
              match r2 with
              | String c3 r3 =>
                  if is_cont c3 then String c (String c2 (String c3 (decode_replace r3)))
                  else replacement (decode_replace r2)
              | EmptyString => replacement EmptyString
              end
            else replacement (decode_replace r)
        | EmptyString => replacement EmptyString
        end
      else if in_codes 240 244 c then
        match r with
        | String c2 r2 =>
            if second_ok c c2 then
              match r2 with
              | String c3 r3 =>
                  if is_cont c3 then
                    match r3 with
                    | String c4 r4 =>
                        if is_cont c4
                        then String c (String c2 (String c3 (String c4 (decode_replace r4))))
                        else replacement (decode_replace r3)
                    | EmptyString => replacement EmptyString
                    end
                  else replacement (decode_replace r2)
              | EmptyString => replacement EmptyString
              end
            else replacement (decode_replace r)
        | EmptyString => replacement EmptyString
        end
      else replacement (decode_replace r)
  end.

(** The translation of line ends on reading: CR LF and a lone CR become LF. *)
Fixpoint universal_newlines (s : string) : string :=
  match s with
  | EmptyString => EmptyString
  | String c r =>
      if bool_decide (c = "013"%char) then
        String "010" match r with
                     | String c2 r2 =>
                         if bool_decide (c2 = "010"%char) then universal_newlines r2
                         else universal_newlines r
                     | EmptyString => EmptyString
                     end
      else String c (universal_newlines r)
  end.

(** [md.read_text(encoding="utf-8", errors="replace")] on the content of a file *)
Definition read_text (content : bytes) : string :=
  universal_newlines (decode_replace (decode content)).

(** ** The tree below the export root *)

(** What the clean-up meets outside the model. [may_rename] tells whether
    [os.rename] goes through and [write_back] how the writing of a Markdown file
    ends. [probe_refused] tells of a path that the system refuses to look at (a name
    too long for it, say), so that [resolve] or [exists] raises. The system lists
    directory entries, and Python the elements of a set of strings, in an order of
    their own: [walk_rank] and [set_rank] put them in order, the latter for the set of
    one Markdown file. [refs_outside_ascii] gives the matches of the pattern of
    references in a text with characters outside ASCII, where the class [\s] depends
    on the Unicode character database. *)
Record CleanEnv : Type := MkCleanEnv {
  may_rename : path -> path -> bool;
  write_back : path -> bytes -> write_result;
  probe_refused : path -> bool;
  walk_rank : path -> nat;
  set_rank : path -> string -> nat;
  refs_outside_ascii : string -> list string
}.

Definition rank_le {A : Type} (rank : A -> nat) (a b : A) : Prop := rank a <= rank b.

#[global] Instance rank_le_dec {A : Type} (rank : A -> nat) (a b : A)
  : Decision (rank_le rank a b) := decide (rank a <= rank b).

(** A list in the order of the ranks of its elements *)
Definition by_rank {A : Type} (rank : A -> nat) (l : list A) : list A :=
  merge_sort (rank_le rank) l.

(** The directories: those above a file, and those of [dirs], which may hold no
    file, with the directories above them *)
Fixpoint proper_prefixes (p : path) : list (list string) :=
  match p with
  | [] => []
  | c :: r => [] :: (cons c <$> proper_prefixes r)
  end.

Definition directories (fs : FS) (dirs : gset (list string)) : list (list string) :=
  remove_dups (concat (proper_prefixes <$> listing fs)
               ++ concat ((fun d => proper_prefixes d ++ [d]) <$> elements dirs))%list.

Definition is_dir (fs : FS) (dirs : gset (list string)) (p : path) : bool :=
  bool_decide (p ∈ directories fs dirs).

(** [Path.exists] *)
Definition tree_exists (fs : FS) (dirs : gset (list string)) (p : path) : bool :=
  is_file fs p || is_dir fs dirs p.

(** [root.rglob("*.img")] and [root.rglob("*.md")]: the files and the directories
    below [root] whose name ends as the pattern says *)
Definition rglob (env : CleanEnv) (fs : FS) (dirs : gset (list string)) (root : path)
    (ending : string) : list (list string) :=
  by_rank (walk_rank env)
    (List.filter (fun p => bool_decide (root `prefix_of` p) && negb (bool_decide (p = root))
                           && Py.endswith (path_name p) ending)
                 (listing fs ++ directories fs dirs)%list).

(** [os.rename]: the file moves, over a file that may be at the new path *)
Definition rename_file (fs : FS) (src dst : path) : FS :=
  match fs !! src with
  | Some content => <[dst := content]> (delete src fs)
  | None => fs
  end.

(** [rewrites[old] = new] on a dictionary kept in the order of insertion *)
Fixpoint dict_set (d : list (string * string)) (k v : string) : list (string * string) :=
  match d with
  | [] => [(k, v)]
  | (k', v') :: d' => if bool_decide (k' = k) then (k, v) :: d' else (k', v') :: dict_set d' k v
  end.

(** One turn of the loop over the placeholder files. A directory cannot be read as
    a file, so [detect_ext] returns [None] for it. *)
Definition rename_step (env : CleanEnv) (root : path)
    (acc : FS * list (string * string)) (img : path) : FS * list (string * string) :=
  let '(fs, rewrites) := acc in
  match detect_ext fs img with
  | None => acc
  | Some ext =>
      let new_path := with_suffix img ext in
      if may_rename env img new_path
      then (rename_file fs img new_path,
            dict_set rewrites (relpath img root) (relpath new_path root))
      else acc
  end.

Definition ext_candidates : list string := [".png"; ".jpg"; ".jpeg"; ".gif"; ".webp"].

(** [PurePosixPath(s)]: whether it is absolute, and its components; empty
    components and single dots are dropped. *)
Definition parse_path (s : string) : bool * list string :=
  (Py.startswith s "/",
   List.filter (fun c => negb (bool_decide (c = EmptyString)) && negb (bool_decide (c = ".")))
               (Py.split "/" s)).

(** [str(PurePosixPath)]; a path that starts with exactly two slashes keeps both. *)
Definition path_root (s : string) : string :=
  if Py.startswith s "//" && negb (Py.startswith s "///") then "//"
  else if Py.startswith s "/" then "/" else EmptyString.

Definition pure_path_str (root : string) (comps : list string) : string :=
  match root, comps with
  | EmptyString, [] => "."
  | _, _ => root +:+ Py.join "/" comps
  end.

(** [Path.resolve]: the [..] components are folded away; there are no links. *)
Definition resolve (p : path) : path :=
  foldl (fun acc c => if bool_decide (c = "..") then removelast acc else (acc ++ [c])%list) [] p.

(** [md.parent / rel_path], and whether [resolve] raises on it: it does on a NUL
    character, and where the system refuses the path *)
Definition joined (md : path) (rel_path : string) : path :=
  let '(absolute, comps) := parse_path rel_path in
  if absolute then comps else (path_parent md ++ comps)%list.

Definition resolve_raises (env : CleanEnv) (p : path) : bool :=
  existsb (Py.has_char "000") p || probe_refused env p.

(** [(md.parent / rel_path).resolve()] *)
Definition candidate_base (md : path) (rel_path : string) : path :=
  resolve (joined md rel_path).

(** The loop over [ext_candidates]: the first extension with which the path exists,
    if there is one; [None] when [cand.exists()] raises before one is found *)
Fixpoint first_existing (env : CleanEnv) (fs : FS) (dirs : gset (list string)) (base : path)
    (exts : list string) : option (option string) :=
  match exts with
  | [] => Some None
  | ext :: more =>
      let cand := with_suffix base ext in
      if probe_refused env cand then None
      else if tree_exists fs dirs cand then Some (Some ext)
      else first_existing env fs dirs base more
  end.

(** [dir_path.iterdir()], of which the loop looks at the files only *)
Definition iterdir_files (env : CleanEnv) (fs : FS) (dir : path) : list (list string) :=
  by_rank (walk_rank env)
    (List.filter (fun p => bool_decide (path_parent p = dir) && negb (bool_decide (p = [])))
                 (listing fs)).

(** The fallback, all of it under [try]: the name of a file of the same directory
    with the same numeric prefix and a known extension *)
Definition prefix_match (env : CleanEnv) (fs : FS) (base : path) (rel_path : string)
    : option string :=
  let prefix := (Py.split_once "_" (path_name base)).1 +:+ "_" in
  match List.find (fun file => Py.startswith (path_name file) prefix
                               && bool_decide (Py.lower (path_suffix file) ∈ ext_candidates))
                  (iterdir_files env fs (path_parent base)) with
  | Some file =>
      match (parse_path rel_path).2 with
      | [] => None                  (* [with_name] raises, the handler passes *)
      | comps =>
          Some (Py.replace (pure_path_str (path_root rel_path)
                              (with_name comps (path_name file)))
                           "\" "/")
      end
  | None => None
  end.

(** What the reference [rel_path] of the Markdown file [md] is replaced by, if by
    anything: the same name with a known extension when such a path exists, or else
    the name found by the fallback. The outer [None] stands for an exception that
    nothing catches. *)
Definition resolve_ref (env : CleanEnv) (fs : FS) (dirs : gset (list string)) (md : path)
    (rel_path : string) : option (option string) :=
  if resolve_raises env (joined md rel_path) then None
  else
    let base := candidate_base md rel_path in
    match first_existing env fs dirs base ext_candidates with
    | None => None
    | Some (Some ext) => Some (Some (Py.take (Py.len rel_path - 4) rel_path +:+ ext))
    | Some None => Some (prefix_match env fs base rel_path)
    end.

(** The elements of [set(l)], each once *)
Fixpoint dedup_str (l : list string) : list string :=
  match l with
  | [] => []
  | x :: r => x :: List.filter (fun y => negb (bool_decide (y = x))) (dedup_str r)
  end.

(** [pattern.findall(updated)]: the matches of the pattern above on ASCII text, those
    the environment tells on any other *)
Definition find_refs (env : CleanEnv) (text : string) : list string :=
  if Py.is_ascii text then Re.findall IMG_REF_PATTERN text else refs_outside_ascii env text.

(** [matches = set(pattern.findall(updated))] in the order of the loop over it *)
Definition ref_set (env : CleanEnv) (md : path) (updated : string) : list string :=
  by_rank (set_rank env md) (dedup_str (find_refs env updated)).

Definition apply_rewrites (rewrites : list (string * string)) (text : string) : string :=
  foldl (fun updated kv =>
           let updated := Py.replace updated kv.1 kv.2 in
           let updated := Py.replace updated ("../" +:+ kv.1) ("../" +:+ kv.2) in
           Py.replace updated ("./" +:+ kv.1) ("./" +:+ kv.2))
        text rewrites.

(** The loop over the references of one Markdown file; [None] when it raises *)
Fixpoint fix_refs (env : CleanEnv) (fs : FS) (dirs : gset (list string)) (md : path)
    (refs : list string) (updated : string) : option string :=
  match refs with
  | [] => Some updated
  | rel_path :: more =>
      match resolve_ref env fs dirs md rel_path with
      | None => None
      | Some (Some new_rel) =>
          fix_refs env fs dirs md more (Py.replace updated rel_path new_rel)
      | Some None => fix_refs env fs dirs md more updated
      end
  end.

(** One turn of the loop over the Markdown files: how it ends, the files and
    [updated_files]. A directory whose name ends in [.md] is among them, and
    [read_text] raises on it. *)
Definition md_step (env : CleanEnv) (rewrites : list (string * string))
    (dirs : gset (list string)) (acc : FS * nat) (md : path) : ending * (FS * nat) :=
  let '(fs, updated_files) := acc in
  match fs !! md with
  | None => (Raised, acc)
  | Some content =>
      let text := read_text content in
      let updated := apply_rewrites rewrites text in
      match fix_refs env fs dirs md (ref_set env md updated) updated with
      | None => (Raised, acc)
      | Some updated =>
          if bool_decide (updated = text) then (Returned, acc)
          else
            match write_back env md (encode updated) with
            | WriteOk => (Returned, (<[md := encode updated]> fs, S updated_files))
            | WriteError partial => (Raised, (leave md partial fs, updated_files))
            end
      end
  end.

Fixpoint md_steps (env : CleanEnv) (rewrites : list (string * string))
    (dirs : gset (list string)) (mds : list (list string)) (acc : FS * nat)
    : ending * (FS * nat) :=
  match mds with
  | [] => (Returned, acc)
  | md :: more =>
      match md_step env rewrites dirs acc md with
      | (Raised, acc') => (Raised, acc')
      | (Returned, acc') => md_steps env rewrites dirs more acc'
      end
  end.

Definition cleanup_msg (rewrites : list (string * string)) (updated_files : nat) : string :=
  match rewrites with
  | [] => "No .img files renamed. Updated Markdown references in "
          +:+ Py.str_of_nat updated_files +:+ " files."
  | _ => "Renamed " +:+ Py.str_of_nat (length rewrites)
         +:+ " files and updated Markdown references in "
         +:+ Py.str_of_nat updated_files +:+ " files."
  end.

(** [raise SystemExit(main())] on the files [fs] and the directories [dirs]: how the
    program ends, the files then, and what it has printed *)
Definition cleanup_main (env : CleanEnv) (root : path) (fs : FS) (dirs : gset (list string))
    : exit * FS * list out_event :=
  if negb (tree_exists fs dirs root)
  then (Exit 1, fs, [Stdout ("Export root not found: " +:+ path_str root)])
  else
    let '(fs1, rewrites) :=
      foldl (rename_step env root) (fs, []) (rglob env fs dirs root ".img") in
    match md_steps env rewrites dirs (rglob env fs1 dirs root ".md") (fs1, 0) with
    | (Raised, (fs2, _)) => (Traceback, fs2, [])
    | (Returned, (fs2, updated_files)) =>
        (Exit 0, fs2, [Stdout (cleanup_msg rewrites updated_files)])
    end.
(* ===================================================================== *)
(** * Pull requests mentioned by an issue, and the list of links         *)
(*    export_issues_prs.py:40 PR_CONTEXT_PATTERN,                        *)
(*    :43 PR_URL_PATTERN_TEMPLATE, :349 find_related_prs,                *)
(*    :382 format_related_links                                          *)
(* ===================================================================== *)

(** [(?i)(?:\bpr\b|\bpull\s+request\b|\bpull\b|\bmerge\b)\s*#(?P<num>\d+)] *)
Definition PR_CONTEXT_PATTERN : Re.pattern :=
  Re.Pattern
    (Re.seq [ Re.Alt (Re.seq [ Re.WordB; Re.lit_ci "pr"; Re.WordB ])
                (Re.Alt (Re.seq [ Re.WordB; Re.lit_ci "pull"; Re.plus (Re.Chr Py.is_space);
                                  Re.lit_ci "request"; Re.WordB ])
                   (Re.Alt (Re.seq [ Re.WordB; Re.lit_ci "pull"; Re.WordB ])
                           (Re.seq [ Re.WordB; Re.lit_ci "merge"; Re.WordB ])));
              Re.Star true (Re.Chr Py.is_space);
              Re.chr "#";
              Re.Group "num" (Re.plus (Re.Chr Py.is_digit)) ])
    true.

(** [re.compile(PR_URL_PATTERN_TEMPLATE.format(owner=re.escape(owner),
    repo=re.escape(repo)), re.IGNORECASE)] with the template
    [https?://github\.com/{owner}/{repo}/pull/(?P<num>\d+)]: an escaped name stands
    for its own characters. *)
Definition pr_url_pattern (owner repo : string) : Re.pattern :=
  Re.Pattern
    (Re.seq [ Re.lit_ci "http"; Re.opt (Re.chr_ci "s"); Re.lit_ci "://github.com/";
              Re.lit_ci owner; Re.chr "/"; Re.lit_ci repo; Re.lit_ci "/pull/";
              Re.Group "num" (Re.plus (Re.Chr Py.is_digit)) ])
    true.

(** [int(m.group("num"))] *)
Definition match_num (m : Re.rmatch) : option N :=
  Py.int (default EmptyString (Re.group m "num")).

(** One turn of either inner loop: the number is kept when it is that of a known
    pull request. *)
Definition add_known (pr_numbers : gset N) (related : gset N) (m : Re.rmatch)
    : option (gset N) :=
  num ← match_num m;
  Some (if bool_decide (num ∈ pr_numbers) then related ∪ {[num]} else related).

(** One turn of the loop over the texts *)
Definition related_prs_step (pr_numbers : gset N) (url_pat : Re.pattern)
    (related : gset N) (text : string) : option (gset N) :=
  match text with
  | EmptyString => Some related
  | _ =>
      related ← foldl_try (add_known pr_numbers) related (Re.finditer url_pat text);
      foldl_try (add_known pr_numbers) related (Re.finditer PR_CONTEXT_PATTERN text)
  end.

(** [find_related_prs(texts, pr_numbers, owner, repo)]; [None] when it raises *)
Definition find_related_prs (texts : list string) (pr_numbers : gset N)
    (owner repo : string) : option (list N) :=
  let url_pat := pr_url_pattern owner repo in
  related ← foldl_try (related_prs_step pr_numbers url_pat) ∅ texts;
  Some (merge_sort N.le (elements related)).

(** The line feed *)
Definition nl : string := String "010" EmptyString.

(** One line of the list: [f"- [{label} #{num}]({url})"] with
    [url = f"{base_url}/{num}"] *)
Definition related_link (base_url label : string) (num : N) : string :=
  "- [" +:+ label +:+ " #" +:+ Py.str_of_N num +:+ "]("
  +:+ base_url +:+ "/" +:+ Py.str_of_N num +:+ ")".

Definition format_related_links (numbers : list N) (base_url label : string) : string :=
  match numbers with
  | [] => "_None_"
  | _ => Py.join nl (related_link base_url label <$> numbers)
  end.
(* ===================================================================== *)
(** * The Markdown file of an issue or pull request                      *)
(*    export_issues_prs.py:306 extract_issue_fields,                     *)
(*    :318 extract_pr_fields, :392 write_issue_md, :452 write_pr_md      *)
(* ===================================================================== *)

(** [str(n)] for an integer *)
Definition str_of_Z (n : Z) : string :=
  if Z.ltb n 0 then "-" +:+ Py.str_of_N (Z.abs_N n) else Py.str_of_N (Z.to_N n).

(** [d[key]]: [None] stands for [KeyError] *)
Definition dict_item (d : dict) (key : string) : option json :=
  if dict_has d key then Some (dict_get d key) else None.

(** [d.get(key, {})] *)
Definition dict_get_or_empty (d : dict) (key : string) : json :=
  if dict_has d key then dict_get d key else JObj [].

(** [v or ""] *)
Definition or_empty (v : json) : json := json_or v (JStr EmptyString).

(** A value where the program needs a string: anything else makes the operation on
    it raise [TypeError] or [AttributeError]. *)
Definition as_str (v : json) : option string :=
  match v with
  | JStr s => Some s
  | _ => None
  end.

(** A value where the program calls [get]: only an object has it. *)
Definition as_dict (v : json) : option (list (string * json)) :=
  match v with
  | JObj d => Some d
  | _ => None
  end.

(** The dictionary built by [extract_issue_fields] and [extract_pr_fields], whose
    bodies are the same; [None] when [upper] is called on a state that is not a
    string *)
Definition extract_fields (item : dict) : option (list (string * json)) :=
  state ← as_str (or_empty (dict_get item "state"));
  Some [ ("number", dict_get item "number");
         ("title", or_empty (dict_get item "title"));
         ("url", or_empty (json_or (dict_get item "html_url") (dict_get item "url")));
         ("state", JStr (Py.upper state));
         ("created_at", or_empty (json_or (dict_get item "created_at")
                                          (dict_get item "createdAt")));
         ("updated_at", or_empty (json_or (dict_get item "updated_at")
                                          (dict_get item "updatedAt")));
         ("body", or_empty (dict_get item "body")) ].

Definition extract_issue_fields (issue : dict) : option (list (string * json)) :=
  extract_fields issue.
Definition extract_pr_fields (pr : dict) : option (list (string * json)) :=
  extract_fields pr.

(** [(c.get("user", {}) or {}).get("login") or c.get("author", {}).get("login")
     or c.get("author") or "unknown"]; [None] when [get] is called on a value that
    is not an object *)
Definition comment_author (c : dict) : option json :=
  user ← as_dict (json_or (dict_get_or_empty c "user") (JObj []));
  if truthy (dict_get user "login") then Some (dict_get user "login")
  else
    author ← as_dict (dict_get_or_empty c "author");
    if truthy (dict_get author "login") then Some (dict_get author "login")
    else Some (json_or (dict_get c "author") (JStr "unknown")).

Section documents.
Context {M : Type}.
(** [datetime.fromisoformat(s).timestamp()], as for [sort_comments] *)
Variable iso_timestamp : string -> option Q.
(** [repr] of a list or dictionary, which is what an f-string prints for one *)
Variable py_repr : json -> string.
(** [ensure_dir(md_path.parent)] and [md_path.write_text(content)], by the number
    of events so far *)
Variable write_text : nat -> path -> bytes -> write_result.

(** [f"{v}"] *)
Definition py_str (v : json) : string :=
  match v with
  | JNull => "None"
  | JBool true => "True"
  | JBool false => "False"
  | JNum n => str_of_Z n
  | JStr s => s
  | JArr _ | JObj _ => py_repr v
  end.

(** [replace_images(v, tracker)] on any value: a falsy one gives the empty string,
    a string is rewritten, and on any other value [re.sub] raises [TypeError]. *)
Definition replace_images_value (env : Env) (v : json) (st : ImageTracker M * Heap M)
    : option string * (ImageTracker M * Heap M) :=
  if negb (truthy v) then (Some EmptyString, st)
  else match v with
       | JStr text => replace_images env text st
       | _ => (None, st)
       end.

(** One turn of the loop over the sorted comments *)
Definition comment_block (env : Env) (c : dict) (st : ImageTracker M * Heap M)
    : option string * (ImageTracker M * Heap M) :=
  match comment_author c with
  | None => (None, st)
  | Some author =>
      let created := created_at c in
      match replace_images_value env (or_empty (dict_get c "body")) st with
      | (None, st') => (None, st')
      | (Some body, st') =>
          let body := if Py.is_blank body then "_No content_" else body in
          (Some ("### " +:+ py_str author +:+ " | " +:+ py_str created +:+ nl +:+ nl +:+ body),
           st')
      end
  end.

Fixpoint comment_blocks (env : Env) (cs : list (list (string * json)))
    (st : ImageTracker M * Heap M) : option (list string) * (ImageTracker M * Heap M) :=
  match cs with
  | [] => (Some [], st)
  | c :: more =>
      match comment_block env c st with
      | (None, st') => (None, st')
      | (Some block, st') =>
          let '(blocks, st'') := comment_blocks env more st' in
          (cons block <$> blocks, st'')
      end
  end.

(** The list [content], joined with line feeds. [title] is ["Issue"] or ["PR"] and
    [related_heading] the heading of the section of links. *)
Definition render (title related_heading : string) (num : Z) (item : dict)
    (desc related_section : string) (blocks : list string) : option string :=
  item_title ← dict_item item "title";
  url ← dict_item item "url" ≫= as_str;
  state ← dict_item item "state" ≫= as_str;
  created ← dict_item item "created_at" ≫= as_str;
  updated ← dict_item item "updated_at" ≫= as_str;
  Some (Py.join nl
    [ "# " +:+ title +:+ " #" +:+ str_of_Z num +:+ ": " +:+ py_str item_title;
      EmptyString;
      "- URL: " +:+ url;
      "- State: " +:+ state;
      "- Created: " +:+ created;
      "- Updated: " +:+ updated;
      EmptyString;
      "## Description";
      EmptyString;
      desc;
      EmptyString;
      related_heading;
      EmptyString;
      related_section;
      EmptyString;
      "## Comments";
      EmptyString;
      match blocks with
      | [] => "_No comments_"
      | _ => Py.join (nl +:+ nl) blocks
      end;
      EmptyString ]).

(** What [write_issue_md] and [write_pr_md] have in common, which is all but the
    names: [file_prefix] is ["ISSUE"] or ["PR"]. The result is [None] when the number
    of the item is not an integer: the model follows the numbers GitHub gives, whose
    decimal form is one path component. Otherwise it tells how the call ends, and
    the heap at that point. *)
Definition write_md (file_prefix title related_heading : string) (env : Env) (item : dict)
    (comments : list json) (out_dir assets_root : path) (related_section : string)
    (tok : option string) (cb : option (string -> string -> M -> M)) (h : Heap M)
    : option (ending * Heap M) :=
  match dict_item item "number" with
  | None => Some (Raised, h)
  | Some (JNum num) =>
      let md_path := (out_dir ++ [file_prefix +:+ "-" +:+ str_of_Z num +:+ ".md"])%list in
      let assets_dir := (assets_root ++ [str_of_Z num])%list in
      let tracker := ImageTracker_init assets_dir (path_parent md_path) tok cb in
      match dict_item item "body" with
      | None => Some (Raised, h)
      | Some body =>
          match replace_images_value env body (tracker, h) with
          | (None, st) => Some (Raised, st.2)
          | (Some desc, st) =>
              let desc := if Py.is_blank desc then "_No description_" else desc in
              match mapM as_dict comments with
              | None => Some (Raised, st.2)
              | Some cs =>
                  match comment_blocks env (sort_comments iso_timestamp cs) st with
                  | (None, st') => Some (Raised, st'.2)
                  | (Some blocks, st') =>
                      match render title related_heading num item desc related_section
                                   blocks with
                      | None => Some (Raised, st'.2)
                      | Some content =>
                          let h' := st'.2 in
                          let w := world h' in
                          match write_text (now w) md_path (encode content) with
                          | WriteOk =>
                              Some (Returned,
                                    MkHeap (stats h')
                                           (MkWorld (<[md_path := encode content]> (files w))
                                                    (trace w))
                                           (store h'))
                          | WriteError partial =>
                              Some (Raised,
                                    MkHeap (stats h')
                                           (MkWorld (leave md_path partial (files w)) (trace w))
                                           (store h'))
                          end
                      end
                  end
              end
          end
      end
  | Some _ => None
  end.


Definition write_pr_md (env : Env) (pr : dict) (issue_comments review_comments : list json)
    (out_dir assets_root : path) (related_issues : list N) (repo_url : string)
    (tok : option string) (cb : option (string -> string -> M -> M)) (h : Heap M)
    : option (ending * Heap M) :=
  write_md "PR" "PR" "## Related Issues" env pr (issue_comments ++ review_comments)
    out_dir assets_root
    (format_related_links related_issues (repo_url +:+ "/issues") "Issue") tok cb h.

End documents.
(* ===================================================================== *)
(** * The list of missing attachments                                    *)
(*    export_issues_prs.py:572 make_missing_cb                           *)
(* ===================================================================== *)

(** A row of the list [missing], later a line of [missing_attachments_<slug>.jsonl] *)
Record missing_row : Type := MkRow {
  row_repo : string;
  row_repo_slug : string;
  row_kind : string;
  row_number : string;
  row_url : string;
  row_local_path : string;
  row_md_path : string
}.

(** [make_missing_cb(kind, number)] inside [process_repo] for the repository [repo]:
    the callback [_cb(url, rel_path)], which appends a row to the list *)
Definition make_missing_cb (repo kind : string) (number : Z) (url rel_path : string)
    (missing : list missing_row) : list missing_row :=
  (missing ++
   [ MkRow repo (slugify_repo repo) kind (str_of_Z number) url
       (Py.replace rel_path "../" EmptyString)
       (kind +:+ "s/" +:+ Py.upper kind +:+ "-" +:+ str_of_Z number +:+ ".md") ])%list.

(* ===================================================================== *)
(** * The download of the missing attachments through a browser          *)
(*    download_attachments.py:38 main                                    *)
(*    The rows are those that [load_missing] has read; what the browser  *)
(*    itself writes to its profile directory is not part of the model.   *)
(* ===================================================================== *)

(** [out_root / s]: the components of [s] are appended, empty ones and single dots
    dropped; an absolute [s] replaces the path. The result is [None] when a
    component is [..], which the list of components cannot follow. *)
Definition path_div (p : path) (s : string) : option (list string) :=
  let '(absolute, comps) := parse_path s in
  if bool_decide (".." ∈ comps) then None
  else Some (if absolute then comps else (p ++ comps)%list).

(** [out_root / repo_slug / rel] *)
Definition row_target (out_root : path) (row : missing_row) : option (list string) :=
  path_div out_root (row_repo_slug row) ≫= fun p => path_div p (row_local_path row).

(** What [req.get(url)] and [resp.body()] give: an exception, a response that is not
    [ok], or the body of one that is *)
Inductive reply : Type :=
  | ReplyRaises
  | ReplyNotOk
  | ReplyBody (body : bytes).

(** The browser session and the file system, by the number of rows handled so far *)
Record Browser : Type := MkBrowser {
  launch_ok : bool;            (* the profile directory, the browser and the page *)
  enter_ok : bool;             (* [input] returns *)
  request : nat -> string -> reply;
  mkdir_ok : nat -> path -> bool;
  write_bytes : nat -> path -> bytes -> write_result;
  close_ok : bool
}.

(** The counters [ok] and [fail] and the files *)
Record Progress : Type := MkProgress {
  ok_count : nat;
  fail_count : nat;
  disk : FS
}.

(** One turn of the loop over the rows. It raises when the directory of the target
    cannot be made; every other failure is counted and the loop goes on. *)
Definition download_row (b : Browser) (i : nat) (target : path) (url : string)
    (s : Progress) : ending * Progress :=
  if negb (mkdir_ok b i (path_parent target)) then (Raised, s)
  else
    match request b i url with
    | ReplyRaises | ReplyNotOk => (Returned, MkProgress (ok_count s) (S (fail_count s)) (disk s))
    | ReplyBody body =>
        match body with
        | [] => (Returned, MkProgress (ok_count s) (S (fail_count s)) (disk s))
        | _ =>
            match write_bytes b i target body with
            | WriteOk =>
                (Returned, MkProgress (S (ok_count s)) (fail_count s) (<[target := body]> (disk s)))
            | WriteError partial =>
                (Returned,
                 MkProgress (ok_count s) (S (fail_count s)) (leave target partial (disk s)))
            end
        end
    end.

(** The loop; [None] when a target has a [..] component *)
Fixpoint download_rows (b : Browser) (out_root : path) (i : nat) (rows : list missing_row)
    (s : Progress) : option (ending * Progress) :=
  match rows with
  | [] => Some (Returned, s)
  | row :: more =>
      match row_target out_root row with
      | None => None
      | Some target =>
          match download_row b i target (row_url row) s with
          | (Raised, s') => Some (Raised, s')
          | (Returned, s') => download_rows b out_root (S i) more s'
          end
      end
  end.

Definition downloaded_msg (s : Progress) : string :=
  "Downloaded " +:+ Py.str_of_nat (ok_count s) +:+ " attachments, "
  +:+ Py.str_of_nat (fail_count s) +:+ " failed.".

(** [main] of download_attachments.py on the rows read *)
Definition attachments_main (b : Browser) (out_root : path) (rows : list missing_row) (fs : FS)
    : option (exit * FS * list out_event) :=
  match rows with
  | [] => Some (Exit 0, fs, [Stdout "No missing attachments found."])
  | _ =>
      if negb (launch_ok b) then Some (Traceback, fs, [])
      else
        let greeting := [Stdout "If not logged in, log in now in the opened browser.";
                         Stdout "Press Enter to continue downloading..."] in
        if negb (enter_ok b) then Some (Traceback, fs, greeting)
        else
          r ← download_rows b out_root 0 rows (MkProgress 0 0 fs);
          match r with
          | (Raised, s) => Some (Traceback, disk s, greeting)
          | (Returned, s) =>
              Some (if close_ok b then Exit 0 else Traceback, disk s,
                    (greeting ++ [Stdout (downloaded_msg s)])%list)
          end
  end.
(* ===================================================================== *)
(** * Predicates used in the statements                                  *)
(* ===================================================================== *)

(** All characters are of the class [[A-Za-z0-9._-]]. *)
Definition safe_chars (s : string) : Prop := Forall (fun c => is_safe c = true) (Py.chars s).

Definition lit_safe (sg : Re.segment) : Prop :=
  match sg with
  | Re.Lit t => safe_chars t
  | Re.Mat _ => True
  end.



(** The path a first call for [url] returns when the download fails: where the file
    would have been, relative to the directory of the Markdown file *)
Definition planned_rel {M : Type} (t : ImageTracker M) (url : string) : string :=
  relpath (assets_dir t ++ [filename_from_url url (S (counter t))]) (md_dir t).

(** The tracker and the heap after the two increments with which a first call
    begins *)
Definition counted {M : Type} (t : ImageTracker M) : ImageTracker M :=
  MkTracker (assets_dir t) (md_dir t) (token t) (missing_cb t) (S (counter t)) (url_to_rel t).

Definition attempt_counted {M : Type} (h : Heap M) : Heap M :=
  MkHeap (MkStats (S (attempted (stats h))) (downloaded (stats h)) (failed (stats h))
                  (stats_missing (stats h)))
         (world h) (store h).

(** The calls of a sequence that raised *)
Definition raised (rels : list (option string)) : nat :=
  length (List.filter (fun r : option string => bool_decide (r = None)) rels).

(** [urlsplit] accepts the URL in the environment. *)
Definition accepted (env : Env) (url : string) : bool :=
  negb (urlsplit_raises (host_refused env) url).

(** The URL of a matched image reference is one the program rewrites: it is not
    empty, does not begin with [data:] and begins with [http://] or [https://]. *)
Definition rewritable (url : option string) : bool :=
  match url with
  | None | Some EmptyString => false
  | Some u =>
      negb (Py.startswith u "data:")
      && (Py.startswith u "http://" || Py.startswith u "https://")
  end.

(** The URLs of the matches that are to be rewritten, in the order of the text *)
Definition rewritten_urls (segs : list Re.segment) : list string :=
  omap (fun sg => match sg with
                  | Re.Mat m => if rewritable (match_url m) then match_url m else None
                  | Re.Lit _ => None
                  end) segs.

(** A piece of the text that [replace_images] is to leave alone: text between
    matches, or a match whose URL is not rewritable *)
Definition kept (sg : Re.segment) : bool :=
  match sg with
  | Re.Lit _ => true
  | Re.Mat m => negb (rewritable (match_url m))
  end.

(** A run that ends with status 1 has done nothing but report the invalid
    repository: the check halted it before any processing began. *)
Definition halted_before_processing (r : exit * list out_event) : Prop :=
  r.1 = Exit 1 -> exists repo, r.2 = [Stderr (invalid_repo_msg repo)].




(* ===================================================================== *)
(** * Sample environments and documents                                  *)
(* ===================================================================== *)

(** The callback of a caller that keeps the pairs it is given, latest last *)
Definition record_pair (url rel : string) (m : list (string * string)) : list (string * string) :=
  (m ++ [(url, rel)])%list.

(** Issue 5 of the repository [o/r], exported under [/export] *)
Definition sample_tracker : ImageTracker (list (string * string)) :=
  ImageTracker_init ["export"; "o_r"; "assets"; "issues"; "5"] ["export"; "o_r"; "issues"]
    None (Some record_pair).

Definition empty_heap : Heap (list (string * string)) :=
  MkHeap ImageStats_init (MkWorld ∅ []) [].

(** A network that serves a PNG signature for URLs ending in [.png], fails every
    other request, and has no [gh] client; the library accepts every host with two
    brackets or with characters outside ASCII, and finds no image in a text with
    such characters *)
Definition sample_env : Env :=
  MkEnv (fun _ url _ => if Py.endswith url ".png" then FetchOk (PNG_SIG ++ [x00])%list
                        else FetchError None)
        (fun _ _ => GhRaise None)
        (fun _ _ _ => true)
        (fun _ => false)
        (fun _ => []).

(** A network that answers every request with status 200 and an empty body *)
Definition empty_body_env : Env :=
  MkEnv (fun _ _ _ => FetchOk []) (fun _ _ => GhRaise None) (fun _ _ _ => true)
        (fun _ => false) (fun _ => []).

(** A URL whose host opens a bracket that it does not close: [urlsplit] raises
    [ValueError("Invalid IPv6 URL")] on it. *)
Definition bad_host_url : string := "http://[x/b.png".

Definition sample_url : string := "https://example.com/user-attachments/assets/abc".

(** A text whose image references are an inline image and two relative ones *)
Definition inline_and_relative_text : string :=
  "see ![chart](data:image/png;base64,AAAA) and <img width=3 src='shots/a.png'> or ![b](./b.png 'B')".

(** The raw files of a repository [o/r] without issues and pull requests, and what
    the export prints for it *)
Definition empty_repo_raw : gmap (list string) (option json) :=
  {[ ["export"; "raw"; "o_r"; "issues.json"] := Some (JArr []);
     ["export"; "raw"; "o_r"; "prs.json"] := Some (JArr []) ]}.

Definition export_nothing (repo : string) (issues prs : json) : ending * list out_event :=
  (Returned, [Stdout ("[" +:+ repo +:+ "] Images: downloaded 0/0 (0 failed)")]).

(** Raw files where [a/b] lacks its pull requests and [c/d] holds an object *)
Definition faulty_raw : gmap (list string) (option json) :=
  {[ ["export"; "raw"; "a_b"; "issues.json"] := Some (JArr []);
     ["export"; "raw"; "c_d"; "issues.json"] := Some (JObj [("message", JStr "Not Found")]);
     ["export"; "raw"; "c_d"; "prs.json"] := Some (JArr []);
     ["export"; "raw"; "o_r"; "issues.json"] := Some (JArr []);
     ["export"; "raw"; "o_r"; "prs.json"] := Some (JArr []) ]}.



(** A system in which every rename and every write goes through and no path is
    refused *)
Definition plain_clean_env : CleanEnv :=
  MkCleanEnv (fun _ _ => true) (fun _ _ => WriteOk) (fun _ => false) (fun _ => 0)
             (fun _ _ => 0) (fun _ => []).

(** The export above with a repository [o/notes.md], whose slug names a directory
    like a Markdown file *)
Definition md_directory_export : gmap (list string) (list byte) :=
  {[ ["export"; "o_notes.md"; "issues"; "ISSUE-1.md"] := encode "# Issue #1: none" ]}.

(** The time stamps of three instants, standing for [datetime.fromisoformat] and
    [timestamp] on these strings; every other string is refused. *)
Definition sample_clock (s : string) : option Q :=
  if bool_decide (s = "2024-01-01T00:00:00+00:00") then Some (1704067200 # 1)
  else if bool_decide (s = "2024-01-01T00:00:00.500000+00:00") then Some (3408134401 # 2)
  else if bool_decide (s = "2024-01-02T00:00:00+00:00") then Some (1704153600 # 1)
  else None.

Definition comment_at (when_ body : string) : list (string * json) :=
  [("body", JStr body); ("created_at", JStr when_)].

Definition sample_comments : list (list (string * json)) :=
  [ comment_at "2024-01-02T00:00:00Z" "third";
    [("body", JStr "no date")];
    comment_at "2024-01-01T00:00:00Z" "first";
    comment_at "yesterday" "bad date";
    [("body", JStr "camel"); ("createdAt", JStr "2024-01-01T00:00:00.500000+00:00")];
    comment_at "2024-01-01T00:00:00+00:00" "first again" ].

(** Raw files where [issues.json] of [o/r] is there but is no JSON text *)
Definition broken_raw : gmap (list string) (option json) :=
  {[ ["export"; "raw"; "o_r"; "issues.json"] := None;
     ["export"; "raw"; "o_r"; "prs.json"] := Some (JArr []);
     ["export"; "raw"; "a_b"; "issues.json"] := Some (JArr []);
     ["export"; "raw"; "a_b"; "prs.json"] := Some (JArr []) ]}.

(* ===================================================================== *)
(** * Predicates on downloads and on the layout of an export             *)
(* ===================================================================== *)

(** The requests [download_image] may make for [url]: one of the candidate URLs with
    [urlopen], the endpoint of the URL with the [gh] client, for a user attachment
    only, and the warning that ends a failed download of any other URL. *)
Definition request_for (url : string) (e : event) : Prop :=
  match e with
  | EvUrlopen candidate => candidate ∈ _candidate_urls url
  | EvGhApi endpoint => _is_user_attachment url = true /\ endpoint = gh_endpoint url
  | EvWarn u => u = url /\ _is_user_attachment url = false
  | EvDownload _ _ | EvSniff _ | EvRename _ _ => False
  end.

(** The layout [write_issue_md] and [write_pr_md] give a tracker: the Markdown files
    of a kind ([issues] or [prs]) lie in [out_repo/kind], the images of number [num]
    in [out_repo/assets/kind/num]. *)
Definition export_layout {M : Type} (t : ImageTracker M) (out_repo : path) (kind num : string)
    : Prop :=
  assets_dir t = out_repo ++ ["assets"; kind; num]
  /\ md_dir t = out_repo ++ [kind]
  /\ kind <> "assets".

(** The link to the file [name] of such a tracker, as seen from its Markdown file *)
Definition asset_link (kind num name : string) : string :=
  "../assets/" +:+ kind +:+ "/" +:+ num +:+ "/" +:+ name.

(** Every cached link carries a number no larger than the counter, and no link is
    cached for two URLs. *)
Definition links_numbered {M : Type} (t : ImageTracker M) (kind num : string) : Prop :=
  (forall u rel, url_to_rel t !! u = Some rel ->
     exists k rest, 1 <= k <= counter t
                    /\ rel = asset_link kind num (Py.format_03d k +:+ "_" +:+ rest))
  /\ (forall u v rel, url_to_rel t !! u = Some rel -> url_to_rel t !! v = Some rel -> u = v).


(** The closing keyword of the match [m] counts for the repository [owner/repo]: it
    names no repository, or it names this one, letter case apart. *)
Definition names_repo (owner repo : string) (m : Re.rmatch) : bool :=
  negb (group_truthy (Re.group m "owner") && group_truthy (Re.group m "repo")
        && (negb (bool_decide (group_lower (Re.group m "owner") = Py.lower owner))
            || negb (bool_decide (group_lower (Re.group m "repo") = Py.lower repo)))).

(** The tracker and the heap after the calls of [get_local] for the URLs [us] *)
Definition resolved {M : Type} (env : Env) (st : ImageTracker M * Heap M) (us : list string)
    : ImageTracker M * Heap M :=
  ((get_locals env st.1 us st.2).1.2, (get_locals env st.1 us st.2).2).

(** The URLs of a text that [replace_images] hands to the tracker, in order *)
Definition body_urls (env : Env) (text : string) : list string :=
  rewritten_urls (img_segments env text).

Definition value_urls (env : Env) (v : json) : list string :=
  match v with
  | JStr text => body_urls env text
  | _ => []
  end.

Definition comment_urls (env : Env) (c : list (string * json)) : list string :=
  value_urls env (or_empty (dict_get c "body")).

(** The URLs of a document: those of the body, then those of the comments in the
    order in which they are written *)
Definition document_urls (env : Env) (iso_timestamp : string -> option Q)
    (item : list (string * json)) (comments : list json) : list string :=
  (value_urls env (default JNull (dict_item item "body"))
   ++ match mapM as_dict comments with
      | Some cs => concat (comment_urls env <$> sort_comments iso_timestamp cs)
      | None => []
      end)%list.

(** No slash of the text follows a dot; [prev] is the character before the text. *)
Fixpoint no_dot_slash (prev : ascii) (s : string) : bool :=
  match s with
  | EmptyString => true
  | String c r =>
      negb (bool_decide (c = "/"%char) && bool_decide (prev = "."%char)) && no_dot_slash c r
  end.

(** The row that the callback of [make_missing_cb repo kind num] records for a URL
    on the tracker [t]: the fields of the document, and as local path the path
    planned for the [k]-th download, without its [../] *)
Definition row_of {M : Type} (t : ImageTracker M) (repo kind : string) (num : Z)
    (r : missing_row) : Prop :=
  row_repo r = repo
  /\ row_repo_slug r = slugify_repo repo
  /\ row_kind r = kind
  /\ row_number r = str_of_Z num
  /\ row_md_path r = kind +:+ "s/" +:+ Py.upper kind +:+ "-" +:+ str_of_Z num +:+ ".md"
  /\ exists k, 1 <= k
       /\ row_local_path r
          = Py.replace (relpath (assets_dir t ++ [filename_from_url (row_url r) k]) (md_dir t))
                       "../" EmptyString.
(* ===================================================================== *)
(** * A sample issue                                                     *)
(* ===================================================================== *)

(** Issue 5 of [o/r], whose body and second comment show the same image *)
Definition sample_issue : list (string * json) :=
  [ ("number", JNum 5); ("title", JStr "Crash on start");
    ("url", JStr "https://github.com/o/r/issues/5"); ("state", JStr "OPEN");
    ("created_at", JStr "2024-01-01T00:00:00Z"); ("updated_at", JStr "2024-01-02T00:00:00Z");
    ("body", JStr "see ![shot](https://h/a.png) and ![log](https://h/log.txt)") ].

Definition sample_issue_comments : list json :=
  [ JObj [("user", JObj [("login", JStr "bob")]); ("created_at", JStr "2024-01-02T00:00:00Z");
          ("body", JStr "same here <img src='https://h/a.png'>")];
    JObj [("author", JObj [("login", JStr "alice")]);
          ("created_at", JStr "2024-01-01T00:00:00Z"); ("body", JStr "")] ].

(** A comment whose author is given as a plain string *)
Definition string_author_comment : list (string * json) :=
  [("author", JStr "bob"); ("body", JStr "hello")].

Definition sample_repr (v : json) : string := "<object>".
Definition always_written (n : nat) (p : list string) (content : list byte) : write_result :=
  WriteOk.



(* ===================================================================== *)
(** * A sample list of missing attachments                               *)
(* ===================================================================== *)

Definition empty_missing_heap : Heap (list missing_row) :=
  MkHeap ImageStats_init (MkWorld ∅ []) [].

(** The sample issue written with the callback of [process_repo]; the network of
    [sample_env] serves the picture and fails for the log. *)
Definition sample_missing_heap : Heap (list missing_row) :=
  match write_md sample_clock sample_repr always_written "ISSUE" "Issue" "## Related PRs"
          sample_env sample_issue sample_issue_comments ["export"; "o_r"; "issues"]
          ["export"; "o_r"; "assets"; "issues"] "_None_" None
          (Some (make_missing_cb "o/r" "issue" 5)) empty_missing_heap with
  | Some (_, h) => h
  | None => empty_missing_heap
  end.

(** The tracker of that document and the row of its log *)
Definition sample_missing_tracker : ImageTracker (list missing_row) :=
  ImageTracker_init ["export"; "o_r"; "assets"; "issues"; "5"] ["export"; "o_r"; "issues"]
    None (Some (make_missing_cb "o/r" "issue" 5)).

Definition sample_row : missing_row :=
  MkRow "o/r" "o_r" "issue" "5" "https://h/log.txt" "assets/issues/5/002_log.txt"
        "issues/ISSUE-5.md".

(** A browser session that gets a body for the log and writes it *)
Definition sample_browser : Browser :=
  MkBrowser true true
    (fun _ url => if Py.endswith url ".txt" then ReplyBody [x68; x69] else ReplyNotOk)
    (fun _ _ => true) (fun _ _ _ => WriteOk) true.
(* ===================================================================== *)
(*                 PART II - LEMMAS AND THEOREMS                         *)
(* ===================================================================== *)

(* ===================================================================== *)
(** * The sniffer                                                        *)
(* ===================================================================== *)

Section sniffer.
Implicit Types data pfx : list byte.

Lemma bytes_startswith_prefix data pfx :
  bytes_startswith data pfx = true <-> pfx `prefix_of` data.
Proof.
  unfold bytes_startswith. rewrite bool_decide_eq_true. split.
  - intros H. exists (drop (length pfx) data). rewrite <- H at 1. symmetry. apply take_drop.
  - intros [k ->]. by rewrite take_app_length.
Qed.

Lemma bytes_startswith_take n data pfx :
  length pfx <= n -> bytes_startswith (take n data) pfx = bytes_startswith data pfx.
Proof.
  intros H. unfold bytes_startswith. by rewrite take_take, Nat.min_l.
Qed.

Lemma slice_take n i j data :
  i <= j -> j <= n -> slice i j (take n data) = slice i j data.
Proof.
  intros Hij H. unfold slice. rewrite !take_drop_commute, take_take.
  do 2 f_equal. lia.
Qed.

Lemma slice_length_full i j data : i < j -> length (slice i j data) = j - i -> j <= length data.
Proof.
  unfold slice. rewrite length_take, length_drop. lia.
Qed.

Lemma sniff_take12 data : sniff (take 12 data) = sniff data.
Proof.
  unfold sniff.
  rewrite !bytes_startswith_take by (simpl; lia).
  rewrite !slice_take by lia.
  destruct (bytes_startswith data PNG_SIG); [done|].
  destruct (bytes_startswith data JPEG_SIG); [done|].
  destruct (bytes_startswith data GIF87a || bytes_startswith data GIF89a); [done|].
  destruct (bool_decide (slice 0 4 data = RIFF)) eqn:E1;
    destruct (bool_decide (slice 8 12 data = WEBP)) eqn:E2;
    rewrite ?andb_false_r; try done.
  apply bool_decide_eq_true in E2.
  assert (12 <= length data) as Hl.
  { apply (slice_length_full 8 12); [lia|]. by rewrite E2. }
  assert (12 <= length (take 12 data)) by (rewrite length_take; lia).
  by rewrite !bool_decide_true.
Qed.

Lemma sniff_png data : sniff data = Some ".png" <-> PNG_SIG `prefix_of` data.
Proof.
  rewrite <- bytes_startswith_prefix. unfold sniff.
  repeat (case_match; try done).
Qed.

Lemma prefix_head_ne (a b : byte) (l1 l2 data : list byte) :
  a <> b -> (a :: l1) `prefix_of` data -> (b :: l2) `prefix_of` data -> False.
Proof. intros Hne [k1 ->] [k2 Hk]. simplify_eq/=. Qed.

Ltac sig_clash H1 H2 :=
  exfalso; unfold PNG_SIG, JPEG_SIG, GIF87a, GIF89a, RIFF in *;
  eapply prefix_head_ne; [ | exact H1 | exact H2 ]; done.

Lemma sniff_jpg data : sniff data = Some ".jpg" <-> JPEG_SIG `prefix_of` data.
Proof.
  unfold sniff. split.
  - repeat (case_match; try done). intros _. by apply bytes_startswith_prefix.
  - intros Hj. destruct (bytes_startswith data PNG_SIG) eqn:E.
    + apply bytes_startswith_prefix in E. sig_clash Hj E.
    + apply bytes_startswith_prefix in Hj. by rewrite Hj.
Qed.

Lemma sniff_gif data :
  sniff data = Some ".gif" <-> GIF87a `prefix_of` data \/ GIF89a `prefix_of` data.
Proof.
  rewrite <- !bytes_startswith_prefix. unfold sniff. split.
  - repeat (case_match; try done). intros _. by apply orb_true_iff.
  - intros Hg.
    assert (x47 :: [x49; x46] `prefix_of` data) as Hg'.
    { destruct Hg as [Hg|Hg]; apply bytes_startswith_prefix in Hg;
        destruct Hg as [k ->]; eexists; reflexivity. }
    destruct (bytes_startswith data PNG_SIG) eqn:E1.
    { apply bytes_startswith_prefix in E1. sig_clash Hg' E1. }
    destruct (bytes_startswith data JPEG_SIG) eqn:E2.
    { apply bytes_startswith_prefix in E2. sig_clash Hg' E2. }
    apply orb_true_iff in Hg. by rewrite Hg.
Qed.

Lemma slice_0_prefix n data pfx :
  length pfx = n -> slice 0 n data = pfx -> pfx `prefix_of` data.
Proof.
  intros Hn H. apply bytes_startswith_prefix. unfold bytes_startswith.
  apply bool_decide_eq_true. unfold slice in H. by rewrite Nat.sub_0_r, drop_0, <- Hn in H.
Qed.

Lemma sniff_webp data :
  sniff data = Some ".webp" <-> slice 0 4 data = RIFF /\ slice 8 12 data = WEBP.
Proof.
  unfold sniff. split.
  - destruct (bytes_startswith data PNG_SIG); [done|].
    destruct (bytes_startswith data JPEG_SIG); [done|].
    destruct (bytes_startswith data GIF87a || bytes_startswith data GIF89a); [done|].
    destruct (bool_decide (slice 0 4 data = RIFF)) eqn:H1;
      destruct (bool_decide (slice 8 12 data = WEBP)) eqn:H2;
      rewrite ?andb_false_r; try done.
    intros _. split; by eapply bool_decide_eq_true.
  - intros [Hr Hw].
    pose proof (slice_0_prefix 4 data RIFF eq_refl Hr) as Hp.
    destruct (bytes_startswith data PNG_SIG) eqn:E1.
    { apply bytes_startswith_prefix in E1. sig_clash Hp E1. }
    destruct (bytes_startswith data JPEG_SIG) eqn:E2.
    { apply bytes_startswith_prefix in E2. sig_clash Hp E2. }
    destruct (bytes_startswith data GIF87a) eqn:E3.
    { apply bytes_startswith_prefix in E3. sig_clash Hp E3. }
    destruct (bytes_startswith data GIF89a) eqn:E4.
    { apply bytes_startswith_prefix in E4. sig_clash Hp E4. }
    simpl.
    assert (12 <= length data).
    { apply (slice_length_full 8 12); [lia|]. by rewrite Hw. }
    by rewrite !bool_decide_true.
Qed.

Lemma sniff_cases data :
  sniff data = Some ".png" \/ sniff data = Some ".jpg" \/ sniff data = Some ".gif"
  \/ sniff data = Some ".webp" \/ sniff data = None.
Proof. unfold sniff. repeat case_match; auto. Qed.

(** C5. The sniffer answers PNG exactly on the 8-byte signature 89 50 4E 47 0D 0A 1A 0A,
    JPEG exactly on FF D8 FF, GIF exactly on GIF87a or GIF89a, WEBP exactly on RIFF at
    bytes 0-3 with WEBP at bytes 8-11, and unknown ([None]) on every other content,
    truncated and empty ones included; the answer depends on the first twelve bytes of
    the file only, and both scripts compute the same function. *)
Theorem sniffer_magic_bytes (fs : gmap (list string) (list byte)) (p : list string)
    (data : list byte) :
  let kind := detect_ext_from_file (<[p := data]> fs) p in
  (kind = Some ".png" <-> PNG_SIG `prefix_of` data) /\
  (kind = Some ".jpg" <-> JPEG_SIG `prefix_of` data) /\
  (kind = Some ".gif" <-> GIF87a `prefix_of` data \/ GIF89a `prefix_of` data) /\
  (kind = Some ".webp" <-> slice 0 4 data = RIFF /\ slice 8 12 data = WEBP) /\
  (kind = None <->
     ~ (PNG_SIG `prefix_of` data \/ JPEG_SIG `prefix_of` data \/ GIF87a `prefix_of` data
        \/ GIF89a `prefix_of` data \/ (slice 0 4 data = RIFF /\ slice 8 12 data = WEBP))) /\
  kind = detect_ext_from_file (<[p := take 12 data]> fs) p /\
  detect_ext (<[p := data]> fs) p = kind /\
  detect_ext_from_file (delete p fs) p = None /\
  detect_ext_from_file (<[p := []]> fs) p = None.
Proof.
  unfold detect_ext_from_file, detect_ext, read_bytes.
  rewrite !lookup_insert_eq, lookup_delete_eq. cbn zeta.
  rewrite take_take, Nat.min_id, sniff_take12.
  pose proof (sniff_png data) as Hpng. pose proof (sniff_jpg data) as Hjpg.
  pose proof (sniff_gif data) as Hgif. pose proof (sniff_webp data) as Hwebp.
  repeat split; try tauto.
  - intros HN [H|[H|[H|[H|H]]]];
      [apply Hpng in H | apply Hjpg in H | | | apply Hwebp in H]; try congruence.
    + assert (sniff data = Some ".gif") by tauto. congruence.
    + assert (sniff data = Some ".gif") by tauto. congruence.
  - intros Hnone. destruct (sniff_cases data) as [H|[H|[H|[H|H]]]]; try done; exfalso; tauto.
Qed.

End sniffer.
(* ===================================================================== *)
(** * Strings                                                            *)
(* ===================================================================== *)

Section strings.
Implicit Types s t : string.

Lemma app_nil_l s : EmptyString +:+ s = s.
Proof. reflexivity. Qed.

Lemma app_cons c s t : String c s +:+ t = String c (s +:+ t).
Proof. reflexivity. Qed.

Ltac sapp := simpl; rewrite ?app_cons, ?app_nil_l; simpl.

Lemma app_empty_r s : s +:+ EmptyString = s.
Proof. induction s; sapp; congruence. Qed.

Lemma app_assoc' s t u : (s +:+ t) +:+ u = s +:+ (t +:+ u).
Proof. induction s; sapp; congruence. Qed.

Lemma len_app s t : Py.len (s +:+ t) = Py.len s + Py.len t.
Proof. unfold Py.len. induction s; sapp; congruence. Qed.

Lemma take_drop_str n s : Py.take n s +:+ Py.drop n s = s.
Proof. revert s. induction n; intros [|c s]; sapp; try done. by rewrite IHn. Qed.


Lemma len_drop n s : Py.len (Py.drop n s) = Py.len s - n.
Proof. unfold Py.len. revert s. induction n; intros [|c s]; simpl; try done. Qed.

Lemma chars_app s t : Py.chars (s +:+ t) = Py.chars s ++ Py.chars t.
Proof. unfold Py.chars. induction s; sapp; congruence. Qed.

Lemma len_chars s : length (Py.chars s) = Py.len s.
Proof. unfold Py.chars, Py.len. induction s; simpl; congruence. Qed.

Lemma Forall_chars_take (P : ascii -> Prop) n s :
  Forall P (Py.chars s) -> Forall P (Py.chars (Py.take n s)).
Proof.
  revert s. induction n; intros [|c s]; simpl; try constructor.
  - by inversion H.
  - apply IHn. by inversion H.
Qed.

Lemma Forall_chars_drop (P : ascii -> Prop) n s :
  Forall P (Py.chars s) -> Forall P (Py.chars (Py.drop n s)).
Proof.
  revert s. induction n; intros [|c s]; simpl; try done.
  intros H. apply IHn. by inversion H.
Qed.

Lemma Forall_chars_lstrip (P : ascii -> Prop) p s :
  Forall P (Py.chars s) -> Forall P (Py.chars (Py.lstrip p s)).
Proof.
  induction s as [|c s IH]; simpl; [done|]. intros H.
  destruct (p c); [apply IH; by inversion H | done].
Qed.

Lemma Forall_chars_rstrip (P : ascii -> Prop) p s :
  Forall P (Py.chars s) -> Forall P (Py.chars (Py.rstrip p s)).
Proof.
  induction s as [|c s IH]; simpl; [done|]. intros H. inversion H as [|? ? Hc Hs]; subst.
  specialize (IH Hs). destruct (Py.rstrip p s).
  - destruct (p c); simpl; by constructor.
  - simpl. by constructor.
Qed.

Lemma Forall_chars_strip (P : ascii -> Prop) p s :
  Forall P (Py.chars s) -> Forall P (Py.chars (Py.strip p s)).
Proof. intros. by apply Forall_chars_rstrip, Forall_chars_lstrip. Qed.

Lemma take_nonempty n s : s <> EmptyString -> Py.take (S n) s <> EmptyString.
Proof. by destruct s. Qed.

Lemma startswith_app s t : Py.startswith (s +:+ t) s = true.
Proof.
  induction s as [|c s IH]; [done|]. rewrite app_cons. simpl.
  by rewrite bool_decide_true.
Qed.

Lemma startswith_spec s pfx : Py.startswith s pfx = true <-> exists t, s = pfx +:+ t.
Proof.
  split.
  - revert s. induction pfx as [|a p IH]; intros s H; simpl in *; [by exists s|].
    destruct s as [|b s]; [done|]. apply andb_true_iff in H as [Hab H].
    apply bool_decide_eq_true in Hab as ->. destruct (IH _ H) as [t ->]. by exists t.
  - intros [t ->]. apply startswith_app.
Qed.



Lemma len_lower s : Py.len (Py.lower s) = Py.len s.
Proof. unfold Py.len. induction s; simpl; congruence. Qed.

Lemma lower_empty s : Py.lower s = EmptyString <-> s = EmptyString.
Proof. by destruct s. Qed.

Lemma lower_head s c r : s = String c r -> Py.lower s = String (Py.lower_char c) (Py.lower r).
Proof. by intros ->. Qed.

Lemma rfind_char_drop c s i :
  Py.rfind_char c s = Some i -> exists r, Py.drop i s = String c r.
Proof.
  revert i. induction s as [|a s IH]; intros i; simpl; [done|].
  destruct (Py.rfind_char c s) as [j|].
  - intros [= <-]. destruct (IH j eq_refl) as [r Hr]. by exists r.
  - case_bool_decide; [|done]. intros [= <-]. subst. by eexists.
Qed.

End strings.

(* ===================================================================== *)
(** * Decimal numerals                                                   *)
(* ===================================================================== *)

Section numerals.

Lemma zeros_len k : Py.len (Py.zeros k) = k.
Proof. unfold Py.len. induction k; simpl; congruence. Qed.

Lemma zeros_digits k : Forall (fun c => Py.is_digit c = true) (Py.chars (Py.zeros k)).
Proof. induction k; simpl; constructor; auto. Qed.

Lemma int_go_zeros k s : Py.int_go 0 (Py.zeros k +:+ s) = Py.int_go 0 s.
Proof. induction k; simpl; rewrite ?app_cons, ?app_nil_l; simpl; auto. Qed.

Lemma uint_digits d :
  Forall (fun c => Py.is_digit c = true) (Py.chars (NilEmpty.string_of_uint d)).
Proof. induction d; simpl; constructor; auto. Qed.

Lemma int_go_uint d acc :
  Py.int_go (N.of_nat acc) (NilEmpty.string_of_uint d) = N.of_nat (Nat.of_uint_acc d acc).
Proof.
  revert acc. induction d; intros acc; simpl; [done|..];
    rewrite <- IHd; f_equal; rewrite Nat.tail_mul_spec;
    unfold Py.code; simpl nat_of_ascii; lia.
Qed.

Lemma int_str_of_nat n : Py.value (Py.str_of_nat n) = N.of_nat n.
Proof.
  unfold Py.value, Py.str_of_nat. change 0%N with (N.of_nat 0).
  rewrite int_go_uint. f_equal. apply DecimalNat.Unsigned.of_to.
Qed.

Lemma format_03d_int n : Py.value (Py.format_03d n) = N.of_nat n.
Proof.
  unfold Py.format_03d, Py.value. rewrite int_go_zeros. apply int_str_of_nat.
Qed.

Lemma format_03d_digits n :
  Forall (fun c => Py.is_digit c = true) (Py.chars (Py.format_03d n)).
Proof.
  unfold Py.format_03d. rewrite chars_app. apply Forall_app. split.
  - apply zeros_digits.
  - apply uint_digits.
Qed.

Lemma format_03d_len n : 3 <= Py.len (Py.format_03d n).
Proof. unfold Py.format_03d. rewrite len_app, zeros_len. lia. Qed.


End numerals.
(* ===================================================================== *)
(** * The scan of a pattern                                              *)
(* ===================================================================== *)

Section scan.
Implicit Types (pat : Re.pattern) (s lit : string) (segs : list Re.segment).

Lemma text_of_cons sg segs : Re.text_of (sg :: segs) = Re.seg_text sg +:+ Re.text_of segs.
Proof. reflexivity. Qed.

Lemma flush_text lit segs : Re.text_of (Re.flush lit segs) = lit +:+ Re.text_of segs.
Proof. by destruct lit. Qed.

(** The pieces of a scan, put together again, are the text scanned. *)
Lemma scan_text pat before s skip lit :
  Re.text_of (Re.scan pat before s skip lit) = lit +:+ Py.drop skip s.
Proof.
  revert before skip lit. induction s as [|c r IH]; intros before skip lit.
  - simpl. rewrite flush_text. by destruct skip.
  - destruct skip as [|n]; [|apply IH].
    cbn [Re.scan]. destruct (Re.match_here pat before (String c r)) as [[[|n] gs]|].
    + rewrite IH. simpl. by rewrite app_assoc'.
    + rewrite flush_text, text_of_cons, IH. cbn [Re.seg_text Re.group0].
      rewrite app_nil_l. f_equal. exact (take_drop_str (S n) (String c r)).
    + rewrite IH. simpl. by rewrite app_assoc'.
Qed.

Lemma segments_text pat text : Re.text_of (Re.segments pat text) = text.
Proof. unfold Re.segments. by rewrite scan_text. Qed.

(** So are the pieces of a text cut at given places. *)
Lemma cut_text s (ms : list (nat * nat * list (string * string))) :
  Re.text_of (Re.cut s ms) = s.
Proof.
  revert s. induction ms as [|[[gap n] gs] ms IH]; intros s; cbn [Re.cut].
  - by rewrite flush_text, app_empty_r.
  - rewrite flush_text, text_of_cons, IH. cbn [Re.seg_text Re.group0].
    by rewrite !take_drop_str.
Qed.

(** What [sub] returns is the text of the pieces after replacement. *)
Lemma sub_segs_app {S : Type} (repl : Re.rmatch -> S -> string * S) segs1 segs2 (st : S) :
  Re.sub_segs repl (segs1 ++ segs2) st =
    let '(out1, st1) := Re.sub_segs repl segs1 st in
    let '(out2, st2) := Re.sub_segs repl segs2 st1 in
    (out1 +:+ out2, st2).
Proof.
  revert st. induction segs1 as [|[t|m] segs1 IH]; intros st; simpl.
  - by destruct (Re.sub_segs repl segs2 st).
  - rewrite IH. destruct (Re.sub_segs repl segs1 st) as [o1 s1].
    destruct (Re.sub_segs repl segs2 s1). by rewrite app_assoc'.
  - destruct (repl m st) as [x s1]. rewrite IH.
    destruct (Re.sub_segs repl segs1 s1) as [o1 s2].
    destruct (Re.sub_segs repl segs2 s2). by rewrite app_assoc'.
Qed.

End scan.

(* ===================================================================== *)
(** * A repeated character class                                         *)
(* ===================================================================== *)

Section char_runs.
Context {A : Type}.

(** A greedy run of one class under a continuation that always accepts stops
    somewhere in the text and accepts there. *)
Lemma star_chr_total (ic : bool) (q : ascii -> bool) (f : Re.mstate -> A) n st :
  exists st', Re.star_loop true (Re.run ic (Re.Chr q)) (fun x => Some (f x)) n st = Some (f st')
    /\ Py.len (Re.rest st') <= Py.len (Re.rest st) /\ Re.env st' = Re.env st.
Proof.
  revert st. induction n as [|n IH]; intros st; simpl.
  - by exists st.
  - destruct (Re.rest st) as [|c r] eqn:Hrest.
    + exists st. by rewrite Hrest.
    + destruct (q c); [|exists st; by rewrite Hrest].
      cbn [Re.rest]. replace (Nat.ltb (Py.len r) (Py.len (String c r))) with true
        by (symmetry; apply Nat.ltb_lt; unfold Py.len; simpl; lia).
      destruct (IH (Re.MState (Some c) r (Re.env st))) as (st' & Heq & Hlen & Henv).
      simpl in Heq. rewrite Heq.
      exists st'. split; [done|]. simpl in *. unfold Py.len in *. simpl. split; [lia|done].
Qed.

End char_runs.
(* ===================================================================== *)
(** * File names synthesised from URLs                                   *)
(* ===================================================================== *)

Section filenames.

Lemma match_here_unsafe_run before c r :
  if is_safe c then Re.match_here UNSAFE_RUN before (String c r) = None
  else exists n, Re.match_here UNSAFE_RUN before (String c r) = Some (S n, []).
Proof.
  unfold Re.match_here, UNSAFE_RUN, Re.plus, Re.none_of. cbn [Re.icase Re.expr].
  cbn [Re.run Re.rest Re.env]. destruct (is_safe c); [done|]. cbn [negb].
  set (f := fun st' : Re.mstate =>
              (Py.len (String c r) - Py.len (Re.rest st'), Re.env st')).
  destruct (star_chr_total false (fun x => negb (is_safe x)) f (S (Py.len r))
              (Re.MState (Some c) r [])) as (st' & Heq & Hlen & Henv).
  cbn [Re.rest Re.env] in *. exists (Py.len r - Py.len (Re.rest st')).
  etrans; [exact Heq|]. unfold f. rewrite Henv. do 2 f_equal.
  unfold Py.len in *. simpl. lia.
Qed.

Lemma flush_lit_safe lit segs :
  safe_chars lit -> Forall lit_safe segs -> Forall lit_safe (Re.flush lit segs).
Proof. destruct lit; [done|]. intros. by constructor. Qed.

(** Every unsafe character lies inside a match of the pattern. *)
Lemma scan_unsafe_lits s before skip lit :
  safe_chars lit -> Forall lit_safe (Re.scan UNSAFE_RUN before s skip lit).
Proof.
  revert before skip lit. induction s as [|c r IH]; intros before skip lit Hlit.
  - simpl. by apply flush_lit_safe.
  - destruct skip as [|n]; [|by apply IH].
    cbn [Re.scan]. pose proof (match_here_unsafe_run before c r) as Hm.
    destruct (is_safe c) eqn:Hc.
    + rewrite Hm. apply IH. unfold safe_chars. rewrite chars_app.
      apply Forall_app. split; [exact Hlit|]. unfold Py.chars. simpl. by repeat constructor.
    + destruct Hm as [n ->]. apply flush_lit_safe; [done|].
      constructor; [exact I|]. apply IH. constructor.
Qed.

Lemma sub_const_safe segs :
  Forall lit_safe segs ->
  safe_chars (Re.sub_segs (fun _ (_ : unit) => ("_", tt)) segs tt).1.
Proof.
  induction segs as [|[t|m] segs IH]; intros H; simpl.
  - constructor.
  - inversion H; subst. destruct (Re.sub_segs _ segs tt) as [out u]. simpl in *.
    unfold safe_chars. rewrite chars_app. apply Forall_app. split; [assumption|by apply IH].
  - inversion H; subst. destruct (Re.sub_segs _ segs tt) as [out u]. simpl in *.
    unfold safe_chars. rewrite app_cons, app_nil_l. constructor; [done|by apply IH].
Qed.

Lemma sanitize_name_safe name : safe_chars (sanitize_name name).
Proof.
  unfold sanitize_name.
  assert (safe_chars (Py.strip (is_char "_") (Re.sub_const UNSAFE_RUN "_" name))) as H.
  { apply Forall_chars_strip. unfold Re.sub_const, Re.sub, Re.segments.
    apply sub_const_safe, scan_unsafe_lits. constructor. }
  destruct (Py.strip _ _); [|done]. repeat constructor.
Qed.

Lemma sanitize_name_nonempty name : sanitize_name name <> EmptyString.
Proof. unfold sanitize_name. by destruct (Py.strip _ _). Qed.

(** [splitext] cuts the name in two, and the extension is empty or starts with a dot. *)
Lemma splitext_parts p : (splitext p).1 +:+ (splitext p).2 = p.
Proof.
  unfold splitext. destruct (Py.rfind_char "." p); [|apply app_empty_r].
  case_match; simpl; [apply take_drop_str|apply app_empty_r].
Qed.


Lemma filename_from_url_eq url i :
  let base := basename (upath (urlsplit url)) in
  let base' := match base with EmptyString => "image" | _ => base end in
  let ext0 := (splitext base').2 in
  filename_from_url url i =
    Py.format_03d i +:+ "_" +:+ Py.take 40 (sanitize_name (splitext base').1)
    +:+ (if bool_decide (ext0 = EmptyString) || Nat.ltb 10 (Py.len ext0)
         then ".img" else Py.lower ext0).
Proof.
  intros base base' ext0. unfold filename_from_url. fold base. fold base'.
  subst ext0. destruct (splitext base') as [name ext]. cbn [fst snd].
  rewrite len_lower.
  replace (bool_decide (Py.lower ext = EmptyString)) with (bool_decide (ext = EmptyString));
    [done|].
  apply bool_decide_ext. symmetry. apply lower_empty.
Qed.




End filenames.
(* ===================================================================== *)
(** * Download attempts                                                  *)
(* ===================================================================== *)

Section attempts.
Implicit Types (w : World) (u url : string) (evs : list event).

Lemma attempts_for_app u evs1 evs2 :
  attempts_for u (evs1 ++ evs2) = attempts_for u evs1 + attempts_for u evs2.
Proof. unfold attempts_for. by rewrite List.filter_app, length_app. Qed.

Lemma try_candidates_attempts env p tok cands w u :
  attempts_for u (trace (try_candidates env p tok cands w).2) = attempts_for u (trace w).
Proof.
  revert w. induction cands as [|c cands IH]; intros w; simpl; [done|].
  destruct (urlopen env (now w) c tok); simpl.
  - rewrite IH. simpl. rewrite attempts_for_app. unfold attempts_for. simpl. lia.
  - rewrite attempts_for_app. unfold attempts_for. simpl. lia.
Qed.

Lemma download_with_gh_attempts env url p w u :
  attempts_for u (trace (_download_with_gh env url p w).2) = attempts_for u (trace w).
Proof.
  unfold _download_with_gh. destruct (gh_api env (now w) (gh_endpoint url)); simpl;
    rewrite attempts_for_app; unfold attempts_for; simpl; lia.
Qed.

(** A call of [download_image] is one attempt for its URL and none for any other. *)
Lemma download_image_attempts env url p tok w u :
  attempts_for u (trace (download_image env url p tok w).2)
  = attempts_for u (trace w) + (if bool_decide (u = url) then 1 else 0).
Proof.
  assert (attempts_for u (trace (log (EvDownload url p) w))
          = attempts_for u (trace w) + (if bool_decide (u = url) then 1 else 0)) as Hlog.
  { simpl. rewrite attempts_for_app. f_equal. unfold attempts_for. simpl.
    rewrite (bool_decide_ext (url = u) (u = url)) by done. by case_bool_decide. }
  unfold download_image. cbn zeta.
  destruct (path_exists _ p); [done|].
  pose proof (try_candidates_attempts env p tok (_candidate_urls url)
                (log (EvDownload url p) w) u) as Htry.
  destruct (try_candidates _ _ _ _ _) as [ok w1]. cbn [snd] in Htry.
  destruct ok; [cbn [snd]; by rewrite Htry|].
  destruct (_is_user_attachment url).
  - pose proof (download_with_gh_attempts env url p w1 u) as Hgh.
    destruct (_download_with_gh env url p w1) as [ok w2]. cbn [snd] in *.
    by rewrite Hgh, Htry.
  - cbn [snd log trace]. rewrite attempts_for_app, Htry, Hlog.
    unfold attempts_for. simpl. lia.
Qed.

Lemma repair_ext_attempts env p w u :
  attempts_for u (trace (repair_ext env p w).2) = attempts_for u (trace w).
Proof.
  unfold repair_ext. case_bool_decide; [|done].
  destruct (detect_ext_from_file (files w) p); simpl.
  - destruct (rename_ok _ _ _ _); simpl; rewrite ?attempts_for_app;
      unfold attempts_for; simpl; lia.
  - rewrite attempts_for_app. unfold attempts_for. simpl. lia.
Qed.

End attempts.

(* ===================================================================== *)
(** * The image tracker                                                  *)
(* ===================================================================== *)

Section tracker_facts.
Context {M : Type}.
Implicit Types (t : ImageTracker M) (h : Heap M) (u url rel : string).

(** A cache hit: the stored path, and nothing else happens. *)
Lemma get_local_hit env t url rel h :
  url_to_rel t !! url = Some rel -> get_local env t url h = (Some rel, t, h).
Proof. intros H. unfold get_local. by rewrite H. Qed.

(** A first call for a URL that [urlsplit] rejects: the two increments, and the
    exception. *)
Lemma get_local_rejected env t url h :
  url_to_rel t !! url = None -> accepted env url = false ->
  get_local env t url h = (None, counted t, attempt_counted h).
Proof.
  intros Hmiss Hrej. unfold get_local. rewrite Hmiss.
  unfold accepted in Hrej. apply negb_false_iff in Hrej. by rewrite Hrej.
Qed.

(** A cache miss for a URL that [urlsplit] accepts, in full. *)
Lemma get_local_miss env t url h :
  url_to_rel t !! url = None -> accepted env url = true ->
  exists rel w' st' m',
    get_local env t url h
    = (Some rel,
       MkTracker (assets_dir t) (md_dir t) (token t) (missing_cb t) (S (counter t))
         (<[url := rel]> (url_to_rel t)),
       MkHeap st' w' m')
    /\ (forall u, attempts_for u (trace w')
                  = attempts_for u (trace (world h)) + (if bool_decide (u = url) then 1 else 0))
    /\ attempted st' = S (attempted (stats h))
    /\ stats_missing st' = stats_missing (stats h)
    /\ ((downloaded st' = S (downloaded (stats h)) /\ failed st' = failed (stats h)
         /\ m' = store h
         /\ exists w1, download_image env url
                         (assets_dir t ++ [filename_from_url url (S (counter t))])
                         (token t) (world h) = (true, w1))
        \/ (downloaded st' = downloaded (stats h) /\ failed st' = S (failed (stats h))
            /\ rel = planned_rel t url
            /\ m' = match missing_cb t with
                    | Some cb => cb url rel (store h)
                    | None => store h
                    end
            /\ download_image env url
                 (assets_dir t ++ [filename_from_url url (S (counter t))])
                 (token t) (world h) = (false, w'))).
Proof.
  intros Hmiss Hacc. unfold get_local. rewrite Hmiss.
  unfold accepted in Hacc. apply negb_true_iff in Hacc. rewrite Hacc.
  pose proof (fun u => download_image_attempts env url
                (assets_dir t ++ [filename_from_url url (S (counter t))]) (token t)
                (world h) u) as Hatt.
  destruct (download_image _ _ _ _ _) as [ok w] eqn:Hdl. simpl in Hatt.
  destruct ok; simpl.
  - pose proof (fun u => repair_ext_attempts env
                  (assets_dir t ++ [filename_from_url url (S (counter t))]) w u) as Hrep.
    destruct (repair_ext _ _ _) as [p' w2]. simpl in Hrep.
    eexists _, _, _, _. split; [reflexivity|]. simpl.
    split; [intros u; by rewrite Hrep, Hatt|].
    split; [done|]. split; [done|]. left. eauto.
  - eexists _, _, _, _. split; [reflexivity|]. simpl.
    split; [done|]. split; [done|]. split; [done|]. right. eauto.
Qed.

(** A first call whose download fails: the failure is counted, the planned path is
    stored and returned, and the callback, if there is one, is called once with the
    URL and that path. *)
Lemma get_local_download_failed env t url h w' :
  url_to_rel t !! url = None -> accepted env url = true ->
  download_image env url (assets_dir t ++ [filename_from_url url (S (counter t))])
    (token t) (world h) = (false, w') ->
  get_local env t url h
  = (Some (planned_rel t url),
     MkTracker (assets_dir t) (md_dir t) (token t) (missing_cb t) (S (counter t))
       (<[url := planned_rel t url]> (url_to_rel t)),
     MkHeap (MkStats (S (attempted (stats h))) (downloaded (stats h))
                     (S (failed (stats h))) (stats_missing (stats h)))
            w'
            (match missing_cb t with
             | Some cb => cb url (planned_rel t url) (store h)
             | None => store h
             end)).
Proof.
  intros Hmiss Hacc Hdl. unfold get_local. rewrite Hmiss.
  unfold accepted in Hacc. apply negb_true_iff in Hacc. by rewrite Hacc, Hdl.
Qed.

(** What any call does to the cache and to the attempts for another URL: nothing *)
Lemma get_local_other env t v h u :
  v <> u ->
  url_to_rel (get_local env t v h).1.2 !! u = url_to_rel t !! u
  /\ attempts_for u (trace (world (get_local env t v h).2)) = attempts_for u (trace (world h)).
Proof.
  intros Hne. destruct (url_to_rel t !! v) as [r|] eqn:Hv.
  - by rewrite (get_local_hit _ _ _ _ _ Hv).
  - destruct (accepted env v) eqn:Hacc.
    + destruct (get_local_miss env t v h Hv Hacc) as (r & w' & st' & m' & -> & Hatt & _).
      cbn [fst snd url_to_rel world]. split; [by rewrite lookup_insert_ne|].
      rewrite Hatt. rewrite bool_decide_false by done. lia.
    + by rewrite (get_local_rejected _ _ _ _ Hv Hacc).
Qed.

(** Once [u] is resolved it stays resolved to the same path, every later call for it
    returns that path, and no call attempts to download it again. *)
Lemma get_locals_cached env t us h u rel :
  url_to_rel t !! u = Some rel ->
  forall rels t' h', get_locals env t us h = (rels, t', h') ->
    (forall i, us !! i = Some u -> rels !! i = Some (Some rel))
    /\ url_to_rel t' !! u = Some rel
    /\ attempts_for u (trace (world h')) = attempts_for u (trace (world h)).
Proof.
  revert t h. induction us as [|v us IH]; intros t h Hc rels t' h' Hrun; simpl in Hrun.
  - simplify_eq. split; [intros i Hi; by rewrite lookup_nil in Hi|done].
  - destruct (get_local env t v h) as [[r1 t1] h1] eqn:Hcall.
    destruct (get_locals env t1 us h1) as [[rs t2] h2] eqn:Hrest. simplify_eq.
    assert (url_to_rel t1 !! u = Some rel
            /\ attempts_for u (trace (world h1)) = attempts_for u (trace (world h))
            /\ (v = u -> r1 = Some rel)) as (Hc1 & Hatt1 & Hr1).
    { destruct (decide (v = u)) as [->|Hne].
      - rewrite (get_local_hit _ _ _ _ _ Hc) in Hcall. by simplify_eq.
      - destruct (get_local_other env t v h u Hne) as [Ha Hb].
        rewrite Hcall in Ha, Hb. cbn [fst snd] in Ha, Hb.
        split; [congruence|]. split; [done|]. by intros ?. }
    destruct (IH t1 h1 Hc1 _ _ _ Hrest) as (Hall & Hc2 & Hatt2).
    split; [|split; [done|congruence]].
    intros [|i] Hi; simpl in *.
    + simplify_eq. by rewrite Hr1.
    + by apply Hall.
Qed.

(** A URL that [urlsplit] rejects is never resolved: every call for it raises, and
    no download is attempted for it. *)
Lemma get_locals_rejected env t us h u :
  url_to_rel t !! u = None -> accepted env u = false ->
  forall rels t' h', get_locals env t us h = (rels, t', h') ->
    (forall i, us !! i = Some u -> rels !! i = Some None)
    /\ url_to_rel t' !! u = None
    /\ attempts_for u (trace (world h')) = attempts_for u (trace (world h)).
Proof.
  intros Hc Hrej. revert t h Hc.
  induction us as [|v us IH]; intros t h Hc rels t' h' Hrun; simpl in Hrun.
  - simplify_eq. split; [intros i Hi; by rewrite lookup_nil in Hi|done].
  - destruct (get_local env t v h) as [[r1 t1] h1] eqn:Hcall.
    destruct (get_locals env t1 us h1) as [[rs t2] h2] eqn:Hrest. simplify_eq.
    assert (url_to_rel t1 !! u = None
            /\ attempts_for u (trace (world h1)) = attempts_for u (trace (world h))
            /\ (v = u -> r1 = None)) as (Hc1 & Hatt1 & Hr1).
    { destruct (decide (v = u)) as [->|Hne].
      - rewrite (get_local_rejected _ _ _ _ Hc Hrej) in Hcall. by simplify_eq.
      - destruct (get_local_other env t v h u Hne) as [Ha Hb].
        rewrite Hcall in Ha, Hb. cbn [fst snd] in Ha, Hb.
        split; [congruence|]. split; [done|]. by intros ?. }
    destruct (IH t1 h1 Hc1 _ _ _ Hrest) as (Hall & Hc2 & Hatt2).
    split; [|split; [done|congruence]].
    intros [|i] Hi; simpl in *.
    + simplify_eq. by rewrite Hr1.
    + by apply Hall.
Qed.

(** C1, as the code has it. On one tracker every call for a URL [u] that [urlsplit]
    accepts returns one and the same path, and over the whole sequence of calls
    exactly one download is attempted for [u] (none when the tracker had resolved [u]
    before): a later call only reads the cache and leaves the tracker, the counters,
    the files and the trace of events as they are. For a URL that [urlsplit] rejects
    every call raises: it returns no path, attempts no download and caches nothing,
    and a further call raises again, having moved the counter and the number of
    attempts once more. *)
Theorem get_local_idempotent env t us h u :
  u ∈ us ->
  let r := get_locals env t us h in
  (is_Some (url_to_rel t !! u) \/ accepted env u = true ->
   exists rel,
     (forall i, us !! i = Some u -> r.1.1 !! i = Some (Some rel))
     /\ url_to_rel r.1.2 !! u = Some rel
     /\ attempts_for u (trace (world r.2))
        = attempts_for u (trace (world h))
          + (if bool_decide (is_Some (url_to_rel t !! u)) then 0 else 1)
     /\ (forall h', get_local env r.1.2 u h' = (Some rel, r.1.2, h')))
  /\ (url_to_rel t !! u = None -> accepted env u = false ->
      (forall i, us !! i = Some u -> r.1.1 !! i = Some None)
      /\ url_to_rel r.1.2 !! u = None
      /\ attempts_for u (trace (world r.2)) = attempts_for u (trace (world h))
      /\ (forall h', get_local env r.1.2 u h' = (None, counted r.1.2, attempt_counted h'))).
Proof.
  intros Hin r. split.
  2:{ intros Hc Hrej. subst r.
      destruct (get_locals env t us h) as [[rels t'] h'] eqn:Hrun.
      destruct (get_locals_rejected env t us h u Hc Hrej _ _ _ Hrun) as (Ha & Hb & Hd).
      cbn [fst snd]. split; [done|]. split; [done|]. split; [done|].
      intros h0. by apply get_local_rejected. }
  intros Hok. subst r.
  assert (exists rel,
    (forall i, us !! i = Some u -> (get_locals env t us h).1.1 !! i = Some (Some rel))
    /\ url_to_rel (get_locals env t us h).1.2 !! u = Some rel
    /\ attempts_for u (trace (world (get_locals env t us h).2))
       = attempts_for u (trace (world h))
         + (if bool_decide (is_Some (url_to_rel t !! u)) then 0 else 1)) as (rel & H1 & H2 & H3).
  2: { exists rel. repeat split; try done. intros h'. by apply get_local_hit. }
  revert t h Hok. induction us as [|v us IH]; intros t h Hok; [by apply elem_of_nil in Hin|].
  destruct (url_to_rel t !! u) as [rel|] eqn:Hc.
  - (* resolved before the sequence starts *)
    exists rel. destruct (get_locals env t (v :: us) h) as [[rels t'] h'] eqn:Hrun.
    destruct (get_locals_cached env t (v :: us) h u rel Hc _ _ _ Hrun) as (Ha & Hb & Hd).
    rewrite bool_decide_true by eauto. simpl. split; [done|]. split; [done|]. lia.
  - assert (accepted env u = true) as Hacc by (destruct Hok as [[? ?]|?]; done).
    rewrite bool_decide_false by (intros [? ?]; done).
    simpl. destruct (get_local env t v h) as [[r1 t1] h1] eqn:Hcall.
    destruct (get_locals env t1 us h1) as [[rs t2] h2] eqn:Hrest. simpl.
    destruct (decide (v = u)) as [->|Hne].
    + (* the first call for [u] *)
      destruct (get_local_miss env t u h Hc Hacc) as (r & w' & st' & m' & Heq & Hatt & _).
      rewrite Heq in Hcall. simplify_eq.
      assert (url_to_rel (MkTracker (assets_dir t) (md_dir t) (token t) (missing_cb t)
                (S (counter t)) (<[u := r]> (url_to_rel t))) !! u = Some r) as Hc1
        by (simpl; apply lookup_insert_eq).
      destruct (get_locals_cached env _ us _ u r Hc1 _ _ _ Hrest) as (Ha & Hb & Hd).
      exists r. split; [|split; [done|]].
      * intros [|i] Hi; simpl in *; [done|by apply Ha].
      * rewrite Hd. simpl. rewrite Hatt. by rewrite bool_decide_true.
    + (* a call for another URL leaves [u] unresolved and unattempted *)
      assert (u ∈ us) as Hin' by (apply elem_of_cons in Hin as [?|?]; congruence).
      destruct (get_local_other env t v h u Hne) as [Hc1 Hatt1].
      rewrite Hcall in Hc1, Hatt1. cbn [fst snd] in Hc1, Hatt1. rewrite Hc in Hc1.
      destruct (IH Hin' t1 h1 (or_intror Hacc)) as (rel & Ha & Hb & Hd).
      rewrite Hrest in Ha, Hb, Hd. simpl in Ha, Hb, Hd.
      rewrite Hc1 in Hd. rewrite bool_decide_false in Hd by (intros [? ?]; done).
      exists rel. split; [|split; [done|congruence]].
      intros [|i] Hi; simpl in *; [congruence|by apply Ha].
Qed.

(** What one call does to the counters *)
Lemma get_local_stats env t url h :
  let r := get_local env t url h in
  (is_Some (url_to_rel t !! url) -> r.1.1 = url_to_rel t !! url /\ stats r.2 = stats h)
  /\ (url_to_rel t !! url = None -> accepted env url = true ->
      is_Some r.1.1
      /\ attempted (stats r.2) = S (attempted (stats h))
      /\ ((downloaded (stats r.2) = S (downloaded (stats h))
           /\ failed (stats r.2) = failed (stats h))
          \/ (downloaded (stats r.2) = downloaded (stats h)
              /\ failed (stats r.2) = S (failed (stats h)))))
  /\ (url_to_rel t !! url = None -> accepted env url = false ->
      r.1.1 = None
      /\ attempted (stats r.2) = S (attempted (stats h))
      /\ downloaded (stats r.2) = downloaded (stats h)
      /\ failed (stats r.2) = failed (stats h)).
Proof.
  intros r. subst r. split; [|split].
  - intros [rel Hrel]. by rewrite (get_local_hit _ _ _ _ _ Hrel), Hrel.
  - intros Hmiss Hacc.
    destruct (get_local_miss env t url h Hmiss Hacc)
      as (r & w' & st' & m' & -> & _ & Hatt & _ & Hcase). simpl.
    split; [eauto|]. split; [done|].
    destruct Hcase as [(? & ? & _)|(? & ? & _)]; [left|right]; done.
  - intros Hmiss Hrej. by rewrite (get_local_rejected _ _ _ _ Hmiss Hrej).
Qed.

(** A call raises exactly on a URL that is not cached and that [urlsplit] rejects. *)
Lemma get_local_none env t url h :
  (get_local env t url h).1.1 = None <-> url_to_rel t !! url = None /\ accepted env url = false.
Proof.
  destruct (get_local_stats env t url h) as (Hhit & Hmiss & Hrej).
  destruct (url_to_rel t !! url) as [rel|] eqn:Hc.
  - destruct (Hhit ltac:(eauto)) as [-> _]. split; [done|]. by intros [? _].
  - destruct (accepted env url) eqn:Hacc.
    + destruct (Hmiss eq_refl eq_refl) as ([rel ->] & _). split; [done|]. by intros [_ ?].
    + by destruct (Hrej eq_refl eq_refl) as (-> & _).
Qed.

(** After a call the number of attempts exceeds the downloads and the failures by
    one more than before if the call raised, and by as much as before if not. *)
Lemma get_local_balance env t url h k :
  attempted (stats h) = downloaded (stats h) + failed (stats h) + k ->
  attempted (stats (get_local env t url h).2)
  = downloaded (stats (get_local env t url h).2) + failed (stats (get_local env t url h).2)
    + k + raised [(get_local env t url h).1.1].
Proof.
  intros Hbal. destruct (get_local_stats env t url h) as (Hhit & Hmiss & Hrej).
  destruct (url_to_rel t !! url) as [rel|] eqn:Hc.
  - destruct (Hhit ltac:(eauto)) as [-> ->]. cbn. lia.
  - destruct (accepted env url) eqn:Hacc.
    + destruct (Hmiss eq_refl eq_refl) as ([rel ->] & ? & [[? ?]|[? ?]]); cbn; lia.
    + destruct (Hrej eq_refl eq_refl) as (-> & ? & ? & ?). cbn. lia.
Qed.

(** C10, as the code has it. A call of [get_local] lowers no counter. A cache hit
    changes none; a cache miss adds one to [attempted] and, when the call returns,
    one to exactly one of [downloaded] and [failed], so that a call that returns
    keeps [attempted = downloaded + failed]. A call that raises has added one to
    [attempted] alone: from the counters of a new [ImageStats], after any sequence
    of calls [attempted] exceeds [downloaded + failed] by the number of calls that
    raised. *)
Theorem stats_invariant env t url h :
  let r := get_local env t url h in
  let h' := r.2 in
  (is_Some r.1.1 ->
   attempted (stats h) = downloaded (stats h) + failed (stats h) ->
   attempted (stats h') = downloaded (stats h') + failed (stats h'))
  /\ attempted (stats h) <= attempted (stats h')
  /\ downloaded (stats h) <= downloaded (stats h')
  /\ failed (stats h) <= failed (stats h')
  /\ (is_Some (url_to_rel t !! url) -> stats h' = stats h)
  /\ (url_to_rel t !! url = None ->
      attempted (stats h') = S (attempted (stats h))
      /\ (is_Some r.1.1 ->
          (downloaded (stats h') = S (downloaded (stats h))
           /\ failed (stats h') = failed (stats h))
          \/ (downloaded (stats h') = downloaded (stats h)
              /\ failed (stats h') = S (failed (stats h))))
      /\ (r.1.1 = None ->
          downloaded (stats h') = downloaded (stats h)
          /\ failed (stats h') = failed (stats h)))
  /\ (r.1.1 = None <-> url_to_rel t !! url = None /\ accepted env url = false)
  /\ (forall us, stats h = ImageStats_init ->
        let s := stats (get_locals env t us h).2 in
        attempted s = downloaded s + failed s + raised (get_locals env t us h).1.1).
Proof.
  intros r h'. subst h' r.
  destruct (get_local_stats env t url h) as (Hhit & Hmiss & Hrej).
  assert ((get_local env t url h).1.1 = None
          <-> url_to_rel t !! url = None /\ accepted env url = false) as Hnone.
  { destruct (url_to_rel t !! url) as [rel|] eqn:Hc.
    - destruct (Hhit ltac:(eauto)) as [-> _]. split; [done|]. by intros [? _].
    - destruct (accepted env url) eqn:Hacc.
      + destruct (Hmiss eq_refl eq_refl) as ([rel ->] & _). split; [done|]. by intros [_ ?].
      + by destruct (Hrej eq_refl eq_refl) as (-> & _). }
  split; [|split; [|split; [|split; [|split; [|split; [|split]]]]]].
  - intros [rel Hrel] Hbal.
    pose proof (get_local_balance env t url h 0 ltac:(lia)) as Hb.
    rewrite Hrel in Hb. cbn in Hb. lia.
  - destruct (url_to_rel t !! url) as [rel|] eqn:Hc.
    + by destruct (Hhit ltac:(eauto)) as [_ ->].
    + destruct (accepted env url) eqn:Hacc.
      * destruct (Hmiss eq_refl eq_refl) as (_ & ? & _). lia.
      * destruct (Hrej eq_refl eq_refl) as (_ & ? & _). lia.
  - destruct (url_to_rel t !! url) as [rel|] eqn:Hc.
    + by destruct (Hhit ltac:(eauto)) as [_ ->].
    + destruct (accepted env url) eqn:Hacc.
      * destruct (Hmiss eq_refl eq_refl) as (_ & _ & [[? ?]|[? ?]]); lia.
      * destruct (Hrej eq_refl eq_refl) as (_ & _ & ? & _). lia.
  - destruct (url_to_rel t !! url) as [rel|] eqn:Hc.
    + by destruct (Hhit ltac:(eauto)) as [_ ->].
    + destruct (accepted env url) eqn:Hacc.
      * destruct (Hmiss eq_refl eq_refl) as (_ & _ & [[? ?]|[? ?]]); lia.
      * destruct (Hrej eq_refl eq_refl) as (_ & _ & _ & ?). lia.
  - intros Hsome. by destruct (Hhit Hsome) as [_ ?].
  - intros Hc. destruct (accepted env url) eqn:Hacc.
    + destruct (Hmiss Hc eq_refl) as ([rel Hrel] & ? & Hcase).
      split; [done|]. split; [done|]. rewrite Hrel. done.
    + destruct (Hrej Hc eq_refl) as (Hrel & ? & ? & ?).
      split; [done|]. split; [|done]. rewrite Hrel. by intros [? ?].
  - exact Hnone.
  - intros us Hinit.
    assert (forall us (t0 : ImageTracker M) h0 k,
              attempted (stats h0) = downloaded (stats h0) + failed (stats h0) + k ->
              attempted (stats (get_locals env t0 us h0).2)
              = downloaded (stats (get_locals env t0 us h0).2)
                + failed (stats (get_locals env t0 us h0).2)
                + k + raised (get_locals env t0 us h0).1.1) as Hall.
    { clear. induction us as [|v us IH]; intros t h k Hbal; cbn [get_locals].
      - cbn. lia.
      - pose proof (get_local_balance env t v h k Hbal) as Hbal1.
        destruct (get_local env t v h) as [[r1 t1] h1]. cbn [fst snd] in Hbal1.
        specialize (IH t1 h1 (k + raised [r1]) ltac:(lia)).
        destruct (get_locals env t1 us h1) as [[rs t2] h2]. cbn [fst snd] in *.
        rewrite IH. unfold raised. cbn [List.filter]. destruct r1; cbn; lia. }
    cbn zeta. rewrite (Hall us t h 0); [lia|]. rewrite Hinit. cbn. lia.
Qed.

End tracker_facts.
(* ===================================================================== *)
(** * The tracker on sample documents                                    *)
(* ===================================================================== *)

(** An instance of [get_local_idempotent]: a URL requested first and third. *)
Lemma get_local_idempotent_witness :
  sample_url ∈ [sample_url; "https://h/a.png"; sample_url]
  /\ accepted sample_env sample_url = true
  /\ exists rel,
      (forall i, [sample_url; "https://h/a.png"; sample_url] !! i = Some sample_url ->
         (get_locals sample_env sample_tracker
            [sample_url; "https://h/a.png"; sample_url] empty_heap).1.1 !! i = Some (Some rel))
      /\ url_to_rel (get_locals sample_env sample_tracker
            [sample_url; "https://h/a.png"; sample_url] empty_heap).1.2 !! sample_url = Some rel
      /\ attempts_for sample_url (trace (world (get_locals sample_env sample_tracker
            [sample_url; "https://h/a.png"; sample_url] empty_heap).2))
         = attempts_for sample_url (trace (world empty_heap))
           + (if bool_decide (is_Some (url_to_rel sample_tracker !! sample_url)) then 0 else 1)
      /\ (forall h', get_local sample_env (get_locals sample_env sample_tracker
            [sample_url; "https://h/a.png"; sample_url] empty_heap).1.2 sample_url h'
          = (Some rel, (get_locals sample_env sample_tracker
            [sample_url; "https://h/a.png"; sample_url] empty_heap).1.2, h')).
Proof.
  assert (accepted sample_env sample_url = true) as Hacc by (vm_compute; reflexivity).
  split; [apply list_elem_of_here|]. split; [exact Hacc|].
  destruct (get_local_idempotent sample_env sample_tracker
              [sample_url; "https://h/a.png"; sample_url] empty_heap sample_url
              (list_elem_of_here _ _)) as [Hok _].
  exact (Hok (or_intror Hacc)).
Defined.

(** C1 as stated fails for a URL that [urlsplit] rejects, whatever the further
    checks of the library say: the first call raises after it has counted an
    attempt, nothing is cached, no download is attempted, and the second call does
    the same again. *)
Lemma get_local_rejected_url_counts_again :
  (forall refused, urlsplit_raises refused bad_host_url = true)
  /\ (get_local sample_env sample_tracker bad_host_url empty_heap).1.1 = None
  /\ counter (get_local sample_env sample_tracker bad_host_url empty_heap).1.2 = 1
  /\ url_to_rel (get_local sample_env sample_tracker bad_host_url empty_heap).1.2 = ∅
  /\ attempted (stats (get_local sample_env sample_tracker bad_host_url empty_heap).2) = 1
  /\ trace (world (get_local sample_env sample_tracker bad_host_url empty_heap).2) = []
  /\ (get_local sample_env
        (get_local sample_env sample_tracker bad_host_url empty_heap).1.2 bad_host_url
        (get_local sample_env sample_tracker bad_host_url empty_heap).2).1.1 = None
  /\ counter (get_local sample_env
                (get_local sample_env sample_tracker bad_host_url empty_heap).1.2 bad_host_url
                (get_local sample_env sample_tracker bad_host_url empty_heap).2).1.2 = 2
  /\ attempted (stats (get_local sample_env
                  (get_local sample_env sample_tracker bad_host_url empty_heap).1.2
                  bad_host_url
                  (get_local sample_env sample_tracker bad_host_url empty_heap).2).2) = 2.
Proof.
  split; [intros refused; vm_compute; reflexivity|].
  vm_compute. repeat split; reflexivity.
Qed.

(** An instance of [stats_invariant]: the first call of a new tracker, which fails. *)
Lemma stats_invariant_witness :
  url_to_rel sample_tracker !! sample_url = None
  /\ stats empty_heap = ImageStats_init
  /\ attempted (stats (get_local sample_env sample_tracker sample_url empty_heap).2) = 1
  /\ downloaded (stats (get_local sample_env sample_tracker sample_url empty_heap).2) = 0
  /\ failed (stats (get_local sample_env sample_tracker sample_url empty_heap).2) = 1.
Proof.
  split; [reflexivity|]. split; [reflexivity|].
  destruct (stats_invariant sample_env sample_tracker sample_url empty_heap)
    as (_ & _ & _ & _ & _ & Hmiss & _).
  destruct (Hmiss eq_refl) as (Hatt & Hcase & _).
  split; [exact Hatt|].
  destruct Hcase as [[Hd Hf]|[Hd Hf]]; [vm_compute; eauto| |].
  - exfalso. revert Hf. vm_compute. discriminate.
  - split; [exact Hd|exact Hf].
Defined.

(** C10 as stated fails for a URL that [urlsplit] rejects: from the counters of a
    new [ImageStats], the call has counted an attempt and then raised, so one
    attempt stands against no download and no failure. *)
Lemma stats_unbalanced_after_rejected_url :
  stats empty_heap = ImageStats_init
  /\ (get_local sample_env sample_tracker bad_host_url empty_heap).1.1 = None
  /\ attempted (stats (get_local sample_env sample_tracker bad_host_url empty_heap).2) = 1
  /\ downloaded (stats (get_local sample_env sample_tracker bad_host_url empty_heap).2) = 0
  /\ failed (stats (get_local sample_env sample_tracker bad_host_url empty_heap).2) = 0
  /\ attempted (stats (get_local sample_env sample_tracker bad_host_url empty_heap).2)
     <> downloaded (stats (get_local sample_env sample_tracker bad_host_url empty_heap).2)
        + failed (stats (get_local sample_env sample_tracker bad_host_url empty_heap).2).
Proof. vm_compute. repeat split; try reflexivity. discriminate. Qed.

(** C3 at the input where the code departs from it. The server answers 200 with an
    empty body: [download_image] stores the empty file and reports success, so
    [get_local] counts a download, not a failure, and calls no callback. *)
Lemma get_local_empty_body_not_failed :
  let r := get_local empty_body_env sample_tracker sample_url empty_heap in
  r.1.1 = Some "../assets/issues/5/001_abc.img"
  /\ files (world r.2) !! ["export"; "o_r"; "assets"; "issues"; "5"; "001_abc.img"] = Some []
  /\ attempted (stats r.2) = 1
  /\ downloaded (stats r.2) = 1
  /\ failed (stats r.2) = 0
  /\ store r.2 = [].
Proof. vm_compute. repeat split; reflexivity. Qed.

(** The same request when it raises instead: the failure is counted, the planned path
    is returned and the callback is called once with the URL and that path. *)
Lemma get_local_request_raises :
  let r := get_local sample_env sample_tracker sample_url empty_heap in
  r.1.1 = Some "../assets/issues/5/001_abc.img"
  /\ files (world r.2) !! ["export"; "o_r"; "assets"; "issues"; "5"; "001_abc.img"] = None
  /\ failed (stats r.2) = 1
  /\ store r.2 = [(sample_url, "../assets/issues/5/001_abc.img")].
Proof. vm_compute. repeat split; reflexivity. Qed.
(* ===================================================================== *)
(** * The frame of [replace_images]                                      *)
(* ===================================================================== *)

Section replace_images_facts.
Context {M : Type}.
Implicit Types (t : ImageTracker M) (h : Heap M) (st : ImageTracker M * Heap M).
Implicit Types (segs : list Re.segment) (m : Re.rmatch) (us : list string).

Lemma resolved_nil env st : resolved env st [] = st.
Proof. by destruct st. Qed.

Lemma resolved_cons env st u us :
  resolved env st (u :: us) = resolved env (resolved env st [u]) us.
Proof.
  unfold resolved. cbn [get_locals]. destruct (get_local env st.1 u st.2) as [[r1 t1] h1].
  cbn [fst snd]. by destruct (get_locals env t1 us h1) as [[rs t2] h2].
Qed.

Lemma resolved_app env st us1 us2 :
  resolved env st (us1 ++ us2) = resolved env (resolved env st us1) us2.
Proof.
  revert st. induction us1 as [|u us1 IH]; intros st.
  - by rewrite resolved_nil.
  - cbn [app]. by rewrite resolved_cons, IH, <- resolved_cons.
Qed.

Lemma resolved_one env st u :
  resolved env st [u] = ((get_local env st.1 u st.2).1.2, (get_local env st.1 u st.2).2).
Proof. unfold resolved. cbn [get_locals]. by destruct (get_local env st.1 u st.2) as [[r1 t1] h1]. Qed.

Lemma img_segments_text env text : Re.text_of (img_segments env text) = text.
Proof. unfold img_segments. destruct (Py.is_ascii text); [apply segments_text|apply cut_text]. Qed.

Lemma replace_images_unfold env text st :
  replace_images env text st = Re.sub_segs_try (repl env) (img_segments env text) st.
Proof. by destruct text. Qed.

(** A match whose URL is empty, inline or relative is returned as it stands. *)
Lemma repl_kept env m st :
  kept (Re.Mat m) = true -> repl env m st = (Some (Re.group0 m), st).
Proof.
  unfold kept, rewritable, repl. destruct (match_url m) as [[|c u]|]; [done| |done].
  destruct (Py.startswith (String c u) "data:"); [done|]. cbn [negb andb].
  by destruct (Py.startswith (String c u) "http://"),
               (Py.startswith (String c u) "https://").
Qed.

(** Any other match is resolved through the tracker. *)
Lemma repl_rewritable env m st :
  rewritable (match_url m) = true ->
  exists url, match_url m = Some url
    /\ repl env m st
       = ((fun loc => Py.replace_count (Re.group0 m) url loc (Some 1))
            <$> (get_local env st.1 url st.2).1.1,
          resolved env st [url]).
Proof.
  unfold rewritable, repl. destruct (match_url m) as [[|c u]|]; [done| |done].
  intros H. exists (String c u). split; [done|]. rewrite resolved_one.
  destruct (Py.startswith (String c u) "data:"); [done|]. cbn [negb andb] in *.
  destruct (Py.startswith (String c u) "http://"),
           (Py.startswith (String c u) "https://"); try done;
    by destruct (get_local env st.1 (String c u) st.2) as [[? ?] ?].
Qed.

(** The course of [sub]: the calls of [get_local] for the URLs to be rewritten, in
    the order of the text, up to the first that raises. *)
Lemma sub_segs_try_frame env segs st :
  let r := Re.sub_segs_try (repl env) segs st in
  (forall out, r.1 = Some out ->
     exists outs,
       out = Py.cat outs /\ length outs = length segs
       /\ (forall i sg, segs !! i = Some sg -> kept sg = true ->
             outs !! i = Some (Re.seg_text sg)))
  /\ (is_Some r.1 -> r.2 = resolved env st (rewritten_urls segs))
  /\ (r.1 = None ->
      exists us u more,
        rewritten_urls segs = us ++ u :: more
        /\ url_to_rel (resolved env st us).1 !! u = None /\ accepted env u = false
        /\ r.2 = resolved env st (us ++ [u])).
Proof.
  revert st. induction segs as [|[s|m] segs IH]; intros st; cbn zeta.
  - cbn [Re.sub_segs_try fst snd]. split; [|split].
    + intros out [= <-]. exists []. by repeat split.
    + intros _. by rewrite resolved_nil.
    + done.
  - cbn [Re.sub_segs_try]. destruct (IH st) as (Hout & Hst & Hraise).
    destruct (Re.sub_segs_try (repl env) segs st) as [o st'] eqn:Hsub.
    cbn [fst snd] in *. split; [|split].
    + intros out Ho. destruct o as [o|]; [|done]. cbn in Ho. injection Ho as <-.
      destruct (Hout o eq_refl) as (outs & -> & Hlen & Hkept).
      exists (s :: outs). split; [done|]. split; [simpl; by rewrite Hlen|].
      intros [|i] sg Hi Hk; simpl in *; [by simplify_eq|by apply Hkept].
    + intros Hsome. apply Hst. by destruct o.
    + intros Hnone. apply Hraise. by destruct o.
  - cbn [Re.sub_segs_try]. destruct (rewritable (match_url m)) eqn:Hrw.
    + destruct (repl_rewritable env m st Hrw) as (url & Hurl & Hrepl). rewrite Hrepl.
      assert (rewritten_urls (Re.Mat m :: segs) = url :: rewritten_urls segs) as Hus
        by (unfold rewritten_urls; cbn; by rewrite Hrw, Hurl).
      rewrite Hus.
      destruct ((get_local env st.1 url st.2).1.1) as [loc|] eqn:Hloc; cbn [fmap option_fmap option_map].
      * destruct (IH (resolved env st [url])) as (Hout & Hst & Hraise).
        destruct (Re.sub_segs_try (repl env) segs (resolved env st [url])) as [o st'] eqn:Hsub.
        cbn [fst snd] in *. split; [|split].
        -- intros out Ho. destruct o as [o|]; [|done]. cbn in Ho. injection Ho as <-.
           destruct (Hout o eq_refl) as (outs & -> & Hlen & Hkept).
           eexists (_ :: outs). split; [done|]. split; [simpl; by rewrite Hlen|].
           intros [|i] sg Hi Hk; simpl in *; [|by apply Hkept].
           simplify_eq. simpl in Hk. by rewrite Hrw in Hk.
        -- intros Hsome. rewrite resolved_cons. apply Hst. by destruct o.
        -- intros Hnone. destruct Hraise as (us & u & more & Hsplit & Hc & Hrej & Heq);
             [by destruct o|].
           exists (url :: us), u, more. rewrite Hsplit. split; [done|].
           cbn [app]. rewrite (resolved_cons env st url us), (resolved_cons env st url (us ++ [u])).
           done.
      * cbn [fst snd]. split; [done|]. split; [by intros [? ?]|]. intros _.
        apply get_local_none in Hloc as [Hc Hrej].
        exists [], url, (rewritten_urls segs). split; [done|].
        rewrite resolved_nil. done.
    + rewrite repl_kept by (simpl; by rewrite Hrw).
      assert (rewritten_urls (Re.Mat m :: segs) = rewritten_urls segs) as Hus
        by (unfold rewritten_urls; cbn; by rewrite Hrw).
      rewrite Hus.
      destruct (IH st) as (Hout & Hst & Hraise).
      destruct (Re.sub_segs_try (repl env) segs st) as [o st'] eqn:Hsub.
      cbn [fst snd] in *. split; [|split].
      * intros out Ho. destruct o as [o|]; [|done]. cbn in Ho. injection Ho as <-.
        destruct (Hout o eq_refl) as (outs & -> & Hlen & Hkept).
        exists (Re.group0 m :: outs). split; [done|]. split; [simpl; by rewrite Hlen|].
        intros [|i] sg Hi Hk; simpl in *; [by simplify_eq|by apply Hkept].
      * intros Hsome. apply Hst. by destruct o.
      * intros Hnone. apply Hraise. by destruct o.
Qed.

(** When [sub] returns, no call has raised: every URL to be rewritten was resolved
    before or is one that [urlsplit] accepts. *)
Lemma sub_segs_try_returns env segs st :
  is_Some (Re.sub_segs_try (repl env) segs st).1 ->
  forall u, u ∈ rewritten_urls segs ->
    is_Some (url_to_rel st.1 !! u) \/ accepted env u = true.
Proof.
  revert st. induction segs as [|[s|m] segs IH]; intros st.
  - intros _ u Hu. by apply elem_of_nil in Hu.
  - cbn [Re.sub_segs_try]. specialize (IH st).
    destruct (Re.sub_segs_try (repl env) segs st) as [o st']. cbn [fst] in *.
    intros Hsome. apply IH. by destruct o.
  - cbn [Re.sub_segs_try]. destruct (rewritable (match_url m)) eqn:Hrw.
    + destruct (repl_rewritable env m st Hrw) as (url & Hurl & Hrepl). rewrite Hrepl.
      assert (rewritten_urls (Re.Mat m :: segs) = url :: rewritten_urls segs) as ->
        by (unfold rewritten_urls; cbn; by rewrite Hrw, Hurl).
      destruct ((get_local env st.1 url st.2).1.1) as [loc|] eqn:Hloc;
        cbn [fmap option_fmap option_map]; [|by intros [? ?]].
      assert (is_Some (url_to_rel st.1 !! url) \/ accepted env url = true) as Hurl_ok.
      { destruct (url_to_rel st.1 !! url) eqn:Hc; [by left; eauto|].
        destruct (accepted env url) eqn:Hacc; [by right|].
        assert ((get_local env st.1 url st.2).1.1 = None) as Hn
          by (by apply get_local_none).
        congruence. }
      specialize (IH (resolved env st [url])).
      destruct (Re.sub_segs_try (repl env) segs (resolved env st [url])) as [o st'].
      cbn [fst] in *. intros Hsome u [->|Hu]%elem_of_cons; [done|].
      destruct (decide (u = url)) as [->|Hne]; [done|].
      destruct (IH ltac:(by destruct o) u Hu) as [Hc|Hacc]; [|by right].
      left. rewrite resolved_one in Hc. cbn [fst] in Hc.
      by destruct (get_local_other env st.1 url st.2 u) as [<- _].
    + rewrite repl_kept by (simpl; by rewrite Hrw).
      assert (rewritten_urls (Re.Mat m :: segs) = rewritten_urls segs) as ->
        by (unfold rewritten_urls; cbn; by rewrite Hrw).
      specialize (IH st).
      destruct (Re.sub_segs_try (repl env) segs st) as [o st']. cbn [fst] in *.
      intros Hsome. apply IH. by destruct o.
Qed.

Lemma sub_segs_try_all_kept env segs st :
  Forall (fun sg => kept sg = true) segs ->
  Re.sub_segs_try (repl env) segs st = (Some (Re.text_of segs), st).
Proof.
  induction 1 as [|[s|m] segs Hk _ IH]; simpl; [done|by rewrite IH|].
  by rewrite repl_kept, IH.
Qed.

(** Calls for other URLs attempt no download of [u]. *)
Lemma resolved_attempts_other env st us u :
  u ∉ us ->
  attempts_for u (trace (world (resolved env st us).2)) = attempts_for u (trace (world st.2)).
Proof.
  revert st. induction us as [|v us IH]; intros st Hnin; [by rewrite resolved_nil|].
  apply not_elem_of_cons in Hnin as [Hne Hnin].
  rewrite resolved_cons, IH by done. rewrite resolved_one. cbn [snd].
  by apply get_local_other.
Qed.

(** C7. The matches of [IMG_PATTERN] and the text between them make up the text.
    When [replace_images] returns, the text between matches and every match whose
    URL begins with [data:] or does not begin with [http://] or [https://] stand
    unchanged at their places in the result. However the call ends, the tracker and
    all it shares are as after the calls of [get_local] for the other matches alone
    (all of them when it returns, those up to the one that raised when it raises), so
    that no download is attempted, and nothing changes, for a URL that is not
    rewritten; and a text all of whose matches are of that kind is returned as it is,
    with the tracker and the heap untouched. This holds of every text: on a text with
    characters outside ASCII for whatever matches the pattern has there. *)
Theorem replace_images_frame env text t h :
  let segs := img_segments env text in
  let r := replace_images env text (t, h) in
  Re.text_of segs = text
  /\ (forall out, r.1 = Some out ->
        exists outs,
          out = Py.cat outs /\ length outs = length segs
          /\ forall i sg, segs !! i = Some sg -> kept sg = true ->
               outs !! i = Some (Re.seg_text sg))
  /\ (exists us, us `prefix_of` rewritten_urls segs
                 /\ r.2 = resolved env (t, h) us
                 /\ (is_Some r.1 -> us = rewritten_urls segs))
  /\ (forall u, u ∉ rewritten_urls segs ->
        attempts_for u (trace (world r.2.2)) = attempts_for u (trace (world h))
        /\ url_to_rel r.2.1 !! u = url_to_rel t !! u)
  /\ (forall m st, kept (Re.Mat m) = true -> repl env m st = (Some (Re.group0 m), st))
  /\ (Forall (fun sg => kept sg = true) segs -> r = (Some text, (t, h))).
Proof.
  intros segs r. subst r. rewrite replace_images_unfold. fold segs.
  destruct (sub_segs_try_frame env segs (t, h)) as (Hout & Hst & Hraise).
  assert (exists us, us `prefix_of` rewritten_urls segs
            /\ (Re.sub_segs_try (repl env) segs (t, h)).2 = resolved env (t, h) us
            /\ (is_Some (Re.sub_segs_try (repl env) segs (t, h)).1 ->
                us = rewritten_urls segs)) as (us & Hpre & Hus & Hall).
  { destruct ((Re.sub_segs_try (repl env) segs (t, h)).1) as [out|] eqn:Hr.
    - exists (rewritten_urls segs). split; [done|]. split; [|done]. apply Hst. eauto.
    - destruct (Hraise eq_refl) as (us & u & more & Hsplit & _ & _ & Heq).
      exists (us ++ [u]). split; [|split; [done|by intros [? ?]]].
      rewrite Hsplit. exists more. by rewrite <- app_assoc. }
  split; [apply img_segments_text|]. split; [exact Hout|]. split; [by exists us|].
  split; [|split].
  - intros u Hu.
    assert (u ∉ us) as Hnin.
    { intros Hin. apply Hu. destruct Hpre as [more ->]. apply elem_of_app. by left. }
    rewrite Hus. split; [by apply resolved_attempts_other|].
    clear -Hnin. revert t h. induction us as [|v us IH]; intros t h; [by rewrite resolved_nil|].
    apply not_elem_of_cons in Hnin as [Hne Hnin].
    rewrite resolved_cons, resolved_one. cbn [fst snd].
    destruct (get_local_other env t v h u) as [Hc _]; [done|].
    specialize (IH Hnin (get_local env t v h).1.2 (get_local env t v h).2).
    cbn [fst] in IH. by rewrite IH.
  - intros m st. apply repl_kept.
  - intros Hallk. rewrite sub_segs_try_all_kept by done. unfold segs.
    by rewrite img_segments_text.
Qed.

End replace_images_facts.

(** An instance of [replace_images_frame]: a text with an inline image and two
    relative ones comes back as it is, and the tracker and the heap with it. *)
Lemma replace_images_frame_witness :
  Forall (fun sg => kept sg = true) (img_segments sample_env inline_and_relative_text)
  /\ replace_images sample_env inline_and_relative_text (sample_tracker, empty_heap)
     = (Some inline_and_relative_text, (sample_tracker, empty_heap)).
Proof.
  assert (Forall (fun sg => kept sg = true)
            (img_segments sample_env inline_and_relative_text)) as Hkept
    by (vm_compute; repeat constructor).
  split; [exact Hkept|].
  by apply (replace_images_frame sample_env inline_and_relative_text
              sample_tracker empty_heap).
Defined.
(* ===================================================================== *)
(** * The order of time stamps                                           *)
(* ===================================================================== *)

Section stamps.
Implicit Types a b c : option Q.

Lemma Qle_bool_false x y : Qle_bool x y = false <-> (y < x)%Q.
Proof.
  rewrite <- not_true_iff_false, Qle_bool_iff. split; [apply Qnot_le_lt|].
  intros H1 H2. lra.
Qed.

Lemma Qeq_bool_false x y : Qeq_bool x y = false <-> ~ (x == y)%Q.
Proof. by rewrite <- not_true_iff_false, Qeq_bool_iff. Qed.

Ltac stamps :=
  unfold key_ltb, stamp_leb, stamp_ltb, stamp_eqb in *; simpl in *;
  repeat match goal with
         | a : option Q |- _ => destruct a
         | p : (option Q * nat)%type |- _ => destruct p; simpl in *
         end;
  repeat match goal with
         | H : context [if Qeq_bool ?x ?y then _ else _] |- _ =>
             destruct (Qeq_bool x y) eqn:?
         | |- context [if Qeq_bool ?x ?y then _ else _] => destruct (Qeq_bool x y) eqn:?
         end;
  rewrite ?negb_true_iff, ?negb_false_iff in *;
  repeat match goal with
         | H : Qle_bool _ _ = true |- _ => apply Qle_bool_iff in H
         | H : Qle_bool _ _ = false |- _ => apply Qle_bool_false in H
         | H : Qeq_bool _ _ = true |- _ => apply Qeq_bool_iff in H
         | H : Qeq_bool _ _ = false |- _ => apply Qeq_bool_false in H
         | H : Nat.ltb _ _ = true |- _ => apply Nat.ltb_lt in H
         | H : Nat.ltb _ _ = false |- _ => apply Nat.ltb_ge in H
         end;
  rewrite ?Qle_bool_iff, ?Qle_bool_false, ?Qeq_bool_iff, ?Qeq_bool_false,
    ?Nat.ltb_lt, ?Nat.ltb_ge;
  try done; try lia; try lra.

Lemma stamp_leb_refl a : stamp_leb a a = true.
Proof. stamps. Qed.

Lemma stamp_leb_trans a b c :
  stamp_leb a b = true -> stamp_leb b c = true -> stamp_leb a c = true.
Proof. stamps. Qed.

Lemma stamp_leb_inf a : stamp_leb a None = true.
Proof. stamps. Qed.

Lemma stamp_leb_from_inf a : stamp_leb None a = true -> a = None.
Proof. stamps. Qed.

Lemma stamp_eqb_trans a b c :
  stamp_eqb a c = true -> stamp_eqb b c = true -> stamp_eqb a b = true.
Proof. stamps. Qed.

Lemma stamp_ltb_neq a b : stamp_ltb a b = true -> stamp_eqb a b = false.
Proof. stamps. Qed.

(** The order of the sort keys *)
Lemma key_ltb_asym (k1 k2 : option Q * nat) : key_ltb k1 k2 = true -> key_ltb k2 k1 = false.
Proof. stamps. Qed.

Lemma key_leb_trans (k1 k2 k3 : option Q * nat) :
  key_ltb k2 k1 = false -> key_ltb k3 k2 = false -> key_ltb k3 k1 = false.
Proof. stamps. Qed.

Lemma key_leb_stamp (k1 k2 : option Q * nat) :
  key_ltb k2 k1 = false -> stamp_leb k1.1 k2.1 = true.
Proof. stamps. Qed.

(** A key that is smaller although it comes later has another time stamp. *)
Lemma key_ltb_later (k1 k2 : option Q * nat) :
  k2.2 < k1.2 -> key_ltb k1 k2 = true -> stamp_eqb k1.1 k2.1 = false.
Proof. stamps. Qed.

End stamps.

(* ===================================================================== *)
(** * The insertion sort                                                 *)
(* ===================================================================== *)

Section sorting_facts.
Context {A : Type} (key : A -> option Q * nat).
Implicit Types (x y : A) (l : list A).

(** [x] is not after [y] in the order of the keys. *)
Let key_le x y : Prop := key_ltb (key y) (key x) = false.

Lemma insert_by_perm x l : insert_by key x l ≡ₚ x :: l.
Proof.
  induction l as [|y l IH]; simpl; [done|].
  destruct (key_ltb (key y) (key x)); [|done].
  rewrite IH. apply Permutation_swap.
Qed.

Lemma sort_by_perm l : sort_by key l ≡ₚ l.
Proof.
  induction l as [|x l IH]; simpl; [done|]. by rewrite insert_by_perm, IH.
Qed.

Lemma insert_by_sorted x l :
  StronglySorted key_le l -> StronglySorted key_le (insert_by key x l).
Proof.
  induction l as [|y l IH]; intros Hs; simpl.
  - repeat constructor.
  - apply StronglySorted_cons in Hs as [Hy Hl].
    destruct (key_ltb (key y) (key x)) eqn:Hlt.
    + apply StronglySorted_cons. split; [|by apply IH].
      rewrite insert_by_perm. constructor; [|done].
      by apply key_ltb_asym.
    + apply StronglySorted_cons. split; [|by apply StronglySorted_cons].
      constructor; [done|].
      eapply Forall_impl; [exact Hy|]. intros z Hz. unfold key_le in *.
      by eapply key_leb_trans.
Qed.

Lemma sort_by_sorted l : StronglySorted key_le (sort_by key l).
Proof.
  induction l as [|x l IH]; simpl; [constructor|]. by apply insert_by_sorted.
Qed.

(** An element that comes before all of [l] in the input stays before those of [l]
    that have its time stamp: among the elements of one time stamp, insertion keeps
    the order. *)
Lemma insert_by_stable x l t :
  Forall (fun y => (key x).2 < (key y).2) l ->
  List.filter (fun y => stamp_eqb (key y).1 t) (insert_by key x l)
  = List.filter (fun y => stamp_eqb (key y).1 t) (x :: l).
Proof.
  induction l as [|y l IH]; intros Hidx; [done|].
  apply Forall_cons in Hidx as [Hy Hl]. cbn [insert_by].
  destruct (key_ltb (key y) (key x)) eqn:Hlt; [|done].
  pose proof (key_ltb_later _ _ Hy Hlt) as Hne.
  cbn [List.filter]. rewrite (IH Hl). cbn [List.filter].
  destruct (stamp_eqb (key y).1 t) eqn:Ey, (stamp_eqb (key x).1 t) eqn:Ex; try done.
  by rewrite (stamp_eqb_trans _ _ _ Ey Ex) in Hne.
Qed.

End sorting_facts.

(* ===================================================================== *)
(** * The order of comments                                              *)
(* ===================================================================== *)

Section sort_comments_facts.
Variable iso_timestamp : string -> option Q.
Implicit Types (cs : list (list (string * json))) (k : nat).

Let ts := comment_stamp iso_timestamp.
Let key3 (x : option Q * nat * list (string * json)) : option Q * nat := (x.1.1, x.1.2).

Lemma indexed_from_comments k cs : (fun x => x.2) <$> indexed_from iso_timestamp k cs = cs.
Proof. revert k. induction cs as [|c cs IH]; intros k; simpl; [done|]. by rewrite IH. Qed.

Lemma indexed_from_stamp k cs :
  Forall (fun x => x.1.1 = ts x.2 /\ k <= x.1.2) (indexed_from iso_timestamp k cs).
Proof.
  revert k. induction cs as [|c cs IH]; intros k; simpl; constructor.
  - split; [done|]. simpl. lia.
  - eapply Forall_impl; [apply (IH (S k))|]. intros x [? ?]. split; [done|lia].
Qed.

Lemma filter_stamp_fmap t (l : list (option Q * nat * list (string * json))) :
  Forall (fun x => x.1.1 = ts x.2) l ->
  List.filter (fun c => stamp_eqb (ts c) t) ((fun x => x.2) <$> l)
  = (fun x => x.2) <$> List.filter (fun x => stamp_eqb (key3 x).1 t) l.
Proof.
  induction 1 as [|x l Hx _ IH]; [done|]. cbn [fmap list_fmap List.filter].
  fold (@fmap list _ _ _ (fun x : option Q * nat * list (string * json) => x.2)).
  unfold key3 at 1. cbn [fst]. rewrite Hx, IH. by destruct (stamp_eqb (ts x.2) t).
Qed.

Lemma sort_indexed_stable k cs t :
  List.filter (fun x => stamp_eqb (key3 x).1 t) (sort_by key3 (indexed_from iso_timestamp k cs))
  = List.filter (fun x => stamp_eqb (key3 x).1 t) (indexed_from iso_timestamp k cs).
Proof.
  revert k. induction cs as [|c cs IH]; intros k; [done|].
  cbn [indexed_from sort_by]. rewrite insert_by_stable.
  - cbn [List.filter]. by rewrite IH.
  - rewrite sort_by_perm. eapply Forall_impl; [apply (indexed_from_stamp (S k))|].
    intros x [_ Hk]. unfold key3. simpl. lia.
Qed.

Lemma sort_comments_unfold cs :
  sort_comments iso_timestamp cs
  = (fun x => x.2) <$> sort_by key3 (indexed_from iso_timestamp 0 cs).
Proof. reflexivity. Qed.

(** In a list in the order of the time stamps the comments without a time stamp
    come last. *)
Lemma sorted_unparseable_last (l : list (list (string * json))) :
  StronglySorted (fun a b => stamp_leb (ts a) (ts b) = true) l ->
  l = List.filter (fun c => negb (stamp_eqb (ts c) None)) l
      ++ List.filter (fun c => stamp_eqb (ts c) None) l.
Proof.
  induction 1 as [|c l Hs IH Hc]; [done|]. cbn [List.filter].
  destruct (ts c) as [q|] eqn:Hq; cbn [stamp_eqb negb].
  - simpl. by rewrite <- IH.
  - assert (Forall (fun c' => ts c' = None) l) as Hnone.
    { eapply Forall_impl; [exact Hc|]. intros c' H'. by apply stamp_leb_from_inf. }
    assert (List.filter (fun c' => negb (stamp_eqb (ts c') None)) l = []) as ->.
    { clear -Hnone. induction Hnone as [|c' l Hc' _ IH]; [done|].
      cbn [List.filter]. by rewrite Hc'. }
    assert (List.filter (fun c' => stamp_eqb (ts c') None) l = l) as ->; [|done].
    clear -Hnone. induction Hnone as [|c' l Hc' _ IH]; [done|].
    cbn [List.filter]. rewrite Hc'. simpl. by rewrite IH.
Qed.

(** C4. [sort_comments] returns the comments it is given, rearranged; their time
    stamps do not decrease along the result; the comments without a parseable time
    stamp come after all the others, in the order of the input; and the comments of
    any one time stamp keep the order they have in the input. *)
Theorem sort_comments_sorted_stable cs :
  let out := sort_comments iso_timestamp cs in
  out ≡ₚ cs
  /\ StronglySorted (fun a b => stamp_leb (ts a) (ts b) = true) out
  /\ out = List.filter (fun c => negb (stamp_eqb (ts c) None)) out
           ++ List.filter (fun c => stamp_eqb (ts c) None) cs
  /\ forall t, List.filter (fun c => stamp_eqb (ts c) t) out
               = List.filter (fun c => stamp_eqb (ts c) t) cs.
Proof.
  intros out.
  assert (Forall (fun x => x.1.1 = ts x.2)
            (sort_by key3 (indexed_from iso_timestamp 0 cs))) as Hts.
  { rewrite sort_by_perm. eapply Forall_impl; [apply (indexed_from_stamp 0)|].
    by intros x [? _]. }
  assert (forall t, List.filter (fun c => stamp_eqb (ts c) t) out
                    = List.filter (fun c => stamp_eqb (ts c) t) cs) as Hstable.
  { intros t. unfold out. rewrite sort_comments_unfold, (filter_stamp_fmap t _ Hts).
    rewrite sort_indexed_stable, <- filter_stamp_fmap, indexed_from_comments; [done|].
    eapply Forall_impl; [apply (indexed_from_stamp 0)|]. by intros x [? _]. }
  assert (StronglySorted (fun a b => stamp_leb (ts a) (ts b) = true) out) as Hsorted.
  { unfold out. rewrite sort_comments_unfold.
    pose proof (sort_by_sorted key3 (indexed_from iso_timestamp 0 cs)) as Hs.
    revert Hs Hts. generalize (sort_by key3 (indexed_from iso_timestamp 0 cs)).
    induction 1 as [|x l Hs IH Hx]; intros Hts; [constructor|].
    apply Forall_cons in Hts as [Hxts Hts]. cbn [fmap list_fmap].
    constructor; [by apply IH|].
    apply Forall_fmap. eapply Forall_impl.
    { apply Forall_and. split; [exact Hx|exact Hts]. }
    intros y [Hle Hy]. simpl. rewrite <- Hxts, <- Hy.
    exact (key_leb_stamp (key3 x) (key3 y) Hle). }
  split; [|split; [done|split; [|done]]].
  - unfold out. rewrite sort_comments_unfold, sort_by_perm.
    by rewrite indexed_from_comments.
  - rewrite <- (Hstable None). by apply sorted_unparseable_last.
Qed.

End sort_comments_facts.

(** The order of a sample thread: by time, the undated comments last, equal times in
    the order of the input. *)
Example sort_comments_sample :
  (fun c => dict_get c "body") <$> sort_comments sample_clock sample_comments
  = [JStr "first"; JStr "first again"; JStr "camel"; JStr "third";
     JStr "no date"; JStr "bad date"].
Proof. vm_compute. reflexivity. Qed.
(* ===================================================================== *)
(** * Issues closed by a pull request                                    *)
(* ===================================================================== *)

Section related.
Local Open Scope N_scope.

Lemma foldl_try_none {A B : Type} (step : A -> B -> option A) (l : list B) :
  foldl (fun acc x => acc ≫= fun a => step a x) None l = None.
Proof. by induction l. Qed.

Lemma foldl_try_cons {A B : Type} (step : A -> B -> option A) init x (l : list B) :
  foldl_try step init (x :: l) = step init x ≫= fun a => foldl_try step a l.
Proof.
  unfold foldl_try. cbn [foldl mbind option_bind]. destruct (step init x); [done|].
  apply foldl_try_none.
Qed.

Lemma related_step_known known owner repo related m related' :
  related_step known owner repo related m = Some related' ->
  related ⊆ known -> related' ⊆ known.
Proof.
  unfold related_step. destruct (Py.int _) as [num|]; [|done]. cbn [mbind option_bind].
  destruct (_ && _ && _); [by intros [= <-]|].
  destruct (bool_decide _) eqn:E; [|by intros [= <-]]. apply bool_decide_eq_true in E.
  intros [= <-] H x Hx. apply elem_of_union in Hx as [Hx|Hx]; [by apply H|].
  by apply elem_of_singleton in Hx as ->.
Qed.

(** What is returned is in ascending order, without repetition, and made of known
    numbers only. *)
Lemma find_related_issues_sound body known owner repo l :
  find_related_issues body known owner repo = Some l ->
  StronglySorted N.le l /\ NoDup l /\ forall n, n ∈ l -> n ∈ known.
Proof.
  unfold find_related_issues. destruct body as [|c body].
  { intros [= <-]. repeat split; [constructor|constructor|].
    intros n Hn. by apply elem_of_nil in Hn. }
  set (ms := Re.finditer ISSUE_FIX_PATTERN (String c body)).
  assert (forall related related', related ⊆ known ->
            foldl_try (related_step known owner repo) related ms = Some related' ->
            related' ⊆ known) as Hfold.
  { induction ms as [|m ms IH]; intros related related' Hr.
    - by intros [= <-].
    - rewrite foldl_try_cons.
      destruct (related_step known owner repo related m) as [r1|] eqn:Hstep; [|done].
      cbn [mbind option_bind]. apply IH. by eapply related_step_known. }
  destruct (foldl_try _ _ ms) as [related|] eqn:Hrun; [|done].
  cbn [mbind option_bind]. intros [= <-].
  specialize (Hfold ∅ related ltac:(intros x Hx; by apply elem_of_empty in Hx) Hrun).
  split; [|split].
  - apply StronglySorted_merge_sort; apply _.
  - rewrite merge_sort_Permutation. apply NoDup_elements.
  - intros n. rewrite merge_sort_Permutation, elem_of_elements. apply Hfold.
Qed.

(** C6 at the input where the code departs from it. The pattern spells the first
    keyword [fixe[sd]?], so the singular [fix] closes nothing while the non-word
    [fixe] does; the other keywords match in all three forms, and a prefix naming
    another repository discards the mention. *)
Lemma find_related_issues_singular_fix :
  find_related_issues "Fix #42" {[42]} "owner" "repo" = Some []
  /\ find_related_issues "Fixe #42" {[42]} "owner" "repo" = Some [42]
  /\ find_related_issues "Fixes #42" {[42]} "owner" "repo" = Some [42]
  /\ find_related_issues "Fixed #42" {[42]} "owner" "repo" = Some [42]
  /\ find_related_issues "Close #42" {[42]} "owner" "repo" = Some [42]
  /\ find_related_issues "Resolve #42" {[42]} "owner" "repo" = Some [42]
  /\ find_related_issues "Fixes Owner/Repo#42" {[42]} "owner" "repo" = Some [42]
  /\ find_related_issues "Fixes otherowner/otherrepo#42" {[42]} "owner" "repo" = Some []
  /\ find_related_issues "Fixes #43" {[42]} "owner" "repo" = Some [].
Proof. vm_compute. repeat split; reflexivity. Qed.

End related.
(* ===================================================================== *)
(** * Missing and malformed raw files, and the invalid repository        *)
(* ===================================================================== *)

Section run_facts.
Variable export_items : string -> json -> json -> ending * list out_event.
Implicit Types (repo : string) (repos more : list string) (raw_root : list string).
Implicit Types (raw : gmap (list string) (option json)).

Lemma has_slash_split repo :
  Py.has_char "/" repo = true -> exists owner name, Py.split_once "/" repo = (owner, Some name).
Proof.
  unfold Py.split_once. destruct (Py.find_char "/" repo) as [i|] eqn:Hf; [by eauto|].
  intros Hc. exfalso. revert Hf Hc. unfold Py.has_char.
  induction repo as [|c r IH]; [done|]. cbn [Py.find_char Py.contains Py.startswith].
  case_bool_decide as Hc; [done|].
  rewrite (bool_decide_false ("/"%char = c)) by congruence. cbn [andb orb].
  destruct (Py.find_char "/" r); [done|]. intros _. by apply IH.
Qed.

(** A repository whose raw files are missing or hold no list is reported and left. *)
Lemma process_repo_fatal repo raw_root raw :
  Py.has_char "/" repo = true ->
  let issues_path := raw_root ++ [slugify_repo repo; "issues.json"] in
  let prs_path := raw_root ++ [slugify_repo repo; "prs.json"] in
  (raw !! issues_path = None \/ raw !! prs_path = None ->
     process_repo export_items repo raw_root raw
     = (Returned, [Stderr (missing_raw_msg repo issues_path prs_path)]))
  /\ (forall vi vp, raw !! issues_path = Some (Some vi) -> raw !! prs_path = Some (Some vp) ->
        is_list vi = false ->
        process_repo export_items repo raw_root raw
        = (Returned, [Stderr (not_a_list_msg issues_path)]))
  /\ (forall vi vp, raw !! issues_path = Some (Some vi) -> raw !! prs_path = Some (Some vp) ->
        is_list vi = true -> is_list vp = false ->
        process_repo export_items repo raw_root raw
        = (Returned, [Stderr (not_a_list_msg prs_path)])).
Proof.
  intros Hslash issues_path prs_path.
  destruct (has_slash_split repo Hslash) as (owner & name & Hsplit).
  unfold process_repo. rewrite Hsplit. rewrite <- !(assoc_L (++)). cbn [app].
  fold issues_path prs_path. unfold raw_exists, load_json. split; [|split].
  - intros [-> | ->].
    + by rewrite (bool_decide_false (is_Some None)) by (intros [? ?]; done).
    + rewrite (bool_decide_false (is_Some None)) by (intros [? ?]; done).
      by rewrite orb_true_r.
  - intros vi vp -> -> Hvi. rewrite !bool_decide_true by eauto. simpl. by rewrite Hvi.
  - intros vi vp -> -> Hvi Hvp. rewrite !bool_decide_true by eauto. simpl.
    by rewrite Hvi, Hvp.
Qed.

(** A raw file that is there and is no JSON text: [load_json] raises, and nothing
    in [process_repo] catches it. *)
Lemma process_repo_unparseable repo raw_root raw :
  Py.has_char "/" repo = true ->
  let issues_path := raw_root ++ [slugify_repo repo; "issues.json"] in
  let prs_path := raw_root ++ [slugify_repo repo; "prs.json"] in
  (raw !! issues_path = Some None /\ is_Some (raw !! prs_path))
  \/ (exists vi, raw !! issues_path = Some (Some vi) /\ raw !! prs_path = Some None) ->
  process_repo export_items repo raw_root raw = (Raised, []).
Proof.
  intros Hslash issues_path prs_path Hcase.
  destruct (has_slash_split repo Hslash) as (owner & name & Hsplit).
  unfold process_repo. rewrite Hsplit. rewrite <- !(assoc_L (++)). cbn [app].
  fold issues_path prs_path. unfold raw_exists, load_json.
  destruct Hcase as [[-> [vp ->]]|(vi & -> & ->)]; by rewrite !bool_decide_true by eauto.
Qed.

(** After a repository that returns, the loop goes on with the next one. *)
Lemma main_continues repo more raw_root raw evs :
  Py.has_char "/" repo = true ->
  process_repo export_items repo raw_root raw = (Returned, evs) ->
  main export_items (repo :: more) raw_root raw
  = ((main export_items more raw_root raw).1, evs ++ (main export_items more raw_root raw).2).
Proof.
  intros Hslash Hp. cbn [main]. rewrite Hslash, Hp. cbn [negb].
  by destruct (main export_items more raw_root raw).
Qed.

(** C2, as the code has it. A repository with a slash in its name whose [issues.json]
    or [prs.json] is absent, or both of whose files parse and one of them to something
    that is not an array, gets one error line and is left, and the run goes on with
    the next repository as if this one had not been named. A raw file that is there
    but is no JSON text is not handled: [load_json] raises and the run ends with the
    exception, also where the other file holds no array. The check of the repository
    argument is made in the loop, when the turn of a repository comes: the run stops
    there with status 1, after the repositories named before it have been processed. *)
Theorem missing_inputs_fatal_for_repo_only repo more raw_root raw :
  let issues_path := raw_root ++ [slugify_repo repo; "issues.json"] in
  let prs_path := raw_root ++ [slugify_repo repo; "prs.json"] in
  (Py.has_char "/" repo = true ->
   (raw !! issues_path = None \/ raw !! prs_path = None
    \/ exists vi vp, raw !! issues_path = Some (Some vi) /\ raw !! prs_path = Some (Some vp)
                     /\ (is_list vi = false \/ is_list vp = false)) ->
   exists msg,
     Py.startswith msg "ERROR: " = true
     /\ process_repo export_items repo raw_root raw = (Returned, [Stderr msg])
     /\ main export_items (repo :: more) raw_root raw
        = ((main export_items more raw_root raw).1,
           Stderr msg :: (main export_items more raw_root raw).2))
  /\ (Py.has_char "/" repo = true ->
      (raw !! issues_path = Some None /\ is_Some (raw !! prs_path))
      \/ (exists vi, raw !! issues_path = Some (Some vi) /\ raw !! prs_path = Some None) ->
      process_repo export_items repo raw_root raw = (Raised, [])
      /\ main export_items (repo :: more) raw_root raw = (Traceback, []))
  /\ (Py.has_char "/" repo = false ->
      main export_items (repo :: more) raw_root raw = (Exit 1, [Stderr (invalid_repo_msg repo)])
      /\ forall before evs,
           main export_items before raw_root raw = (Exit 0, evs) ->
           main export_items (before ++ repo :: more) raw_root raw
           = (Exit 1, evs ++ [Stderr (invalid_repo_msg repo)])).
Proof.
  intros issues_path prs_path. split; [|split].
  - intros Hslash Hcase.
    destruct (process_repo_fatal repo raw_root raw Hslash) as (Hmiss & Hi & Hp).
    fold issues_path prs_path in Hmiss, Hi, Hp.
    assert (exists msg, Py.startswith msg "ERROR: " = true
              /\ process_repo export_items repo raw_root raw = (Returned, [Stderr msg]))
      as (msg & Hmsg & Hproc).
    { destruct Hcase as [Ha|[Ha|(vi & vp & Hvi & Hvp & Hl)]].
      - eexists. split; [|apply Hmiss; by left]. done.
      - eexists. split; [|apply Hmiss; by right]. done.
      - destruct (is_list vi) eqn:Evi.
        + destruct Hl as [?|Hl]; [done|]. eexists. split; [|by eapply Hp]. done.
        + eexists. split; [|by eapply Hi]. done. }
    exists msg. split; [done|]. split; [done|].
    by rewrite (main_continues repo more raw_root raw [Stderr msg] Hslash Hproc).
  - intros Hslash Hcase.
    pose proof (process_repo_unparseable repo raw_root raw Hslash Hcase) as Hproc.
    split; [exact Hproc|]. cbn [main]. by rewrite Hslash, Hproc.
  - intros Hslash. split; [cbn [main]; by rewrite Hslash|].
    intros before. induction before as [|r before IH]; intros evs Hbefore.
    + cbn [main] in *. simplify_eq. cbn [app main]. by rewrite Hslash.
    + cbn [main app] in *. destruct (negb (Py.has_char "/" r)); [done|].
      destruct (process_repo export_items r raw_root raw) as [[|] evs1]; [|done].
      destruct (main export_items before raw_root raw) as [e evs2] eqn:Hm.
      simplify_eq. rewrite (IH evs2 eq_refl). by rewrite <- (assoc_L (++)).
Qed.

End run_facts.

(** An instance of [missing_inputs_fatal_for_repo_only]: [c/d] holds an object where
    the issues should be, and [o/r] after it is exported all the same. *)
Lemma missing_inputs_fatal_for_repo_only_witness :
  Py.has_char "/" "c/d" = true
  /\ main export_nothing ["c/d"; "o/r"] ["export"; "raw"] faulty_raw
     = (Exit 0,
        [Stderr "ERROR: export/raw/c_d/issues.json is not a list. Make sure you used gh api --paginate.";
         Stdout "[o/r] Images: downloaded 0/0 (0 failed)"]).
Proof.
  split; [reflexivity|].
  destruct (missing_inputs_fatal_for_repo_only export_nothing "c/d" ["o/r"]
              ["export"; "raw"] faulty_raw) as (Hfatal & _ & _).
  destruct Hfatal as (msg & _ & Hproc & Hmain); [reflexivity| |].
  - right. right. exists (JObj [("message", JStr "Not Found")]), (JArr []).
    split; [reflexivity|]. split; [reflexivity|]. by left.
  - rewrite Hmain. revert Hproc. vm_compute. by intros [= <-].
Defined.

(** C2 as stated fails where an invalid repository is not named first: the run has
    exported [o/r] by the time the check stops it. Nor is that check the only thing
    that ends a run: a raw file that is no JSON text ends it with an exception, and
    the repository named after it is not reached. *)
Lemma invalid_repo_halts_after_processing :
  main export_nothing ["o/r"; "bad"] ["export"; "raw"] empty_repo_raw
  = (Exit 1, [Stdout "[o/r] Images: downloaded 0/0 (0 failed)";
              Stderr "ERROR: Invalid repo format: bad"])
  /\ ~ halted_before_processing
         (main export_nothing ["o/r"; "bad"] ["export"; "raw"] empty_repo_raw)
  /\ main export_nothing ["o/r"; "a/b"] ["export"; "raw"] broken_raw = (Traceback, []).
Proof.
  assert (main export_nothing ["o/r"; "bad"] ["export"; "raw"] empty_repo_raw
          = (Exit 1, [Stdout "[o/r] Images: downloaded 0/0 (0 failed)";
                      Stderr "ERROR: Invalid repo format: bad"])) as Heq
    by (vm_compute; reflexivity).
  split; [exact Heq|]. split; [|vm_compute; reflexivity].
  rewrite Heq. intros H. destruct (H eq_refl) as [repo Hrepo]. discriminate Hrepo.
Qed.
(* ===================================================================== *)
(** * The clean-up where there is nothing to clean                       *)
(* ===================================================================== *)

Section cleanup_facts.
Implicit Types (fs : gmap (list string) (list byte)) (root md : list string).
Implicit Types (dirs : gset (list string)) (env : CleanEnv).


Lemma by_rank_elem {A : Type} (rank : A -> nat) (l : list A) x : x ∈ by_rank rank l <-> x ∈ l.
Proof. unfold by_rank. by rewrite merge_sort_Permutation. Qed.

Lemma elem_of_listing fs p : p ∈ listing fs <-> is_Some (fs !! p).
Proof.
  unfold listing. rewrite list_elem_of_fmap. split.
  - intros ([p' c] & -> & H%elem_of_map_to_list). eauto.
  - intros [c Hc]. exists (p, c). split; [done|]. by apply elem_of_map_to_list.
Qed.

(** What [rglob] yields: the files and the directories strictly below the root
    whose name ends as asked *)
Lemma rglob_elem env fs dirs root ending p :
  p ∈ rglob env fs dirs root ending
  <-> root `prefix_of` p /\ p <> root /\ Py.endswith (path_name p) ending = true
      /\ (is_Some (fs !! p) \/ p ∈ directories fs dirs).
Proof.
  unfold rglob. rewrite by_rank_elem, list_elem_of_In, filter_In, <- list_elem_of_In.
  rewrite elem_of_app, elem_of_listing, !andb_true_iff, bool_decide_eq_true, negb_true_iff,
    bool_decide_eq_false. tauto.
Qed.









End cleanup_facts.





(* ===================================================================== *)
(** * Names: what [sanitize_name] and [filename_from_url] guarantee      *)
(* ===================================================================== *)

Lemma lstrip_idem p s : Py.lstrip p (Py.lstrip p s) = Py.lstrip p s.
Proof.
  induction s as [|c r IH]; [done|]. simpl. destruct (p c) eqn:Hc; [exact IH|].
  simpl. by rewrite Hc.
Qed.

Lemma rstrip_idem p s : Py.rstrip p (Py.rstrip p s) = Py.rstrip p s.
Proof.
  induction s as [|c r IH]; [done|]. simpl.
  destruct (Py.rstrip p r) as [|a r'] eqn:Hr.
  - destruct (p c) eqn:Hc; [done|]. simpl. by rewrite Hc.
  - change (Py.rstrip p (String c (String a r'))) with
      (match Py.rstrip p (String a r') with
       | EmptyString => if p c then EmptyString else String c EmptyString
       | x => String c x
       end).
    by rewrite IH.
Qed.

(** Stripping on the right leaves a text alone that stripping on the left leaves alone. *)
Lemma lstrip_rstrip p s :
  Py.lstrip p s = s -> Py.lstrip p (Py.rstrip p s) = Py.rstrip p s.
Proof.
  destruct s as [|c r]; [done|]. simpl. destruct (p c) eqn:Hc.
  - intros H. exfalso. assert (Py.len (Py.lstrip p r) <= Py.len r) as Hle.
    { clear. induction r as [|a r IH]; simpl; [lia|]. destruct (p a); simpl in *; lia. }
    rewrite H in Hle. simpl in Hle. lia.
  - intros _. destruct (Py.rstrip p r); simpl; by rewrite Hc.
Qed.

Lemma strip_idem p s : Py.strip p (Py.strip p s) = Py.strip p s.
Proof.
  unfold Py.strip. rewrite (lstrip_rstrip p (Py.lstrip p s)) by apply lstrip_idem.
  apply rstrip_idem.
Qed.

Lemma lstrip_head p s c r : Py.lstrip p s = String c r -> p c = false.
Proof.
  induction s as [|a s IH]; [done|]. simpl. destruct (p a) eqn:Ha; [exact IH|].
  intros [= <- _]. exact Ha.
Qed.

Lemma rstrip_head p s c r c' r' :
  s = String c r -> Py.rstrip p s = String c' r' -> c' = c.
Proof.
  intros ->. simpl. destruct (Py.rstrip p r); [destruct (p c)|]; congruence.
Qed.

Lemma strip_head p s c r : Py.strip p s = String c r -> p c = false.
Proof.
  unfold Py.strip. destruct (Py.lstrip p s) as [|a t] eqn:Hl; [done|].
  intros H. rewrite (rstrip_head p _ a t c r eq_refl H). by eapply lstrip_head.
Qed.

(** The last character of a text that stripping on the right leaves alone *)
Lemma rstrip_fixed_last p s c :
  Py.rstrip p s = s -> Py.drop (Py.len s - 1) s = String c EmptyString -> p c = false.
Proof.
  induction s as [|a r IH]; [done|]. simpl. destruct r as [|b r].
  - simpl. destruct (p a) eqn:Ha; [done|]. by intros _ [= <-].
  - destruct (Py.rstrip p (String b r)) as [|x y] eqn:Hr.
    + destruct (p a); discriminate.
    + intros [= Hx Hy]. subst x y. intros Hd. apply IH; [done|].
      simpl in *. by rewrite Nat.sub_0_r.
Qed.

Lemma strip_last p s c :
  Py.drop (Py.len (Py.strip p s) - 1) (Py.strip p s) = String c EmptyString -> p c = false.
Proof. apply rstrip_fixed_last. unfold Py.strip. apply rstrip_idem. Qed.

(** A pattern that cannot start at a character of the class [p] finds nothing in a
    text made of such characters. *)
Lemma scan_no_start pat (p : ascii -> bool) s before lit :
  (forall b c r, p c = true -> Re.match_here pat b (String c r) = None) ->
  Forall (fun c => p c = true) (Py.chars s) ->
  Re.scan pat before s 0 lit = Re.flush (lit +:+ s) [].
Proof.
  intros Hp. revert before lit. induction s as [|c r IH]; intros before lit Hs.
  - simpl. by rewrite app_empty_r.
  - inversion Hs as [|? ? Hc Hr]; subst. cbn [Re.scan]. rewrite (Hp _ _ _ Hc).
    rewrite IH by exact Hr. by rewrite app_assoc', app_cons, app_nil_l.
Qed.

Lemma sub_const_no_start pat (p : ascii -> bool) new s :
  (forall b c r, p c = true -> Re.match_here pat b (String c r) = None) ->
  Forall (fun c => p c = true) (Py.chars s) ->
  Re.sub_const pat new s = s.
Proof.
  intros Hp Hs. unfold Re.sub_const, Re.sub, Re.segments.
  rewrite (scan_no_start pat p s None EmptyString Hp Hs), app_nil_l.
  destruct s; [done|]. simpl. by rewrite app_empty_r.
Qed.

Lemma sub_const_safe_id s : safe_chars s -> Re.sub_const UNSAFE_RUN "_" s = s.
Proof.
  apply sub_const_no_start. intros b c r Hc.
  pose proof (match_here_unsafe_run b c r) as H. by rewrite Hc in H.
Qed.

(** X1. The name [sanitize_name] returns is never empty, is made of the characters
    [A-Za-z0-9._-] only, neither begins nor ends with an underscore, and is a fixed
    point: sanitising it again changes nothing. *)
Theorem sanitize_name_clean_and_idempotent (name : string) :
  let r := sanitize_name name in
  r <> EmptyString
  /\ safe_chars r
  /\ Py.startswith r "_" = false
  /\ Py.endswith r "_" = false
  /\ sanitize_name r = r.
Proof.
  intros r. split; [apply sanitize_name_nonempty|]. split; [apply sanitize_name_safe|].
  subst r. set (cleaned := Py.strip (is_char "_") (Re.sub_const UNSAFE_RUN "_" name)).
  assert (sanitize_name name
          = match cleaned with EmptyString => "image" | _ => cleaned end) as -> by done.
  assert (safe_chars cleaned) as Hsafe.
  { apply Forall_chars_strip. unfold Re.sub_const, Re.sub, Re.segments.
    apply sub_const_safe, scan_unsafe_lits. constructor. }
  assert (Py.strip (is_char "_") cleaned = cleaned) as Hfix by apply strip_idem.
  pose proof (strip_head (is_char "_") (Re.sub_const UNSAFE_RUN "_" name)) as Hhead.
  pose proof (strip_last (is_char "_") (Re.sub_const UNSAFE_RUN "_" name)) as Hlast.
  fold cleaned in Hhead, Hlast.
  destruct cleaned as [|c s] eqn:Hc; [by vm_compute|].
  split; [|split].
  - specialize (Hhead c s eq_refl). simpl. rewrite andb_true_r.
    apply bool_decide_eq_false. intros <-. discriminate.
  - unfold Py.endswith. apply andb_false_iff. right. apply bool_decide_eq_false.
    intros H. by specialize (Hlast _ H).
  - unfold sanitize_name. rewrite (sub_const_safe_id _ Hsafe), Hfix. done.
Qed.

Lemma rfind_char_none c s :
  Py.rfind_char c s = None -> Forall (fun a => a <> c) (Py.chars s).
Proof.
  induction s as [|a r IH]; [constructor|]. simpl.
  destruct (Py.rfind_char c r); [done|]. case_bool_decide; [done|].
  intros _. constructor; [done|by apply IH].
Qed.

Lemma rfind_char_after c s i :
  Py.rfind_char c s = Some i -> Forall (fun a => a <> c) (Py.chars (Py.drop (S i) s)).
Proof.
  revert i. induction s as [|a r IH]; [done|]. intros i. simpl.
  destruct (Py.rfind_char c r) as [j|] eqn:Hr.
  - intros [= <-]. by apply IH.
  - case_bool_decide; [|done]. intros [= <-]. simpl.
    destruct r; [constructor|]. by apply rfind_char_none.
Qed.

Lemma basename_no_slash p : Forall (fun a => a <> "/"%char) (Py.chars (basename p)).
Proof.
  unfold basename. destruct (Py.rfind_char "/" p) eqn:H.
  - by apply rfind_char_after.
  - by apply rfind_char_none.
Qed.

Lemma lower_char_slash c : Py.lower_char c = "/"%char -> c = "/"%char.
Proof.
  destruct c as [[] [] [] [] [] [] [] []]; intros H; vm_compute in H;
    first [discriminate H | reflexivity].
Qed.

Lemma chars_lower s : Py.chars (Py.lower s) = Py.lower_char <$> Py.chars s.
Proof. induction s as [|c r IH]; [done|]. unfold Py.chars in *. simpl. by rewrite IH. Qed.

Lemma lower_no_slash s :
  Forall (fun a => a <> "/"%char) (Py.chars s) ->
  Forall (fun a => a <> "/"%char) (Py.chars (Py.lower s)).
Proof.
  rewrite chars_lower, Forall_fmap. intros Hs. eapply Forall_impl; [exact Hs|].
  intros c Hc H. simpl in H. by apply Hc, lower_char_slash.
Qed.

Lemma safe_no_slash s : safe_chars s -> Forall (fun a => a <> "/"%char) (Py.chars s).
Proof. intros Hs. eapply Forall_impl; [exact Hs|]. by intros c Hc ->. Qed.

Lemma digits_no_slash s :
  Forall (fun c => Py.is_digit c = true) (Py.chars s) ->
  Forall (fun a => a <> "/"%char) (Py.chars s).
Proof. intros Hs. eapply Forall_impl; [exact Hs|]. by intros c Hc ->. Qed.

Lemma format_03d_head i : exists d r, Py.format_03d i = String d r /\ Py.is_digit d = true.
Proof.
  pose proof (format_03d_len i) as Hlen. pose proof (format_03d_digits i) as Hd.
  destruct (Py.format_03d i) as [|d r]; [simpl in Hlen; lia|].
  exists d, r. split; [done|]. by inversion Hd.
Qed.

Lemma filename_from_url_no_slash url k :
  Forall (fun c => c <> "/"%char) (Py.chars (filename_from_url url k)).
Proof.
  rewrite filename_from_url_eq. cbv zeta.
  set (base' := match basename (upath (urlsplit url)) with
                | EmptyString => "image" | _ => basename (upath (urlsplit url)) end).
  assert (Forall (fun a => a <> "/"%char) (Py.chars base')) as Hbase.
  { subst base'. pose proof (basename_no_slash (upath (urlsplit url))) as Hb.
    destruct (basename _); [|done]. by repeat constructor. }
  rewrite !chars_app. repeat apply Forall_app_2.
  - apply digits_no_slash, format_03d_digits.
  - by repeat constructor.
  - apply safe_no_slash, Forall_chars_take, sanitize_name_safe.
  - destruct (_ || _); [by repeat constructor|]. apply lower_no_slash.
    rewrite <- (splitext_parts base'), chars_app in Hbase.
    by apply Forall_app in Hbase as [_ ?].
Qed.

(** X2. The file name synthesised for a URL is a single path component: it holds no
    slash, whatever the URL, and it starts with a digit, so that it is not empty and
    is neither [.] nor [..]. Joined to the assets directory it names a file directly
    in that directory. *)
Theorem filename_from_url_single_component (url : string) (i : nat) :
  Forall (fun c => c <> "/"%char) (Py.chars (filename_from_url url i))
  /\ (exists d r, filename_from_url url i = String d r /\ Py.is_digit d = true)
  /\ Py.split "/" (filename_from_url url i) = [filename_from_url url i].
Proof.
  assert (forall s, Forall (fun c => c <> "/"%char) (Py.chars s) -> Py.split "/" s = [s])
    as Hsplit.
  { intros s. unfold Py.split. rewrite <- (app_nil_l s) at 3. generalize EmptyString.
    induction s as [|c r IH]; intros cur H.
    - simpl. by rewrite app_empty_r.
    - inversion H; subst. simpl. rewrite bool_decide_false by done.
      rewrite IH by done. by rewrite app_assoc', app_cons, app_nil_l. }
  pose proof (filename_from_url_no_slash url i) as Hns.
  split; [exact Hns|]. split; [|by apply Hsplit].
  rewrite filename_from_url_eq. cbv zeta.
  destruct (format_03d_head i) as (d & r & -> & Hd). rewrite app_cons. by eexists _, _.
Qed.

Lemma digits_prefix_unique a b r1 r2 :
  Forall (fun c => Py.is_digit c = true) (Py.chars a) ->
  Forall (fun c => Py.is_digit c = true) (Py.chars b) ->
  a +:+ String "_" r1 = b +:+ String "_" r2 -> a = b.
Proof.
  revert b. induction a as [|c a IH]; intros b Ha Hb.
  - destruct b as [|d b]; [done|]. rewrite app_nil_l, app_cons. intros [= <- _].
    by inversion Hb.
  - destruct b as [|d b].
    + rewrite app_nil_l, app_cons. intros [= -> _]. by inversion Ha.
    + rewrite !app_cons. intros [= <- H]. f_equal. inversion Ha; inversion Hb; subst.
      by apply IH.
Qed.

(** X3. The index can be read back from the file name: two names synthesised with
    different indices differ, whatever the two URLs are. A tracker numbers its
    downloads 1, 2, ..., so no two images of a document share a file name. *)
Theorem filename_from_url_index_injective (u v : string) (i j : nat) :
  filename_from_url u i = filename_from_url v j -> i = j.
Proof.
  rewrite !filename_from_url_eq. cbv zeta. rewrite !app_cons, !app_nil_l.
  intros H. apply digits_prefix_unique in H; [|apply format_03d_digits..].
  apply (f_equal Py.value) in H. rewrite !format_03d_int in H. lia.
Qed.

Lemma filename_from_url_index_injective_witness :
  filename_from_url "https://a.example/x.png" 7 = filename_from_url "https://a.example/x.png" 7
  /\ 7 = 7.
Proof.
  split; [reflexivity|].
  apply (filename_from_url_index_injective "https://a.example/x.png" "https://a.example/x.png").
  reflexivity.
Defined.

(* ===================================================================== *)
(** * What a download does to the files and to the network               *)
(* ===================================================================== *)

Section downloads.
Implicit Types (w : World) (fs : FS) (p q : path) (url : string).

Lemma path_exists_file fs p c : fs !! p = Some c -> path_exists fs p = true.
Proof.
  intros H. unfold path_exists, listing. apply existsb_exists. exists p. split.
  - apply list_elem_of_In, list_elem_of_fmap. exists (p, c). split; [done|].
    by apply elem_of_map_to_list.
  - by apply bool_decide_eq_true.
Qed.

Lemma leave_other p q content fs : q <> p -> leave p content fs !! q = fs !! q.
Proof. intros H. destruct content; simpl; [|done]. by rewrite lookup_insert_ne. Qed.

Lemma try_candidates_files env p tok cands w :
  let r := try_candidates env p tok cands w in
  (forall q, q <> p -> files r.2 !! q = files w !! q)
  /\ (r.1 = true -> is_Some (files r.2 !! p))
  /\ exists evs, trace r.2 = trace w ++ evs
       /\ Forall (fun e => exists c, e = EvUrlopen c /\ c ∈ cands) evs
       /\ length evs <= length cands.
Proof.
  revert w. induction cands as [|c cands IH]; intros w; simpl.
  - split; [done|]. split; [done|]. exists []. rewrite app_nil_r. by repeat split.
  - destruct (urlopen env (now w) c tok) as [partial|body]; simpl.
    + destruct (IH (MkWorld (leave p partial (files w)) (trace w ++ [EvUrlopen c])))
        as (Hf & Hok & evs & Ht & Hall & Hlen). simpl in *.
      split; [intros q Hq; by rewrite Hf, leave_other|]. split; [done|].
      exists (EvUrlopen c :: evs). rewrite Ht, <- app_assoc. split; [done|].
      split; [|simpl; lia]. constructor; [exists c; split; [done|left]|].
      eapply Forall_impl; [exact Hall|]. intros e (c' & -> & Hin). eexists. split; [done|].
      by right.
    + split; [intros q Hq; by rewrite lookup_insert_ne|].
      split; [intros _; rewrite lookup_insert_eq; eauto|].
      exists [EvUrlopen c]. split; [done|]. split; [|simpl; lia].
      constructor; [|done]. exists c. split; [done|left].
Qed.

Lemma download_with_gh_files env url p w :
  let r := _download_with_gh env url p w in
  (forall q, q <> p -> files r.2 !! q = files w !! q)
  /\ (r.1 = true -> is_Some (files r.2 !! p))
  /\ trace r.2 = trace w ++ [EvGhApi (gh_endpoint url)].
Proof.
  unfold _download_with_gh. destruct (gh_api env (now w) (gh_endpoint url)); simpl.
  - split; [intros q Hq; by apply leave_other|]. done.
  - split; [intros q Hq; by apply leave_other|]. split; [|done].
    destruct (leave p written (files w) !! p); [eauto|done].
Qed.

(** [download_image] changes no file but the one at the path it is given. *)
Lemma download_image_other_files env url p tok w q :
  q <> p -> files (download_image env url p tok w).2 !! q = files w !! q.
Proof.
  intros Hq. unfold download_image. cbn zeta. cbn [log files].
  destruct (path_exists (files w) p) eqn:Hex; [done|].
  destruct (try_candidates_files env p tok (_candidate_urls url) (log (EvDownload url p) w))
    as (Hf & _ & _).
  destruct (try_candidates _ _ _ _ _) as [ok w1]. cbn [fst snd] in *.
  destruct ok; [by apply Hf|]. destruct (_is_user_attachment url).
  - destruct (download_with_gh_files env url p w1) as (Hg & _ & _).
    destruct (_download_with_gh env url p w1) as [ok w2]. cbn [fst snd] in *.
    rewrite Hg by done. by apply Hf.
  - cbn [snd log files]. by apply Hf.
Qed.

(** After a download that is reported as done the path exists. *)
Lemma download_image_ok_exists env url p tok w :
  (download_image env url p tok w).1 = true ->
  path_exists (files (download_image env url p tok w).2) p = true.
Proof.
  unfold download_image. cbn zeta. cbn [log files].
  destruct (path_exists (files w) p) eqn:Hex; [done|].
  destruct (try_candidates_files env p tok (_candidate_urls url) (log (EvDownload url p) w))
    as (_ & Hok & _).
  destruct (try_candidates _ _ _ _ _) as [ok w1]. cbn [fst snd] in *.
  destruct ok.
  - intros _. destruct (Hok eq_refl) as [c Hc]. by eapply path_exists_file.
  - destruct (_is_user_attachment url); [|done].
    destruct (download_with_gh_files env url p w1) as (_ & Hg & _).
    destruct (_download_with_gh env url p w1) as [ok w2]. cbn [fst snd] in *.
    intros Hok2. destruct (Hg Hok2) as [c Hc]. by eapply path_exists_file.
Qed.

(** X4. [download_image] changes no file but the one at the path it is given. When
    it reports success the path exists afterwards, and when the path exists before
    the call it reports success without any request and without touching a file. *)
Theorem download_image_files env url p tok w :
  let r := download_image env url p tok w in
  (forall q, q <> p -> files r.2 !! q = files w !! q)
  /\ (r.1 = true -> path_exists (files r.2) p = true)
  /\ (path_exists (files w) p = true -> r = (true, log (EvDownload url p) w)).
Proof.
  intros r. split; [|split].
  - intros q Hq. by apply download_image_other_files.
  - apply download_image_ok_exists.
  - intros Hex. subst r. unfold download_image. cbn zeta. cbn [log files]. by rewrite Hex.
Qed.

Lemma candidate_urls_length url : length (_candidate_urls url) <= 2.
Proof. unfold _candidate_urls. destruct (_ && _); simpl; lia. Qed.

(** X5. The events of one call of [download_image] are its entry followed by at most
    three requests, all of them for the URL of the call: [urlopen] on its candidate
    URLs, then the [gh] client on its endpoint if the URL is a user attachment, or
    the warning if it is not. No file is sniffed or renamed, no other download is
    begun, and a path that exists already costs no request at all. *)
Theorem download_image_requests env url p tok w :
  exists evs,
    trace (download_image env url p tok w).2 = trace w ++ EvDownload url p :: evs
    /\ Forall (request_for url) evs
    /\ length evs <= 3
    /\ (_is_user_attachment url = false -> (download_image env url p tok w).1 = false ->
        evs = [EvUrlopen url; EvWarn url])
    /\ (path_exists (files w) p = true -> evs = []).
Proof.
  unfold download_image. cbn zeta. cbn [log files].
  destruct (path_exists (files w) p) eqn:Hex.
  { exists []. cbn [snd fst trace]. repeat split; try done. simpl; lia. }
  destruct (try_candidates_files env p tok (_candidate_urls url) (log (EvDownload url p) w))
    as (_ & _ & evs & Ht & Hall & Hlen).
  pose proof (candidate_urls_length url) as Hc.
  assert (Forall (request_for url) evs) as Hreq.
  { eapply Forall_impl; [exact Hall|]. by intros e (c & -> & Hin). }
  assert (_is_user_attachment url = false ->
          (try_candidates env p tok (_candidate_urls url) (log (EvDownload url p) w)).1 = false ->
          evs = [EvUrlopen url]) as Hplain.
  { intros Hua. revert Ht. unfold _candidate_urls. unfold _is_user_attachment in Hua.
    rewrite Hua. simpl. destruct (urlopen _ _ _ _); simpl; [|done].
    intros Ht _. by apply app_inv_head in Ht as <-. }
  destruct (try_candidates _ _ _ _ _) as [ok w1]. cbn [fst snd log trace] in *.
  destruct ok.
  - exists evs. cbn [fst snd]. rewrite Ht, <- app_assoc. repeat split; try done. lia.
  - destruct (_is_user_attachment url) eqn:Hua.
    + destruct (download_with_gh_files env url p w1) as (_ & _ & Hg).
      destruct (_download_with_gh env url p w1) as [ok w2]. cbn [fst snd] in *.
      exists (evs ++ [EvGhApi (gh_endpoint url)]). rewrite Hg, Ht, <- !app_assoc.
      split; [done|]. split; [|split; [rewrite length_app; simpl; lia|done]].
      apply Forall_app. split; [done|]. by repeat constructor.
    + exists (evs ++ [EvWarn url]). cbn [fst snd trace log]. rewrite Ht, <- !app_assoc.
      split; [done|]. split; [|split; [rewrite length_app; simpl; lia|]].
      * apply Forall_app. split; [done|]. by repeat constructor.
      * split; [|done]. intros _ _. by rewrite Hplain.
Qed.

End downloads.

(* ===================================================================== *)
(** * The tracker: files, numbering and links                            *)
(* ===================================================================== *)

Section tracker_more.
Context {M : Type}.
Implicit Types (t : ImageTracker M) (h : Heap M) (u url rel : string) (p q : path).

Lemma path_parent_snoc p name : path_parent (p ++ [name]) = p.
Proof. unfold path_parent. apply removelast_last. Qed.

Lemma path_name_snoc p name : path_name (p ++ [name]) = name.
Proof. unfold path_name. apply last_last. Qed.

Lemma with_suffix_snoc p name ext :
  with_suffix (p ++ [name]) ext = p ++ [name_with_suffix name ext].
Proof. unfold with_suffix. by rewrite path_parent_snoc, path_name_snoc. Qed.

Lemma detect_ext_from_file_some fs p e :
  detect_ext_from_file fs p = Some e -> is_Some (fs !! p).
Proof.
  unfold detect_ext_from_file, read_bytes. destruct (fs !! p); [eauto|done].
Qed.

(** [repair_ext] keeps the file in its directory: it returns the path itself or the
    path with another suffix, the path returned exists if the path given did, and no
    other file changes. *)
Lemma repair_ext_files env p name w :
  let r := repair_ext env (p ++ [name]) w in
  (exists name', r.1 = p ++ [name']
     /\ (name' = name \/ exists e, name' = name_with_suffix name e)
     /\ (path_exists (files w) (p ++ [name]) = true -> path_exists (files r.2) r.1 = true))
  /\ (forall q, path_parent q <> p -> files r.2 !! q = files w !! q).
Proof.
  unfold repair_ext. case_bool_decide; [|cbn; eauto 8].
  destruct (detect_ext_from_file (files w) (p ++ [name])) as [e|] eqn:He; [|cbn; eauto 8].
  destruct (rename_ok _ _ _ _); [|cbn; eauto 8]. cbn [fst snd files].
  apply detect_ext_from_file_some in He as [content Hc]. rewrite Hc.
  rewrite with_suffix_snoc. split.
  - eexists. split; [done|]. split; [eauto|]. intros _.
    eapply path_exists_file. apply lookup_insert_eq.
  - intros q Hq. rewrite lookup_insert_ne, lookup_delete_ne; [done|..];
      intros <-; by rewrite path_parent_snoc in Hq.
Qed.

(** A call of [get_local] changes files in the assets directory of its tracker only. *)
Lemma get_local_other_files env t url h q :
  path_parent q <> assets_dir t ->
  files (world (get_local env t url h).2) !! q = files (world h) !! q.
Proof.
  intros Hq. unfold get_local. destruct (url_to_rel t !! url) as [rel|]; [done|].
  destruct (urlsplit_raises _ _); [done|].
  set (name := filename_from_url url (S (counter t))).
  pose proof (download_image_other_files env url (assets_dir t ++ [name]) (token t) (world h) q)
    as Hother.
  destruct (download_image _ _ _ _ _) as [ok w]. cbn [fst snd] in *.
  assert (q <> assets_dir t ++ [name]) as Hne
    by (intros ->; by rewrite path_parent_snoc in Hq).
  destruct ok; cbn [negb].
  - destruct (repair_ext_files env (assets_dir t) name w) as (_ & Hfr).
    destruct (repair_ext _ _ _) as [p' w2]. cbn [fst snd world] in *.
    rewrite Hfr by done. by apply Hother.
  - cbn [snd world]. by apply Hother.
Qed.

(** The link returned for a download that is counted leads to a path that exists. *)
Lemma get_local_downloaded_exists env t url h :
  downloaded (stats (get_local env t url h).2) = S (downloaded (stats h)) ->
  exists name, (get_local env t url h).1.1 = Some (relpath (assets_dir t ++ [name]) (md_dir t))
               /\ path_exists (files (world (get_local env t url h).2)) (assets_dir t ++ [name])
                  = true.
Proof.
  unfold get_local. destruct (url_to_rel t !! url) as [rel|]; [cbn; lia|].
  destruct (urlsplit_raises _ _); [cbn; lia|].
  set (name := filename_from_url url (S (counter t))).
  pose proof (download_image_ok_exists env url (assets_dir t ++ [name]) (token t) (world h))
    as Hok.
  destruct (download_image _ _ _ _ _) as [ok w]. cbn [fst snd] in *.
  destruct ok; cbn [negb].
  - destruct (repair_ext_files env (assets_dir t) name w) as ((name' & Hp & _ & Hex) & _).
    destruct (repair_ext _ _ _) as [p' w2]. cbn [fst snd stats world downloaded] in *.
    subst p'. intros _. exists name'. split; [done|]. apply Hex. by apply Hok.
  - cbn [fst snd stats world downloaded]. lia.
Qed.

(** X6. A call of [get_local] changes files in the assets directory of its tracker
    only: every path whose parent is another directory holds afterwards what it held
    before. When the call counts a download, the link it returns leads to a path in
    the assets directory that exists afterwards. *)
Theorem get_local_files env t url h :
  let r := get_local env t url h in
  (forall q, path_parent q <> assets_dir t ->
             files (world r.2) !! q = files (world h) !! q)
  /\ (downloaded (stats r.2) = S (downloaded (stats h)) ->
      exists name, r.1.1 = Some (relpath (assets_dir t ++ [name]) (md_dir t))
                   /\ path_exists (files (world r.2)) (assets_dir t ++ [name]) = true).
Proof.
  intros r. split.
  - intros q Hq. by apply get_local_other_files.
  - apply get_local_downloaded_exists.
Qed.

End tracker_more.

Section tracker_counts.
Context {M : Type}.
Implicit Types (t : ImageTracker M) (h : Heap M) (u url rel : string) (p q : path).

(** What one call does to the tracker: nothing on a hit; on a miss the counter and
    the number of attempts go up by one, and the URL enters the cache unless
    [urlsplit] rejects it and the call raises. *)
Lemma get_local_tracker env t url h :
  let r := get_local env t url h in
  assets_dir r.1.2 = assets_dir t /\ md_dir r.1.2 = md_dir t
  /\ token r.1.2 = token t /\ missing_cb r.1.2 = missing_cb t
  /\ match url_to_rel t !! url with
     | Some rel => r = (Some rel, t, h)
     | None => counter r.1.2 = S (counter t)
               /\ attempted (stats r.2) = S (attempted (stats h))
               /\ if accepted env url
                  then exists rel, r.1.1 = Some rel
                                   /\ url_to_rel r.1.2 = <[url := rel]> (url_to_rel t)
                  else r.1.1 = None /\ url_to_rel r.1.2 = url_to_rel t
     end.
Proof.
  destruct (url_to_rel t !! url) as [rel|] eqn:Hc.
  - by rewrite (get_local_hit env t url rel h Hc).
  - destruct (accepted env url) eqn:Hacc.
    + destruct (get_local_miss env t url h Hc Hacc) as (rel & w' & st' & m' & -> & _ & Ha & _).
      cbn. eauto 10.
    + by rewrite (get_local_rejected env t url h Hc Hacc).
Qed.

(** Which calls of a sequence raise: those for a URL that [urlsplit] rejects and the
    tracker did not hold at the start. *)
Lemma get_locals_none env t us h i u :
  us !! i = Some u ->
  (get_locals env t us h).1.1 !! i = Some None
  <-> url_to_rel t !! u = None /\ accepted env u = false.
Proof.
  revert t h i. induction us as [|v us IH]; intros t h i Hi; [by rewrite lookup_nil in Hi|].
  cbn [get_locals].
  pose proof (get_local_none env t v h) as Hnone.
  pose proof (get_local_tracker env t v h) as (_ & _ & _ & _ & Hstep).
  pose proof (get_local_other env t v h u) as Hother.
  destruct (get_local env t v h) as [[r1 t1] h1]. cbn [fst snd] in *.
  specialize (IH t1 h1). destruct (get_locals env t1 us h1) as [[rs t2] h2].
  cbn [fst snd] in *. destruct i as [|i]; simpl in Hi.
  - simplify_eq. cbn. rewrite <- Hnone. split; [by intros [= ->]|by intros ->].
  - cbn. rewrite (IH i Hi). destruct (decide (v = u)) as [->|Hne].
    + destruct (url_to_rel t !! u) as [rel|] eqn:Hc.
      * injection Hstep as _ -> _. by rewrite Hc.
      * destruct Hstep as (_ & _ & Hstep). destruct (accepted env u).
        -- split; by intros [_ ?].
        -- destruct Hstep as [_ ->]. by rewrite Hc.
    + destruct (Hother Hne) as [-> _]. done.
Qed.

End tracker_counts.

(* ===================================================================== *)
(** * Sequences of calls on one tracker                                  *)
(* ===================================================================== *)

Section resolved_facts.
Context {M : Type}.
Implicit Types (t : ImageTracker M) (h : Heap M) (st : ImageTracker M * Heap M).
Implicit Types (us : list string).

(** What the calls leave as they found it *)
Lemma resolved_fields env st us :
  assets_dir (resolved env st us).1 = assets_dir st.1
  /\ md_dir (resolved env st us).1 = md_dir st.1
  /\ token (resolved env st us).1 = token st.1
  /\ missing_cb (resolved env st us).1 = missing_cb st.1.
Proof.
  revert st. induction us as [|u us IH]; intros st; [by rewrite resolved_nil|].
  rewrite resolved_cons. destruct (IH (resolved env st [u])) as (-> & -> & -> & ->).
  rewrite resolved_one. cbn [fst].
  by pose proof (get_local_tracker env st.1 u st.2) as (-> & -> & -> & -> & _).
Qed.



Lemma replace_images_returns env text st :
  is_Some (replace_images env text st).1 ->
  forall u, u ∈ body_urls env text ->
    is_Some (url_to_rel st.1 !! u) \/ accepted env u = true.
Proof. rewrite replace_images_unfold. apply sub_segs_try_returns. Qed.

(** The state after [replace_images]: that after the calls of [get_local] for the
    URLs of the text, all of them when the call returns and those up to the one that
    raised when it raises. *)
Lemma replace_images_resolved env text st :
  exists us,
    us `prefix_of` body_urls env text
    /\ (replace_images env text st).2 = resolved env st us
    /\ (is_Some (replace_images env text st).1 -> us = body_urls env text).
Proof.
  rewrite replace_images_unfold. unfold body_urls.
  destruct (sub_segs_try_frame env (img_segments env text) st) as (_ & Hst & Hraise).
  destruct ((Re.sub_segs_try (repl env) (img_segments env text) st).1) as [out|] eqn:Hr.
  - exists (rewritten_urls (img_segments env text)). split; [done|]. split; [|done].
    apply Hst. eauto.
  - destruct (Hraise eq_refl) as (us & u & more & Hsplit & _ & _ & Heq).
    exists (us ++ [u]). split; [|split; [done|by intros [? ?]]].
    rewrite Hsplit. exists more. by rewrite <- app_assoc.
Qed.

End resolved_facts.

Section tracker_growth.
Context {M : Type}.
Implicit Types (t : ImageTracker M) (h : Heap M) (u url rel : string) (p q : path).

Lemma raised_cons r rels :
  raised (r :: rels) = (if bool_decide (r = None) then 1 else 0) + raised rels.
Proof. unfold raised. cbn [List.filter]. by case_bool_decide. Qed.

(** The cache, the counter and the attempts grow together. *)
Lemma get_locals_growth env t urls h :
  let r := get_locals env t urls h in
  dom (url_to_rel r.1.2) = dom (url_to_rel t) ∪ list_to_set (List.filter (accepted env) urls)
  /\ counter r.1.2 + size (url_to_rel t)
     = counter t + size (url_to_rel r.1.2) + raised r.1.1
  /\ attempted (stats r.2) + size (url_to_rel t)
     = attempted (stats h) + size (url_to_rel r.1.2) + raised r.1.1
  /\ length r.1.1 = length urls.
Proof.
  revert t h. induction urls as [|url urls IH]; intros t h.
  - cbn. split; [by rewrite (right_id_L ∅ (∪))|]. unfold raised. cbn. split; [lia|].
    split; [lia|done].
  - cbn [get_locals].
    pose proof (get_local_tracker env t url h) as (_ & _ & _ & _ & Hstep).
    destruct (get_local env t url h) as [[rel t1] h1]. cbn [fst snd] in *.
    specialize (IH t1 h1). destruct (get_locals env t1 urls h1) as [[rels t2] h2].
    cbn [fst snd] in *. destruct IH as (Hdom & Hcnt & Hatt & Hlen).
    assert (dom (url_to_rel t1)
            = dom (url_to_rel t) ∪ (if accepted env url then {[url]} else ∅)
            /\ counter t1 + size (url_to_rel t)
               = counter t + size (url_to_rel t1) + raised [rel]
            /\ attempted (stats h1) + size (url_to_rel t)
               = attempted (stats h) + size (url_to_rel t1) + raised [rel])
      as (Hd1 & Hc1 & Ha1).
    { destruct (url_to_rel t !! url) as [rel0|] eqn:Hc.
      - injection Hstep as -> -> ->. unfold raised. cbn. split; [|lia].
        apply elem_of_dom_2 in Hc. destruct (accepted env url).
        + apply set_eq. intros x. rewrite elem_of_union, elem_of_singleton.
          split; [tauto|]. by intros [?| ->].
        + by rewrite (right_id_L ∅ (∪)).
      - destruct Hstep as (-> & -> & Hstep). destruct (accepted env url).
        + destruct Hstep as (rel' & -> & ->).
          rewrite dom_insert_L, map_size_insert_None by done. unfold raised. cbn.
          split; [by rewrite (comm_L (∪))|]. lia.
        + destruct Hstep as [-> ->]. unfold raised. cbn.
          split; [by rewrite (right_id_L ∅ (∪))|]. lia. }
    rewrite raised_cons. unfold raised in Hc1, Ha1. cbn [List.filter] in Hc1, Ha1.
    cbn [List.filter]. rewrite Hdom, Hd1. split.
    + destruct (accepted env url).
      * by rewrite list_to_set_cons, (assoc_L (∪)).
      * by rewrite (right_id_L ∅ (∪)).
    + case_bool_decide; cbn [length] in Hc1, Ha1; repeat split; simpl; lia.
Qed.

(** X7. A tracker numbers the URLs it is asked for. After any sequence of calls the
    cache holds the URLs it held before and the URLs requested that [urlsplit]
    accepts; the fields set at construction (the two directories, the token and the
    callback) are unchanged; and the counter and the number of attempts have both
    grown by the growth of the cache, the number of accepted URLs that were new, and
    the number of calls that raised. There is one result per URL requested, and the
    calls that raise are those for a URL that [urlsplit] rejects and the tracker did
    not hold. On a new tracker the counter is the number of distinct accepted URLs
    requested plus the number of calls that raised; when every URL is accepted no
    call raises and it is the number of distinct URLs requested. *)
Theorem get_locals_counts env t urls h :
  let r := get_locals env t urls h in
  dom (url_to_rel r.1.2) = dom (url_to_rel t) ∪ list_to_set (List.filter (accepted env) urls)
  /\ counter r.1.2 + size (url_to_rel t)
     = counter t + size (url_to_rel r.1.2) + raised r.1.1
  /\ attempted (stats r.2) + size (url_to_rel t)
     = attempted (stats h) + size (url_to_rel r.1.2) + raised r.1.1
  /\ length r.1.1 = length urls
  /\ (forall i u, urls !! i = Some u ->
        (r.1.1 !! i = Some None <-> url_to_rel t !! u = None /\ accepted env u = false))
  /\ assets_dir r.1.2 = assets_dir t /\ md_dir r.1.2 = md_dir t
  /\ token r.1.2 = token t /\ missing_cb r.1.2 = missing_cb t
  /\ (url_to_rel t = ∅ -> counter t = 0 ->
      counter r.1.2
      = size (list_to_set (List.filter (accepted env) urls) : gset string) + raised r.1.1)
  /\ (Forall (fun u => accepted env u = true) urls ->
      raised r.1.1 = 0
      /\ (url_to_rel t = ∅ -> counter t = 0 ->
          counter r.1.2 = size (list_to_set urls : gset string))).
Proof.
  intros r. destruct (get_locals_growth env t urls h) as (Hdom & Hcnt & Hatt & Hlen).
  fold r in Hdom, Hcnt, Hatt, Hlen.
  destruct (resolved_fields env (t, h) urls) as (Ha & Hm & Htok & Hcb).
  assert (url_to_rel t = ∅ -> counter t = 0 ->
          counter r.1.2
          = size (list_to_set (List.filter (accepted env) urls) : gset string)
            + raised r.1.1) as Hnew.
  { intros Hempty Hzero. rewrite Hempty, dom_empty_L, (left_id_L ∅ (∪)) in Hdom.
    rewrite Hempty, map_size_empty, Hzero in Hcnt. rewrite <- Hdom, size_dom. lia. }
  split; [done|]. split; [done|]. split; [done|]. split; [done|].
  split; [intros i u Hi; by apply get_locals_none|].
  split; [exact Ha|]. split; [exact Hm|]. split; [exact Htok|]. split; [exact Hcb|].
  split; [exact Hnew|].
  intros Hall.
  assert (raised r.1.1 = 0) as Hzero.
  { unfold raised. apply length_zero_iff_nil.
    destruct (List.filter _ r.1.1) as [|x l] eqn:Hf; [done|exfalso].
    assert (x ∈ List.filter (fun r0 : option string => bool_decide (r0 = None)) r.1.1) as Hx
      by (rewrite Hf; left).
    apply list_elem_of_In, filter_In in Hx as [Hx Hn%bool_decide_eq_true].
    subst x. apply list_elem_of_In, list_elem_of_lookup in Hx as [i Hi].
    destruct (lookup_lt_is_Some_2 urls i) as [u Hu]; [rewrite <- Hlen; by eapply lookup_lt_Some|].
    apply (get_locals_none env t urls h i u Hu) in Hi as [_ Hrej].
    rewrite Forall_forall in Hall. rewrite (Hall u) in Hrej; [done|].
    by eapply list_elem_of_lookup_2. }
  split; [done|]. intros Hempty Hz. rewrite (Hnew Hempty Hz), Hzero, Nat.add_0_r.
  f_equal. f_equal. clear -Hall. induction Hall as [|u us Hu _ IH]; [done|].
  cbn [List.filter]. by rewrite Hu, IH.
Qed.

(** What the cache holds after a sequence of calls was there before or is a URL
    that [urlsplit] accepts. *)
Lemma resolved_cached_or_accepted env (st : ImageTracker M * Heap M) us u :
  is_Some (url_to_rel (resolved env st us).1 !! u) ->
  is_Some (url_to_rel st.1 !! u) \/ accepted env u = true.
Proof.
  destruct (get_locals_growth env st.1 us st.2) as (Hdom & _).
  rewrite <- !elem_of_dom. unfold resolved. cbn [fst]. rewrite Hdom, elem_of_union.
  intros [?|Hin]; [by left|right].
  by apply elem_of_list_to_set, list_elem_of_In, filter_In in Hin as [_ ?].
Qed.

End tracker_growth.

Section layout.
Context {M : Type}.
Implicit Types (t : ImageTracker M) (h : Heap M) (u url rel : string) (p q : path).

Lemma common_prefix_len_app root a b :
  common_prefix_len (root ++ a) (root ++ b) = length root + common_prefix_len a b.
Proof. induction root as [|x root IH]; [done|]. simpl. by rewrite bool_decide_true, IH. Qed.

Lemma relpath_layout out_repo kind num name :
  kind <> "assets" ->
  relpath ((out_repo ++ ["assets"; kind; num]) ++ [name]) (out_repo ++ [kind])
  = asset_link kind num name.
Proof.
  intros Hk. unfold relpath. rewrite <- (app_assoc out_repo), common_prefix_len_app.
  cbn [common_prefix_len app]. rewrite bool_decide_false by done.
  rewrite length_app, Nat.add_0_r. cbn [length].
  replace (length out_repo + 1 - length out_repo) with 1 by lia.
  rewrite drop_app_length. cbn [replicate app Py.join]. unfold asset_link.
  by repeat (rewrite ?app_cons, ?app_nil_l).
Qed.

Lemma app_inv_head_str a b c : a +:+ b = a +:+ c -> b = c.
Proof. induction a as [|x a IH]; [by rewrite !app_nil_l|]. rewrite !app_cons. by intros [= ?%IH]. Qed.

Lemma asset_link_inj kind num a b : asset_link kind num a = asset_link kind num b -> a = b.
Proof.
  unfold asset_link. rewrite <- !app_assoc'.
  apply app_inv_head_str.
Qed.

Lemma take_app_ge n a b : Py.len a <= n -> Py.take n (a +:+ b) = a +:+ Py.take (n - Py.len a) b.
Proof.
  revert n. induction a as [|x a IH]; intros n Hn.
  - rewrite !app_nil_l. simpl. by rewrite Nat.sub_0_r.
  - destruct n as [|n]; [simpl in Hn; lia|]. rewrite !app_cons. simpl. rewrite IH; [done|].
    unfold Py.len in *. simpl in Hn. lia.
Qed.

Lemma drop_app_lt i a b c r :
  i < Py.len a -> Py.drop i (a +:+ b) = String c r -> c ∈ Py.chars a.
Proof.
  revert i. induction a as [|x a IH]; intros i Hi; [simpl in Hi; lia|].
  rewrite app_cons. destruct i as [|i]; simpl.
  - intros [= <- _]. left.
  - intros H. right. apply (IH i); [simpl in Hi; lia|done].
Qed.

Lemma take_len s : Py.take (Py.len s) s = s.
Proof. induction s as [|c s IH]; [done|]. simpl. by rewrite IH. Qed.

(** Changing the suffix of a name keeps what precedes its first dot. *)
Lemma name_with_suffix_prefix a b e :
  Forall (fun c => c <> "."%char) (Py.chars a) ->
  exists rest, name_with_suffix (a +:+ b) e = a +:+ rest.
Proof.
  intros Ha. unfold name_with_suffix, name_suffix.
  destruct (Py.rfind_char "." (a +:+ b)) as [i|] eqn:Hr.
  - destruct (_ && _) eqn:Hc.
    + apply andb_true_iff in Hc as [_ Hi%Nat.ltb_lt].
      destruct (rfind_char_drop _ _ _ Hr) as [r Hd].
      assert (Py.len a <= i) as Hge.
      { destruct (decide (i < Py.len a)) as [Hlt|]; [|lia]. exfalso.
        pose proof (drop_app_lt _ _ _ _ _ Hlt Hd) as Hin.
        rewrite Forall_forall in Ha. by apply (Ha _ Hin). }
      rewrite len_drop. replace (Py.len (a +:+ b) - (Py.len (a +:+ b) - i)) with i by lia.
      rewrite take_app_ge by done. rewrite app_assoc'. eauto.
    + change (Py.len EmptyString) with 0. rewrite Nat.sub_0_r, take_len, app_assoc'. eauto.
  - change (Py.len EmptyString) with 0. rewrite Nat.sub_0_r, take_len, app_assoc'. eauto.
Qed.

Lemma numbered_prefix_no_dot k :
  Forall (fun c => c <> "."%char) (Py.chars (Py.format_03d k +:+ "_")).
Proof.
  rewrite chars_app. apply Forall_app. split; [|by repeat constructor].
  eapply Forall_impl; [apply format_03d_digits|]. by intros c Hc ->.
Qed.

Lemma filename_numbered url k :
  exists rest, filename_from_url url k = (Py.format_03d k +:+ "_") +:+ rest.
Proof. rewrite filename_from_url_eq. cbv zeta. eexists. by rewrite app_assoc'. Qed.

Lemma accepted_true env url :
  accepted env url = true -> urlsplit_raises (host_refused env) url = false.
Proof. unfold accepted. by intros ?%negb_true_iff. Qed.

(** X8. In the layout of an export, a first call of [get_local] for a URL that
    [urlsplit] accepts returns the link [../assets/<kind>/<num>/<name>], where the
    name starts with the number of the download, the counter after the call, in three
    digits or more, and an underscore. When the download fails the name is the one
    synthesised from the URL; when it succeeds it is that name, or that name with
    another suffix. A first call for a URL that [urlsplit] rejects returns no link:
    it raises, with the counter and the number of attempts one higher. *)
Theorem get_local_link_in_layout env t url h out_repo kind num :
  export_layout t out_repo kind num ->
  url_to_rel t !! url = None ->
  let r := get_local env t url h in
  let fname := filename_from_url url (S (counter t)) in
  (accepted env url = true ->
   exists name rest,
     r.1.1 = Some (asset_link kind num name)
     /\ name = Py.format_03d (S (counter t)) +:+ "_" +:+ rest
     /\ (name = fname \/ exists e, name = name_with_suffix fname e)
     /\ (failed (stats r.2) = S (failed (stats h)) -> name = fname))
  /\ (accepted env url = false -> r = (None, counted t, attempt_counted h)).
Proof.
  intros (Ha & Hm & Hk) Hmiss r fname. split; [|by apply get_local_rejected].
  intros Hacc%accepted_true. subst r. unfold get_local. rewrite Hmiss, Hacc. fold fname.
  destruct (filename_numbered url (S (counter t))) as [rest Hrest]. fold fname in Hrest.
  destruct (download_image _ _ _ _ _) as [ok w]. destruct ok; cbn [negb].
  - destruct (repair_ext_files env (assets_dir t) fname w) as ((name' & Hp & Hn & _) & _).
    destruct (repair_ext _ _ _) as [p' w2]. cbn [fst snd stats failed] in *. subst p'.
    rewrite Ha, Hm, relpath_layout by done.
    destruct Hn as [->|[e ->]].
    + exists fname, rest. split; [done|]. split; [by rewrite <- app_assoc'|]. split; [by left|done].
    + rewrite Hrest.
      destruct (name_with_suffix_prefix (Py.format_03d (S (counter t)) +:+ "_") rest e
                  (numbered_prefix_no_dot _)) as [rest' Hr'].
      exists (name_with_suffix (Py.format_03d (S (counter t)) +:+ "_" +:+ rest) e), rest'.
      rewrite <- !app_assoc'. split; [done|]. split; [done|]. split; [eauto|]. lia.
  - cbn [fst snd stats failed]. rewrite Ha, Hm, relpath_layout by done.
    exists fname, rest. split; [done|]. split; [by rewrite <- app_assoc'|]. split; [by left|done].
Qed.

Lemma numbered_link_index kind num k1 k2 rest1 rest2 :
  asset_link kind num (Py.format_03d k1 +:+ "_" +:+ rest1)
  = asset_link kind num (Py.format_03d k2 +:+ "_" +:+ rest2) -> k1 = k2.
Proof.
  intros H%asset_link_inj. rewrite !app_cons, !app_nil_l in H.
  apply digits_prefix_unique in H; [|apply format_03d_digits..].
  apply (f_equal Py.value) in H. rewrite !format_03d_int in H. lia.
Qed.

(** The link of a first call carries the number of the download. *)
Lemma get_local_numbered_link env t url h out_repo kind num :
  export_layout t out_repo kind num ->
  url_to_rel t !! url = None -> accepted env url = true ->
  exists rest,
    (get_local env t url h).1.1
    = Some (asset_link kind num (Py.format_03d (S (counter t)) +:+ "_" +:+ rest)).
Proof.
  intros (Ha & Hm & Hk) Hmiss Hacc%accepted_true. unfold get_local. rewrite Hmiss, Hacc.
  set (fname := filename_from_url url (S (counter t))).
  destruct (filename_numbered url (S (counter t))) as [rest Hrest]. fold fname in Hrest.
  destruct (download_image _ _ _ _ _) as [ok w]. destruct ok; cbn [negb].
  - destruct (repair_ext_files env (assets_dir t) fname w) as ((name' & Hp & Hn & _) & _).
    destruct (repair_ext _ _ _) as [p' w2]. cbn [fst snd] in *. subst p'.
    rewrite Ha, Hm, relpath_layout by done.
    destruct Hn as [->|[e ->]].
    + exists rest. by rewrite Hrest, app_assoc'.
    + rewrite Hrest.
      destruct (name_with_suffix_prefix (Py.format_03d (S (counter t)) +:+ "_") rest e
                  (numbered_prefix_no_dot _)) as [rest' ->].
      exists rest'. by rewrite app_assoc'.
  - cbn [fst snd]. rewrite Ha, Hm, relpath_layout by done.
    exists rest. by rewrite Hrest, app_assoc'.
Qed.

Lemma get_local_links_numbered env t url h out_repo kind num :
  export_layout t out_repo kind num ->
  links_numbered t kind num ->
  links_numbered (get_local env t url h).1.2 kind num.
Proof.
  intros Hlay [Hnum Hinj].
  pose proof (get_local_tracker env t url h) as (_ & _ & _ & _ & Hstep).
  destruct (url_to_rel t !! url) as [rel0|] eqn:Hc.
  { rewrite Hstep. by split. }
  destruct Hstep as (Hcnt & _ & Hstep).
  destruct (accepted env url) eqn:Hacc.
  2:{ destruct Hstep as [_ Hcache]. unfold links_numbered. rewrite Hcache, Hcnt. split.
      - intros u rel Hu. destruct (Hnum _ _ Hu) as (k & rest' & Hk & ->).
        exists k, rest'. split; [lia|done].
      - exact Hinj. }
  destruct (get_local_numbered_link env t url h out_repo kind num Hlay Hc Hacc) as (rest & Hrel).
  destruct Hstep as (rel & Hrel' & Hcache). rewrite Hrel in Hrel'. injection Hrel' as <-.
  unfold links_numbered. rewrite Hcache, Hcnt.
  assert (forall v, url_to_rel t !! v
                    <> Some (asset_link kind num
                               (Py.format_03d (S (counter t)) +:+ "_" +:+ rest))) as Hfresh.
  { intros v Hv. destruct (Hnum _ _ Hv) as (k & rest' & Hk & Heq).
    apply numbered_link_index in Heq. lia. }
  split.
  - intros u rel. destruct (decide (u = url)) as [->|Hne].
    + rewrite lookup_insert_eq. intros [= <-]. exists (S (counter t)), rest. split; [lia|done].
    + rewrite lookup_insert_ne by done. intros Hu.
      destruct (Hnum _ _ Hu) as (k & rest' & Hk & ->). exists k, rest'. split; [lia|done].
  - intros u v rel. destruct (decide (u = url)) as [->|Hu], (decide (v = url)) as [->|Hv];
      rewrite ?lookup_insert_eq, ?lookup_insert_ne by done.
    + done.
    + intros [= <-] Hv'. by apply Hfresh in Hv'.
    + intros Hu' [= <-]. by apply Hfresh in Hu'.
    + apply Hinj.
Qed.

(** X9. No two images of a document share a file. On a tracker created in the layout
    of an export, after any sequence of calls, two different URLs are never resolved to
    the same link, and every link is [../assets/<kind>/<num>/<k>_...] for a number [k]
    between 1 and the counter, written with three digits or more. *)
Theorem tracker_links_distinct env out_repo kind num tok cb urls h :
  kind <> "assets" ->
  let t0 : ImageTracker M :=
    ImageTracker_init (out_repo ++ ["assets"; kind; num]) (out_repo ++ [kind]) tok cb in
  let t := (get_locals env t0 urls h).1.2 in
  (forall u v rel, url_to_rel t !! u = Some rel -> url_to_rel t !! v = Some rel -> u = v)
  /\ (forall u rel, url_to_rel t !! u = Some rel ->
        exists k rest, 1 <= k <= counter t
                       /\ rel = asset_link kind num (Py.format_03d k +:+ "_" +:+ rest)).
Proof.
  intros Hk t0 t.
  assert (forall urls (t : ImageTracker M) h,
            export_layout t out_repo kind num -> links_numbered t kind num ->
            links_numbered (get_locals env t urls h).1.2 kind num) as Hall.
  { clear -Hk. induction urls as [|url urls IH]; intros t h Hlay Hinv; [done|].
    cbn [get_locals].
    pose proof (get_local_links_numbered env t url h _ _ _ Hlay Hinv) as Hinv1.
    pose proof (get_local_tracker env t url h) as (Ha & Hm & _).
    destruct (get_local env t url h) as [[rel t1] h1]. cbn [fst snd] in *.
    assert (export_layout t1 out_repo kind num) as Hlay1.
    { destruct Hlay as (? & ? & ?). unfold export_layout. rewrite Ha, Hm. done. }
    specialize (IH t1 h1 Hlay1 Hinv1).
    by destruct (get_locals env t1 urls h1) as [[rels t2] h2]. }
  destruct (Hall urls t0 h) as [Hnum Hinj]; [done|by split|].
  split; [exact Hinj|exact Hnum].
Qed.

End layout.

Lemma tracker_links_distinct_witness :
  "issues" <> "assets"
  /\ forall u v rel,
       url_to_rel (get_locals sample_env sample_tracker
                     [sample_url; "https://h/a.png"; sample_url] empty_heap).1.2 !! u = Some rel ->
       url_to_rel (get_locals sample_env sample_tracker
                     [sample_url; "https://h/a.png"; sample_url] empty_heap).1.2 !! v = Some rel ->
       u = v.
Proof.
  split; [discriminate|].
  apply (tracker_links_distinct sample_env ["export"; "o_r"] "issues" "5" None
           (Some record_pair) [sample_url; "https://h/a.png"; sample_url] empty_heap).
  discriminate.
Defined.

Lemma get_local_link_in_layout_witness :
  export_layout sample_tracker ["export"; "o_r"] "issues" "5"
  /\ url_to_rel sample_tracker !! sample_url = None
  /\ accepted sample_env sample_url = true
  /\ exists name rest,
       (get_local sample_env sample_tracker sample_url empty_heap).1.1
       = Some (asset_link "issues" "5" name)
       /\ name = Py.format_03d 1 +:+ "_" +:+ rest.
Proof.
  assert (export_layout sample_tracker ["export"; "o_r"] "issues" "5") as Hlay.
  { split; [reflexivity|]. split; [reflexivity|discriminate]. }
  split; [exact Hlay|]. split; [reflexivity|]. split; [reflexivity|].
  destruct (get_local_link_in_layout sample_env sample_tracker sample_url empty_heap
              ["export"; "o_r"] "issues" "5" Hlay eq_refl) as [Hacc _].
  destruct (Hacc eq_refl) as (name & rest & Hrel & Hname & _).
  exists name, rest. split; [exact Hrel|exact Hname].
Defined.

(* ===================================================================== *)
(** * Cross references between issues and pull requests                  *)
(* ===================================================================== *)

Section related_more.
Local Open Scope N_scope.
Implicit Types (known related : gset N) (m : Re.rmatch) (n : N).

Lemma sorted_le_NoDup_lt (l : list N) :
  StronglySorted N.le l -> NoDup l -> StronglySorted N.lt l.
Proof.
  induction 1 as [|x l Hs IH Hall]; intros Hnd; [constructor|].
  apply NoDup_cons in Hnd as [Hx Hnd]. constructor; [by apply IH|].
  rewrite Forall_forall in *. intros y Hy. specialize (Hall y Hy).
  assert (x <> y) by (intros ->; by apply Hx, list_elem_of_In). lia.
Qed.

(** [sorted(related)] on a set of numbers: strictly ascending, with the elements of
    the set *)
Lemma sorted_set_lt related :
  StronglySorted N.lt (merge_sort N.le (elements related))
  /\ forall n, n ∈ merge_sort N.le (elements related) <-> n ∈ related.
Proof.
  split.
  - apply sorted_le_NoDup_lt; [apply StronglySorted_merge_sort; apply _|].
    rewrite merge_sort_Permutation. apply NoDup_elements.
  - intros n. by rewrite merge_sort_Permutation, elem_of_elements.
Qed.

Lemma foldl_try_app {A B : Type} (step : A -> B -> option A) init (l1 l2 : list B) :
  foldl_try step init (l1 ++ l2) = foldl_try step init l1 ≫= fun a => foldl_try step a l2.
Proof.
  unfold foldl_try. rewrite foldl_app. destruct (foldl _ (Some init) l1); [done|].
  apply foldl_try_none.
Qed.

(** A loop over a set of numbers whose turns raise, on an element that is [bad], or
    add numbers: it raises if some element is bad, and otherwise the numbers at the
    end are those of the start and those that some element adds. *)
Lemma foldl_try_elem {B : Type} (step : gset N -> B -> option (gset N))
    (bad : B -> Prop) (adds : B -> N -> Prop) related (l : list B) :
  (forall related x,
     match step related x with
     | None => bad x
     | Some related' => ~ bad x /\ forall n, n ∈ related' <-> n ∈ related \/ adds x n
     end) ->
  match foldl_try step related l with
  | None => exists x, x ∈ l /\ bad x
  | Some related' =>
      (forall x, x ∈ l -> ~ bad x)
      /\ forall n, n ∈ related' <-> n ∈ related \/ exists x, x ∈ l /\ adds x n
  end.
Proof.
  intros Hstep. revert related. induction l as [|x l IH]; intros related.
  - cbn. split; [by intros x ?%elem_of_nil|]. intros n. split; [by left|].
    intros [?|(x & Hx & _)]; [done|]. by apply elem_of_nil in Hx.
  - rewrite foldl_try_cons. specialize (Hstep related x).
    destruct (step related x) as [r1|]; cbn [mbind option_bind].
    + destruct Hstep as [Hok Hr1]. specialize (IH r1).
      destruct (foldl_try step r1 l) as [r2|].
      * destruct IH as [Hall Hr2]. split.
        -- intros y [->|Hy]%elem_of_cons; [done|by apply Hall].
        -- intros n. rewrite Hr2, Hr1. split.
           ++ intros [[?|?]|(y & ? & ?)]; [by left|right; exists x|right; exists y];
                (split; [|done]); [left|by right].
           ++ intros [?|(y & [->|?]%elem_of_cons & ?)]; [by left; left|by left; right|].
              right. by exists y.
      * destruct IH as (y & Hy & Hbad). exists y. split; [by right|done].
    + exists x. split; [left|done].
Qed.

Lemma match_num_none m :
  match_num m = None
  <-> (Py.max_str_digits < Py.len (default EmptyString (Re.group m "num")))%nat.
Proof.
  unfold match_num, Py.int. destruct (Nat.ltb_spec Py.max_str_digits
                                        (Py.len (default EmptyString (Re.group m "num")))).
  - done.
  - split; [done|lia].
Qed.

Lemma add_known_step known related m :
  match add_known known related m with
  | None => match_num m = None
  | Some related' =>
      match_num m <> None
      /\ forall n, n ∈ related' <-> n ∈ related \/ (n ∈ known /\ match_num m = Some n)
  end.
Proof.
  unfold add_known. destruct (match_num m) as [num|]; cbn [mbind option_bind]; [|done].
  split; [done|]. intros n. case_bool_decide as Hk.
  - rewrite elem_of_union, elem_of_singleton. split.
    + intros [?| ->]; [by left|by right].
    + intros [?|[_ [= ->]]]; [by left|by right].
  - split; [by left|]. intros [?|[? [= ->]]]; done.
Qed.

(** The matches that one text contributes *)
Lemma related_prs_step_fold known pat related text :
  related_prs_step known pat related text
  = foldl_try (add_known known) related
      (Re.finditer pat text ++ Re.finditer PR_CONTEXT_PATTERN text).
Proof.
  unfold related_prs_step. destruct text as [|c text]; [done|]. by rewrite foldl_try_app.
Qed.

Lemma related_prs_step_step known pat related text :
  match related_prs_step known pat related text with
  | None => exists m, (m ∈ Re.finditer pat text \/ m ∈ Re.finditer PR_CONTEXT_PATTERN text)
                      /\ match_num m = None
  | Some related' =>
      ~ (exists m, (m ∈ Re.finditer pat text \/ m ∈ Re.finditer PR_CONTEXT_PATTERN text)
                   /\ match_num m = None)
      /\ forall n, n ∈ related'
           <-> n ∈ related
               \/ (n ∈ known
                   /\ exists m, (m ∈ Re.finditer pat text
                                 \/ m ∈ Re.finditer PR_CONTEXT_PATTERN text)
                                /\ match_num m = Some n)
  end.
Proof.
  rewrite related_prs_step_fold.
  pose proof (foldl_try_elem (add_known known) (fun m => match_num m = None)
                (fun m n => n ∈ known /\ match_num m = Some n) related
                (Re.finditer pat text ++ Re.finditer PR_CONTEXT_PATTERN text)
                (fun related m => add_known_step known related m)) as H.
  destruct (foldl_try _ _ _) as [related'|].
  - destruct H as [Hall Hr]. split.
    + intros (m & Hm & Hbad). apply (Hall m); [|done]. by apply elem_of_app.
    + intros n. rewrite Hr. split.
      * intros [?|(m & Hm%elem_of_app & ? & ?)]; [by left|]. right. split; [done|]. by exists m.
      * intros [?|(? & m & Hm & ?)]; [by left|]. right. exists m.
        split; [by apply elem_of_app|done].
  - destruct H as (m & Hm%elem_of_app & Hbad). by exists m.
Qed.

(** X10. Of texts and repository names of ASCII characters. [find_related_prs]
    raises exactly when some text mentions a pull request, by a URL of a pull request
    of this repository or by a keyword ([pr], [pull request], [pull], [merge]) before
    [#n], with a number of more than 4300 digits, which [int] refuses. Otherwise it
    returns, in strictly ascending order, exactly the known pull-request numbers that
    some text mentions in one of these ways. The result depends on which texts there
    are, not on their order or number: two lists with the same texts give the same
    result. *)
Theorem find_related_prs_spec (texts : list string) known (owner repo : string) :
  Forall (fun text => Py.is_ascii text = true) texts ->
  Py.is_ascii owner = true -> Py.is_ascii repo = true ->
  (find_related_prs texts known owner repo = None
   <-> exists text m,
         text ∈ texts
         /\ (m ∈ Re.finditer (pr_url_pattern owner repo) text
             \/ m ∈ Re.finditer PR_CONTEXT_PATTERN text)
         /\ (Py.max_str_digits < Py.len (default EmptyString (Re.group m "num")))%nat)
  /\ (forall l, find_related_prs texts known owner repo = Some l ->
        StronglySorted N.lt l
        /\ forall n, n ∈ l
             <-> n ∈ known
                 /\ exists text m,
                      text ∈ texts
                      /\ (m ∈ Re.finditer (pr_url_pattern owner repo) text
                          \/ m ∈ Re.finditer PR_CONTEXT_PATTERN text)
                      /\ match_num m = Some n)
  /\ (forall texts', (forall text, text ∈ texts <-> text ∈ texts') ->
        find_related_prs texts' known owner repo = find_related_prs texts known owner repo).
Proof.
  intros _ _ _. unfold find_related_prs. cbv zeta.
  set (pat := pr_url_pattern owner repo).
  set (bad := fun text : string =>
                exists m, (m ∈ Re.finditer pat text \/ m ∈ Re.finditer PR_CONTEXT_PATTERN text)
                          /\ match_num m = None).
  set (adds := fun (text : string) n =>
                 n ∈ known
                 /\ exists m, (m ∈ Re.finditer pat text
                               \/ m ∈ Re.finditer PR_CONTEXT_PATTERN text)
                              /\ match_num m = Some n).
  assert (forall l : list string,
            match foldl_try (related_prs_step known pat) ∅ l with
            | None => exists x, x ∈ l /\ bad x
            | Some related' =>
                (forall x, x ∈ l -> ~ bad x)
                /\ forall n, n ∈ related' <-> n ∈ (∅ : gset N) \/ exists x, x ∈ l /\ adds x n
            end) as Hfold.
  { intros l. apply foldl_try_elem. intros related text.
    apply related_prs_step_step. }
  split; [|split].
  - pose proof (Hfold texts) as H. destruct (foldl_try _ _ texts) as [related|]; cbn.
    + destruct H as [Hall _]. split; [done|]. intros (text & m & Ht & Hm & Hlen).
      exfalso. apply (Hall text Ht). exists m. split; [done|]. by apply match_num_none.
    + split; [|done]. intros _. destruct H as (text & Ht & m & Hm & Hbad).
      exists text, m. split; [done|]. split; [done|]. by apply match_num_none.
  - intros l. pose proof (Hfold texts) as H.
    destruct (foldl_try _ _ texts) as [related|]; cbn; [|done]. intros [= <-].
    split; [apply sorted_set_lt|]. intros n. destruct H as [_ Hr].
    rewrite (proj2 (sorted_set_lt _)), Hr. split.
    + intros [Hn|(text & Ht & ? & m & ? & ?)]; [by apply elem_of_empty in Hn|].
      split; [done|]. by exists text, m.
    + intros (? & text & m & ? & ? & ?). right. exists text. split; [done|].
      split; [done|]. by exists m.
  - intros texts' Hsame. pose proof (Hfold texts) as H. pose proof (Hfold texts') as H'.
    destruct (foldl_try _ _ texts) as [related|], (foldl_try _ _ texts') as [related'|]; cbn.
    + do 3 f_equal. apply set_eq. intros n. destruct H as [_ Hr], H' as [_ Hr'].
      rewrite Hr, Hr'.
      split; (intros [?|(text & Ht & ?)]; [by left|]; right; exists text;
              split; [by apply Hsame|done]).
    + exfalso. destruct H as [Hall _], H' as (text & Ht & Hbad).
      apply (Hall text); [by apply Hsame|done].
    + exfalso. destruct H' as [Hall _], H as (text & Ht & Hbad).
      apply (Hall text); [by apply Hsame|done].
    + done.
Qed.

Lemma related_step_step known owner repo related m :
  match related_step known owner repo related m with
  | None => match_num m = None
  | Some related' =>
      match_num m <> None
      /\ forall n, n ∈ related'
           <-> n ∈ related
               \/ (n ∈ known /\ names_repo owner repo m = true /\ match_num m = Some n)
  end.
Proof.
  unfold related_step, names_repo, match_num. cbv zeta.
  destruct (Py.int _) as [num|]; cbn [mbind option_bind]; [|done].
  destruct (_ && _ && _); cbn [negb].
  - split; [done|]. intros n. split; [by left|]. by intros [?|(_ & ? & _)].
  - case_bool_decide as Hk; (split; [done|]); intros n.
    + rewrite elem_of_union, elem_of_singleton. split.
      * intros [?| ->]; [by left|by right].
      * intros [?|(_ & _ & [= ->])]; [by left|by right].
    + split; [by left|]. intros [?|(? & _ & [= ->])]; done.
Qed.

(** X11. Of a body and repository names of ASCII characters. [find_related_issues]
    raises exactly when a number that follows a closing keyword in the body has more
    than 4300 digits, which [int] refuses. Otherwise it returns, in strictly
    ascending order, exactly the known issue numbers that follow a closing keyword in
    the body, where a keyword that names a repository counts only if it names this
    one. Owner and repository are compared without regard to letter case. *)
Theorem find_related_issues_spec (body : string) known (owner repo : string) :
  Py.is_ascii body = true -> Py.is_ascii owner = true -> Py.is_ascii repo = true ->
  (find_related_issues body known owner repo = None
   <-> exists m, m ∈ Re.finditer ISSUE_FIX_PATTERN body
                 /\ (Py.max_str_digits < Py.len (default EmptyString (Re.group m "num")))%nat)
  /\ (forall l, find_related_issues body known owner repo = Some l ->
        StronglySorted N.lt l
        /\ forall n, n ∈ l
             <-> n ∈ known
                 /\ exists m, m ∈ Re.finditer ISSUE_FIX_PATTERN body
                      /\ names_repo owner repo m = true /\ match_num m = Some n)
  /\ (forall owner' repo',
        Py.is_ascii owner' = true -> Py.is_ascii repo' = true ->
        Py.lower owner' = Py.lower owner -> Py.lower repo' = Py.lower repo ->
        find_related_issues body known owner' repo'
        = find_related_issues body known owner repo).
Proof.
  intros _ _ _.
  assert (Re.finditer ISSUE_FIX_PATTERN EmptyString = []) as Hempty by (vm_compute; reflexivity).
  pose proof (foldl_try_elem (related_step known owner repo) (fun m => match_num m = None)
                (fun m n => n ∈ known /\ names_repo owner repo m = true /\ match_num m = Some n)
                ∅ (Re.finditer ISSUE_FIX_PATTERN body)
                (fun related m => related_step_step known owner repo related m)) as H.
  split; [|split].
  - unfold find_related_issues. destruct body as [|c body].
    { rewrite Hempty. split; [done|]. by intros (m & ?%elem_of_nil & _). }
    destruct (foldl_try _ _ _) as [related|]; cbn.
    + destruct H as [Hall _]. split; [done|]. intros (m & Hm & Hlen). exfalso.
      apply (Hall m Hm). by apply match_num_none.
    + split; [|done]. intros _. destruct H as (m & Hm & Hbad). exists m. split; [done|].
      by apply match_num_none.
  - intros l. unfold find_related_issues. destruct body as [|c body].
    { intros [= <-]. split; [constructor|]. intros n. rewrite Hempty.
      split; [by intros ?%elem_of_nil|]. by intros (_ & m & ?%elem_of_nil & _). }
    destruct (foldl_try _ _ _) as [related|]; cbn; [|done]. intros [= <-].
    split; [apply sorted_set_lt|]. intros n. destruct H as [_ Hr].
    rewrite (proj2 (sorted_set_lt _)), Hr. split.
    + intros [Hn|(m & ? & ? & ? & ?)]; [by apply elem_of_empty in Hn|].
      split; [done|]. by exists m.
    + intros (? & m & ? & ? & ?). right. by exists m.
  - intros owner' repo' _ _ Ho Hr. unfold find_related_issues, related_step.
    by rewrite Ho, Hr.
Qed.

End related_more.

(** An instance of [find_related_prs_spec]: two texts that mention the pull requests
    7 and 9, and 12 which is not known. *)
Lemma find_related_prs_spec_witness :
  Forall (fun text => Py.is_ascii text = true)
    ["see PR #9 and pull request #12"; "as in https://github.com/O/r/pull/7"]
  /\ Py.is_ascii "o" = true /\ Py.is_ascii "r" = true
  /\ find_related_prs ["see PR #9 and pull request #12"; "as in https://github.com/O/r/pull/7"]
       {[7%N; 9%N]} "o" "r" = Some [7%N; 9%N]
  /\ StronglySorted N.lt [7%N; 9%N].
Proof.
  assert (Forall (fun text => Py.is_ascii text = true)
            ["see PR #9 and pull request #12"; "as in https://github.com/O/r/pull/7"])
    as Hascii by (repeat constructor).
  assert (find_related_prs
            ["see PR #9 and pull request #12"; "as in https://github.com/O/r/pull/7"]
            {[7%N; 9%N]} "o" "r" = Some [7%N; 9%N]) as Hrun by (vm_compute; reflexivity).
  split; [exact Hascii|]. split; [reflexivity|]. split; [reflexivity|].
  split; [exact Hrun|].
  destruct (find_related_prs_spec
              ["see PR #9 and pull request #12"; "as in https://github.com/O/r/pull/7"]
              {[7%N; 9%N]} "o" "r" Hascii eq_refl eq_refl) as (_ & Hsome & _).
  exact (proj1 (Hsome _ Hrun)).
Defined.

(** An instance of [find_related_issues_spec]: the body closes the issues 3 and 5 of
    this repository and the issue 4 of another. *)
Lemma find_related_issues_spec_witness :
  Py.is_ascii "Fixes #5, closes O/R#3 and resolves x/y#4" = true
  /\ Py.is_ascii "o" = true /\ Py.is_ascii "r" = true
  /\ find_related_issues "Fixes #5, closes O/R#3 and resolves x/y#4" {[3%N; 4%N; 5%N]} "o" "r"
     = Some [3%N; 5%N]
  /\ StronglySorted N.lt [3%N; 5%N].
Proof.
  assert (find_related_issues "Fixes #5, closes O/R#3 and resolves x/y#4" {[3%N; 4%N; 5%N]}
            "o" "r" = Some [3%N; 5%N]) as Hrun by (vm_compute; reflexivity).
  split; [reflexivity|]. split; [reflexivity|]. split; [reflexivity|].
  split; [exact Hrun|].
  destruct (find_related_issues_spec "Fixes #5, closes O/R#3 and resolves x/y#4"
              {[3%N; 4%N; 5%N]} "o" "r" eq_refl eq_refl eq_refl) as (_ & Hsome & _).
  exact (proj1 (Hsome _ Hrun)).
Defined.
(* ===================================================================== *)
(** * Lines joined and split                                             *)
(* ===================================================================== *)

Section lines.
Implicit Types (c : ascii) (s cur : string) (parts : list string).

Lemma split_go_line c cur s rest :
  Forall (fun a => a <> c) (Py.chars s) ->
  Py.split_go c cur (s +:+ rest) = Py.split_go c (cur +:+ s) rest.
Proof.
  revert cur. induction s as [|a s IH]; intros cur Hs.
  - by rewrite app_nil_l, app_empty_r.
  - inversion Hs; subst. rewrite app_cons. simpl. rewrite bool_decide_false by done.
    rewrite IH by done. by rewrite app_assoc', app_cons, app_nil_l.
Qed.

(** Joining lines with a separator that none of them holds and splitting at the
    separator gives the lines back. *)
Lemma split_join c parts :
  parts <> [] ->
  Forall (fun s => Forall (fun a => a <> c) (Py.chars s)) parts ->
  Py.split c (Py.join (String c EmptyString) parts) = parts.
Proof.
  intros Hne Hall. unfold Py.split. induction parts as [|s parts IH]; [done|].
  inversion Hall as [|? ? Hs Hrest]; subst. destruct parts as [|s' parts].
  - simpl. rewrite <- (app_empty_r s) at 1. rewrite split_go_line by done.
    by rewrite app_nil_l.
  - change (Py.join (String c EmptyString) (s :: s' :: parts))
      with (s +:+ String c EmptyString +:+ Py.join (String c EmptyString) (s' :: parts)).
    rewrite split_go_line by done. rewrite app_cons, app_nil_l. simpl.
    rewrite bool_decide_true by done. rewrite app_nil_l. f_equal. by apply IH.
Qed.

Lemma digits_not_nl s :
  Forall (fun a => Py.is_digit a = true) (Py.chars s) ->
  Forall (fun a => a <> "010"%char) (Py.chars s).
Proof. intros H. eapply Forall_impl; [exact H|]. by intros a Ha ->. Qed.

Lemma related_link_one_line base label num :
  Forall (fun a => a <> "010"%char) (Py.chars base) ->
  Forall (fun a => a <> "010"%char) (Py.chars label) ->
  Forall (fun a => a <> "010"%char) (Py.chars (related_link base label num)).
Proof.
  intros Hb Hl. unfold related_link. rewrite !chars_app.
  repeat apply Forall_app_2; try done; try (by repeat constructor);
    apply digits_not_nl, uint_digits.
Qed.

(** X12. The list of related links is never empty: it is [_None_] exactly when there
    is no number, and otherwise it has one line per number, in the order of the
    numbers, each the Markdown link [- [<label> #<n>](<base_url>/<n>)]. *)
Theorem format_related_links_lines (numbers : list N) (base_url label : string) :
  Forall (fun a => a <> "010"%char) (Py.chars base_url) ->
  Forall (fun a => a <> "010"%char) (Py.chars label) ->
  format_related_links numbers base_url label <> EmptyString
  /\ (format_related_links numbers base_url label = "_None_" <-> numbers = [])
  /\ (numbers <> [] ->
      Py.split "010" (format_related_links numbers base_url label)
      = related_link base_url label <$> numbers).
Proof.
  intros Hb Hl.
  assert (forall n more, exists r,
            Py.join nl (related_link base_url label <$> n :: more) = String "-" r) as Hhead.
  { intros n more. rewrite fmap_cons.
    assert (exists r0, related_link base_url label n = String "-" r0) as [r0 ->]
      by (unfold related_link; rewrite app_cons; eauto).
    destruct (related_link base_url label <$> more); cbn [Py.join]; rewrite ?app_cons; eauto. }
  split; [|split].
  - destruct numbers as [|n more]; [done|]. unfold format_related_links.
    destruct (Hhead n more) as [r ->]. done.
  - split; [|by intros ->]. destruct numbers as [|n more]; [done|].
    unfold format_related_links. destruct (Hhead n more) as [r ->]. done.
  - intros Hne. unfold format_related_links. destruct numbers as [|n more]; [done|].
    apply split_join; [done|]. apply Forall_fmap, Forall_forall. intros k _.
    by apply related_link_one_line.
Qed.

End lines.

Lemma format_related_links_lines_witness :
  Py.split "010" (format_related_links [7; 42]%N "https://github.com/o/r/pull" "PR")
  = ["- [PR #7](https://github.com/o/r/pull/7)"; "- [PR #42](https://github.com/o/r/pull/42)"].
Proof.
  assert (Forall (fun a => a <> "010"%char) (Py.chars "https://github.com/o/r/pull")) as Hb
    by (vm_compute; repeat constructor; discriminate).
  assert (Forall (fun a => a <> "010"%char) (Py.chars "PR")) as Hl
    by (vm_compute; repeat constructor; discriminate).
  destruct (format_related_links_lines [7; 42]%N "https://github.com/o/r/pull" "PR" Hb Hl)
    as (_ & _ & Hlines).
  rewrite Hlines by discriminate. reflexivity.
Defined.
(* ===================================================================== *)
(** * Sorting a thread that is in order                                  *)
(* ===================================================================== *)

Section sort_more.
Variable iso_timestamp : string -> option Q.
Implicit Types (cs : list (list (string * json))) (k : nat).

Lemma sort_comments_stamps_sorted cs :
  StronglySorted
    (fun a b => stamp_leb (comment_stamp iso_timestamp a) (comment_stamp iso_timestamp b) = true)
    (sort_comments iso_timestamp cs).
Proof.
  rewrite sort_comments_unfold.
  assert (Forall (fun x => x.1.1 = comment_stamp iso_timestamp x.2)
            (sort_by (fun x => (x.1.1, x.1.2)) (indexed_from iso_timestamp 0 cs))) as Hts.
  { rewrite sort_by_perm. eapply Forall_impl; [apply (indexed_from_stamp iso_timestamp 0)|].
    by intros x [? _]. }
  pose proof (sort_by_sorted (fun x : option Q * nat * list (string * json) => (x.1.1, x.1.2))
                (indexed_from iso_timestamp 0 cs)) as Hs.
  revert Hs Hts. generalize (sort_by (fun x => (x.1.1, x.1.2)) (indexed_from iso_timestamp 0 cs)).
  induction 1 as [|x l Hs IH Hx]; intros Hts; [constructor|].
  apply Forall_cons in Hts as [Hxts Hts]. cbn [fmap list_fmap].
  constructor; [by apply IH|].
  apply Forall_fmap. eapply Forall_impl.
  { apply Forall_and. split; [exact Hx|exact Hts]. }
  intros y [Hle Hy]. simpl. rewrite <- Hxts, <- Hy.
  exact (key_leb_stamp (x.1.1, x.1.2) (y.1.1, y.1.2) Hle).
Qed.

(** On comments whose time stamps do not decrease, the numbering by position agrees
    with the order of the keys, and the sort moves nothing. *)
Lemma sort_indexed_in_order k cs :
  StronglySorted
    (fun a b => stamp_leb (comment_stamp iso_timestamp a) (comment_stamp iso_timestamp b) = true)
    cs ->
  sort_by (fun x => (x.1.1, x.1.2)) (indexed_from iso_timestamp k cs)
  = indexed_from iso_timestamp k cs.
Proof.
  intros Hs. revert k. induction Hs as [|c cs Hs IH Hc]; intros k; [done|].
  cbn [indexed_from sort_by]. rewrite IH. destruct cs as [|c' cs]; [done|].
  cbn [indexed_from insert_by]. apply Forall_cons in Hc as [Hle _].
  unfold key_ltb. cbn [fst snd].
  unfold stamp_leb in Hle. apply negb_true_iff in Hle. rewrite Hle.
  destruct (stamp_eqb _ _); [|done].
  by rewrite (proj2 (Nat.ltb_ge (S k) k)) by lia.
Qed.

(** X13. A thread whose time stamps do not decrease is returned as it is, and so
    [sort_comments] is idempotent: sorting a sorted thread changes nothing. *)
Theorem sort_comments_idempotent cs :
  (StronglySorted
     (fun a b => stamp_leb (comment_stamp iso_timestamp a) (comment_stamp iso_timestamp b) = true)
     cs ->
   sort_comments iso_timestamp cs = cs)
  /\ sort_comments iso_timestamp (sort_comments iso_timestamp cs)
     = sort_comments iso_timestamp cs.
Proof.
  assert (forall l,
            StronglySorted
              (fun a b => stamp_leb (comment_stamp iso_timestamp a)
                                    (comment_stamp iso_timestamp b) = true) l ->
            sort_comments iso_timestamp l = l) as Hfix.
  { intros l Hl. rewrite sort_comments_unfold, sort_indexed_in_order by done.
    apply indexed_from_comments. }
  split; [apply Hfix|]. apply Hfix, sort_comments_stamps_sorted.
Qed.

End sort_more.
(* ===================================================================== *)
(** * The clean-up stays below the export root                           *)
(* ===================================================================== *)

Section cleanup_frame.
Implicit Types (fs : FS) (root p q : path) (dirs : gset (list string)) (env : CleanEnv).

Lemma prefix_of_parent root p :
  root `prefix_of` p -> p <> root -> root `prefix_of` path_parent p.
Proof.
  intros [k ->] Hne. unfold path_parent. destruct k as [|x k].
  - by rewrite app_nil_r in Hne.
  - rewrite removelast_app by done. by eexists.
Qed.

Lemma prefix_of_with_suffix root p ext :
  root `prefix_of` p -> p <> root -> root `prefix_of` with_suffix p ext.
Proof.
  intros Hpre Hne. unfold with_suffix.
  destruct (prefix_of_parent root p Hpre Hne) as [k ->]. rewrite <- app_assoc. by eexists.
Qed.

Lemma rename_steps_frame env root imgs fs rewrites q :
  Forall (fun img => root `prefix_of` img /\ img <> root) imgs ->
  ~ root `prefix_of` q ->
  (foldl (rename_step env root) (fs, rewrites) imgs).1 !! q = fs !! q.
Proof.
  intros Himgs Hq. revert fs rewrites.
  induction Himgs as [|img imgs [Hpre Hne] _ IH]; intros fs rewrites; [done|].
  cbn [foldl]. unfold rename_step at 2.
  destruct (detect_ext fs img) as [ext|]; [|apply IH].
  destruct (may_rename env img (with_suffix img ext)); [|apply IH].
  rewrite IH. unfold rename_file. destruct (fs !! img); [|done].
  rewrite lookup_insert_ne, lookup_delete_ne; [done|..]; intros <-; apply Hq;
    [done|by apply prefix_of_with_suffix].
Qed.

(** One turn of the second loop changes the Markdown file it is at and no other,
    and makes no path a file that was none. *)
Lemma md_step_frame env rewrites dirs fs n md q :
  q <> md -> (md_step env rewrites dirs (fs, n) md).2.1 !! q = fs !! q.
Proof.
  intros Hq. unfold md_step. destruct (fs !! md); [|done].
  destruct (fix_refs _ _ _ _ _ _); [|done]. case_bool_decide; [done|].
  destruct (write_back env md _) as [|partial]; cbn [fst snd].
  - by apply lookup_insert_ne.
  - by apply leave_other.
Qed.

Lemma md_step_returned env rewrites dirs fs n md acc :
  md_step env rewrites dirs (fs, n) md = (Returned, acc) ->
  is_Some (fs !! md) /\ forall q, acc.1 !! q = None <-> fs !! q = None.
Proof.
  unfold md_step. destruct (fs !! md) as [content|] eqn:Hmd; [|done].
  destruct (fix_refs _ _ _ _ _ _); [|done]. case_bool_decide.
  - intros [= <-]. eauto.
  - destruct (write_back env md _) as [|partial]; [|done]. intros [= <-]. split; [eauto|].
    intros q. cbn [fst]. destruct (decide (q = md)) as [->|Hne].
    + rewrite lookup_insert_eq, Hmd. done.
    + by rewrite lookup_insert_ne.
Qed.

Lemma md_steps_frame env rewrites dirs root mds fs n q :
  Forall (fun md => root `prefix_of` md) mds ->
  ~ root `prefix_of` q ->
  (md_steps env rewrites dirs mds (fs, n)).2.1 !! q = fs !! q.
Proof.
  intros Hmds Hq. revert fs n.
  induction Hmds as [|md mds Hpre _ IH]; intros fs n; [done|].
  cbn [md_steps].
  pose proof (md_step_frame env rewrites dirs fs n md q) as Hstep.
  destruct (md_step env rewrites dirs (fs, n) md) as [[|] [fs' n']]; cbn [fst snd] in *.
  - rewrite IH. apply Hstep. by intros ->.
  - apply Hstep. by intros ->.
Qed.

(** The second loop raises when it comes to a path that is no file, if not
    before. *)
Lemma md_steps_directory env rewrites dirs mds fs n md :
  md ∈ mds -> fs !! md = None -> (md_steps env rewrites dirs mds (fs, n)).1 = Raised.
Proof.
  revert fs n. induction mds as [|md' mds IH]; intros fs n Hin Hnone;
    [by apply elem_of_nil in Hin|].
  cbn [md_steps].
  destruct (md_step env rewrites dirs (fs, n) md') as [[|] [fs' n']] eqn:Hstep; [|done].
  apply md_step_returned in Hstep as [[c Hc] Hdom]. cbn [fst] in Hdom.
  apply elem_of_cons in Hin as [->|Hin]; [congruence|].
  apply IH; [done|]. by apply Hdom.
Qed.

Lemma rglob_below env fs dirs root ending :
  Forall (fun p => root `prefix_of` p) (rglob env fs dirs root ending).
Proof. apply Forall_forall. intros p Hp. by apply rglob_elem in Hp as [? _]. Qed.

Lemma rglob_strictly_below env fs dirs root ending :
  Forall (fun p => root `prefix_of` p /\ p <> root) (rglob env fs dirs root ending).
Proof.
  apply Forall_forall. intros p Hp. by apply rglob_elem in Hp as (? & ? & _).
Qed.

(** X14. The clean-up changes nothing outside the export root: every path that is
    not below the root holds after the run what it held before, whatever the renames
    do and however the run ends. When the root does not exist the run reports it and
    ends with status 1, and has not touched any file; this is the only way to status
    1. When the root exists the run ends with status 0 and one line of summary, or
    with an exception that nothing catches and no summary. The latter it does
    whenever, after the renames, the paths that [rglob] yields for [*.md] include one
    that is not a file: a directory below the root whose name ends in [.md]. *)
Theorem cleanup_main_frame env root fs dirs :
  let r := cleanup_main env root fs dirs in
  let renamed := foldl (rename_step env root) (fs, []) (rglob env fs dirs root ".img") in
  (forall q, ~ root `prefix_of` q -> r.1.2 !! q = fs !! q)
  /\ (tree_exists fs dirs root = false ->
      r = (Exit 1, fs, [Stdout ("Export root not found: " +:+ path_str root)]))
  /\ (r.1.1 = Exit 1 -> tree_exists fs dirs root = false)
  /\ (tree_exists fs dirs root = true ->
      (exists updated_files,
         r.1.1 = Exit 0 /\ r.2 = [Stdout (cleanup_msg renamed.2 updated_files)])
      \/ (r.1.1 = Traceback /\ r.2 = []))
  /\ (tree_exists fs dirs root = true ->
      (exists md, md ∈ rglob env renamed.1 dirs root ".md" /\ renamed.1 !! md = None) ->
      r.1.1 = Traceback).
Proof.
  intros r renamed. subst r. unfold cleanup_main. fold renamed.
  destruct (tree_exists fs dirs root) eqn:Hex; cbn [negb].
  2:{ split; [done|]. split; [done|]. split; [done|]. split; done. }
  pose proof (fun q => rename_steps_frame env root (rglob env fs dirs root ".img") fs [] q
                (rglob_strictly_below env fs dirs root ".img")) as Hren.
  fold renamed in Hren. destruct renamed as [fs1 rewrites]. cbn [fst snd] in *.
  pose proof (fun q => md_steps_frame env rewrites dirs root (rglob env fs1 dirs root ".md")
                fs1 0 q (rglob_below env fs1 dirs root ".md")) as Hmd.
  pose proof (md_steps_directory env rewrites dirs (rglob env fs1 dirs root ".md") fs1 0)
    as Hdir.
  destruct (md_steps env rewrites dirs (rglob env fs1 dirs root ".md") (fs1, 0))
    as [[|] [fs2 n]]; cbn [fst snd] in *.
  - split; [intros q Hq; by rewrite Hmd, Hren|]. split; [done|]. split; [done|].
    split; [intros _; left; by exists n|]. intros _ (md & Hin & Hnone).
    by specialize (Hdir md Hin Hnone).
  - split; [intros q Hq; by rewrite Hmd, Hren|]. split; [done|]. split; [done|].
    split; [intros _; by right|done].
Qed.

End cleanup_frame.

(** A directory named like a Markdown file: [rglob] yields it, [read_text] raises on
    it, and the run ends there with no file changed and no summary. *)
Example cleanup_md_directory_raises :
  cleanup_main plain_clean_env ["export"] md_directory_export ∅
  = (Traceback, md_directory_export, []).
Proof. vm_compute. reflexivity. Qed.
(* ===================================================================== *)
(** * The directory name of a repository                                 *)
(* ===================================================================== *)

Section slug.
Implicit Types (s repo : string) (a b c : ascii).

(** [s.replace(a, b)] on single characters maps the characters one by one. *)
Lemma replace_char_chars s a b :
  Py.chars (Py.replace s (String a EmptyString) (String b EmptyString))
  = (fun c => if bool_decide (c = a) then b else c) <$> Py.chars s.
Proof.
  unfold Py.replace, Py.replace_count, Py.chars.
  induction s as [|c r IH]; [done|].
  cbn [Py.replace_go Py.startswith Py.len String.length Nat.sub fmap option_fmap option_map].
  rewrite (bool_decide_false (@None nat = Some 0)) by (intros ?; discriminate).
  cbn [negb andb].
  rewrite andb_true_r. rewrite (bool_decide_ext (a = c) (c = a)) by (split; congruence).
  case_bool_decide.
  - rewrite app_cons, app_nil_l. cbn. by rewrite IH, bool_decide_true.
  - cbn. by rewrite IH, bool_decide_false.
Qed.

Lemma chars_inj s t : Py.chars s = Py.chars t -> s = t.
Proof.
  unfold Py.chars. intros H.
  by rewrite <- (string_of_list_ascii_of_string s), H, string_of_list_ascii_of_string.
Qed.

Lemma has_char_elem c s : Py.has_char c s = true -> c ∈ Py.chars s.
Proof.
  unfold Py.has_char, Py.chars. induction s as [|a r IH]; [done|].
  cbn [Py.contains Py.startswith list_ascii_of_string]. rewrite andb_true_r.
  intros [Ha|Hr]%orb_true_iff.
  - apply bool_decide_eq_true in Ha as ->. left.
  - right. apply IH. destruct r; [done|exact Hr].
Qed.

(** X15. [slugify_repo] turns every slash into an underscore and changes nothing
    else. For a repository name with a slash, the only kind [main] lets through, the
    slug has the length of the name, holds an underscore and no slash, and so is one
    path component, not empty and neither [.] nor [..]. The slug does not tell which
    of its underscores were slashes: the names [a/b_c] and [a_b/c] share it. *)
Theorem slugify_repo_component repo :
  Py.has_char "/" repo = true ->
  Py.chars (slugify_repo repo)
  = (fun c => if bool_decide (c = "/"%char) then "_"%char else c) <$> Py.chars repo
  /\ Py.len (slugify_repo repo) = Py.len repo
  /\ Forall (fun c => c <> "/"%char) (Py.chars (slugify_repo repo))
  /\ "_"%char ∈ Py.chars (slugify_repo repo)
  /\ slugify_repo repo <> EmptyString
  /\ slugify_repo repo <> "."
  /\ slugify_repo repo <> ".."
  /\ (forall x y z : string, slugify_repo (x +:+ "/" +:+ y +:+ "_" +:+ z)
                                = slugify_repo (x +:+ "_" +:+ y +:+ "/" +:+ z)).
Proof.
  intros Hslash. unfold slugify_repo.
  pose proof (replace_char_chars repo "/" "_") as Hmap.
  assert ("_"%char ∈ Py.chars (Py.replace repo "/" "_")) as Hin.
  { rewrite Hmap. apply list_elem_of_fmap. exists "/"%char. split; [done|].
    by apply has_char_elem. }
  split; [exact Hmap|]. split; [by rewrite <- !len_chars, Hmap, length_fmap|].
  split.
  { rewrite Hmap. apply Forall_fmap, Forall_forall. intros c _. simpl.
    by case_bool_decide. }
  split; [exact Hin|].
  split; [intros H; rewrite H in Hin; by apply elem_of_nil in Hin|].
  split; [intros H; rewrite H in Hin; by repeat (apply elem_of_cons in Hin as [?|Hin]; [done|]);
          apply elem_of_nil in Hin|].
  split; [intros H; rewrite H in Hin; by repeat (apply elem_of_cons in Hin as [?|Hin]; [done|]);
          apply elem_of_nil in Hin|].
  intros x y z. apply chars_inj. rewrite !replace_char_chars, !chars_app, !fmap_app.
  reflexivity.
Qed.

End slug.

Lemma slugify_repo_component_witness :
  Py.has_char "/" "octo/hello_world" = true
  /\ slugify_repo "octo/hello_world" <> ".."
  /\ Py.len (slugify_repo "octo/hello_world") = 16.
Proof.
  assert (Py.has_char "/" "octo/hello_world" = true) as H by (vm_compute; reflexivity).
  split; [exact H|].
  destruct (slugify_repo_component "octo/hello_world" H) as (_ & Hlen & _ & _ & _ & _ & Hdots & _).
  split; [exact Hdots|]. rewrite Hlen. reflexivity.
Defined.
(* ===================================================================== *)
(** * Documents: one tracker for the body and the comments               *)
(* ===================================================================== *)

Section document_facts.
Context {M : Type}.
Variable iso_timestamp : string -> option Q.
Variable py_repr : json -> string.
Variable write_text : nat -> path -> bytes -> write_result.
Implicit Types (t : ImageTracker M) (h : Heap M) (st : ImageTracker M * Heap M).
Implicit Types (c item : list (string * json)) (v : json).

Lemma value_urls_falsy env v : truthy v = false -> value_urls env v = [].
Proof.
  destruct v as [| | |text| |]; try done. destruct text; [|done]. intros _.
  vm_compute. reflexivity.
Qed.

(** The state after [replace_images] on a value: that after the calls of
    [get_local] for its URLs, up to the one that raised if one did. *)
Lemma replace_images_value_resolved env v st :
  exists us,
    us `prefix_of` value_urls env v
    /\ (replace_images_value env v st).2 = resolved env st us
    /\ (is_Some (replace_images_value env v st).1 ->
        us = value_urls env v
        /\ forall u, u ∈ us -> is_Some (url_to_rel st.1 !! u) \/ accepted env u = true).
Proof.
  unfold replace_images_value. destruct (truthy v) eqn:Ht; cbn [negb].
  - destruct v as [| | |text| |];
      try (exists []; rewrite resolved_nil; split; [apply prefix_nil|];
           split; [done|]; by intros [? ?]).
    cbn [value_urls].
    destruct (replace_images_resolved env text st) as (us & Hpre & Hst & Hall).
    exists us. split; [done|]. split; [done|]. intros Hsome.
    rewrite (Hall Hsome). split; [done|]. by apply replace_images_returns.
  - exists []. rewrite resolved_nil, value_urls_falsy by done.
    split; [done|]. split; [done|]. intros _. split; [done|].
    intros u Hu. by apply elem_of_nil in Hu.
Qed.

Lemma comment_block_resolved env c st :
  exists us,
    us `prefix_of` comment_urls env c
    /\ (comment_block py_repr env c st).2 = resolved env st us
    /\ (is_Some (comment_block py_repr env c st).1 ->
        us = comment_urls env c
        /\ forall u, u ∈ us -> is_Some (url_to_rel st.1 !! u) \/ accepted env u = true).
Proof.
  unfold comment_block, comment_urls. destruct (comment_author c).
  2:{ exists []. rewrite resolved_nil. split; [apply prefix_nil|]. split; [done|].
      by intros [? ?]. }
  destruct (replace_images_value_resolved env (or_empty (dict_get c "body")) st)
    as (us & Hpre & Hst & Hall).
  destruct (replace_images_value env _ st) as [[o|] st']; cbn [fst snd] in *.
  - exists us. split; [done|]. split; [done|]. intros _. apply Hall. eauto.
  - exists us. split; [done|]. split; [done|]. by intros [? ?].
Qed.

(** The loop over the comments stops at the first comment that raises, with the
    images before that point resolved. *)
Lemma comment_blocks_resolved env (cs : list (list (string * json))) st :
  exists us,
    us `prefix_of` concat (comment_urls env <$> cs)
    /\ (comment_blocks py_repr env cs st).2 = resolved env st us
    /\ (is_Some (comment_blocks py_repr env cs st).1 ->
        us = concat (comment_urls env <$> cs)
        /\ forall u, u ∈ us -> is_Some (url_to_rel st.1 !! u) \/ accepted env u = true).
Proof.
  revert st. induction cs as [|c cs IH]; intros st.
  - exists []. cbn. rewrite resolved_nil. split; [done|]. split; [done|]. intros _.
    split; [done|]. intros u Hu. by apply elem_of_nil in Hu.
  - cbn [comment_blocks fmap list_fmap concat].
    destruct (comment_block_resolved env c st) as (us1 & Hpre1 & Hst1 & Hall1).
    destruct (comment_block py_repr env c st) as [[b|] st1]; cbn [fst snd] in *.
    + destruct (Hall1 ltac:(eauto)) as [-> Hok1]. subst st1.
      destruct (IH (resolved env st (comment_urls env c))) as (us2 & Hpre2 & Hst2 & Hall2).
      destruct (comment_blocks py_repr env cs _) as [bs st2]. cbn [fst snd] in *.
      exists (comment_urls env c ++ us2). split; [by apply prefix_app|].
      split; [by rewrite resolved_app|]. intros Hsome.
      destruct Hall2 as [-> Hok2]; [by destruct bs|]. split; [done|].
      intros u [Hu|Hu]%elem_of_app; [by apply Hok1|].
      destruct (Hok2 u Hu) as [Hc|?]; [|by right].
      by apply resolved_cached_or_accepted in Hc.
    + exists us1. split; [|split; [done|by intros [? ?]]].
      destruct Hpre1 as [k ->]. rewrite <- app_assoc. by eexists.
Qed.

Lemma render_heading title rh num item desc section blocks content :
  render py_repr title rh num item desc section blocks = Some content ->
  Py.startswith content ("# " +:+ title +:+ " #" +:+ str_of_Z num +:+ ": ") = true.
Proof.
  unfold render. intros H.
  destruct (dict_item item "title") as [ti|]; [|done]. cbn [mbind option_bind] in H.
  destruct (dict_item item "url" ≫= as_str) as [url|]; [|done]. cbn [mbind option_bind] in H.
  destruct (dict_item item "state" ≫= as_str) as [state|]; [|done].
  cbn [mbind option_bind] in H.
  destruct (dict_item item "created_at" ≫= as_str) as [created|]; [|done].
  cbn [mbind option_bind] in H.
  destruct (dict_item item "updated_at" ≫= as_str) as [updated|]; [|done].
  cbn [mbind option_bind] in H. injection H as <-.
  cbn [Py.join]. apply startswith_spec. eexists. rewrite !app_assoc'. reflexivity.
Qed.

(** The course of [write_md]: the images of a prefix of the document are resolved on
    one new tracker, all of them if the call returns, and then the file is written. *)
Lemma write_md_resolved fp title rh env item comments out_dir assets_root section tok
    (cb : option (string -> string -> M -> M)) h num e h' :
  dict_item item "number" = Some (JNum num) ->
  write_md iso_timestamp py_repr write_text fp title rh env item comments out_dir assets_root
    section tok cb h = Some (e, h') ->
  let md_path := out_dir ++ [fp +:+ "-" +:+ str_of_Z num +:+ ".md"] in
  let st0 := (ImageTracker_init (assets_root ++ [str_of_Z num]) out_dir tok cb, h) in
  exists us,
    us `prefix_of` document_urls env iso_timestamp item comments
    /\ stats h' = stats (resolved env st0 us).2
    /\ store h' = store (resolved env st0 us).2
    /\ trace (world h') = trace (world (resolved env st0 us).2)
    /\ (forall q, q <> md_path ->
          files (world h') !! q = files (world (resolved env st0 us).2) !! q)
    /\ (e = Returned ->
        us = document_urls env iso_timestamp item comments
        /\ Forall (fun u => accepted env u = true) us
        /\ exists content,
             files (world h') !! md_path = Some (encode content)
             /\ Py.startswith content ("# " +:+ title +:+ " #" +:+ str_of_Z num +:+ ": ")
                = true)
    /\ (e = Raised -> (forall n p b, write_text n p b = WriteOk) ->
        files (world h') !! md_path = files (world (resolved env st0 us).2) !! md_path).
Proof.
  intros Hnum Hrun md_path st0. unfold write_md in Hrun. rewrite Hnum in Hrun.
  rewrite path_parent_snoc in Hrun. fold md_path in Hrun. fold st0 in Hrun.
  unfold document_urls.
  destruct (dict_item item "body") as [body|]; cbn [default].
  2:{ injection Hrun as <- <-. exists []. rewrite resolved_nil.
      split; [apply prefix_nil|]. by repeat split. }
  destruct (replace_images_value_resolved env body st0) as (us1 & Hpre1 & Hst1 & Hall1).
  destruct (replace_images_value env body st0) as [[desc|] st1]; cbn [fst snd] in *; subst st1.
  2:{ injection Hrun as <- <-. exists us1. split; [by apply prefix_app_r|]. by repeat split. }
  destruct (Hall1 ltac:(eauto)) as [-> Hok1].
  destruct (mapM as_dict comments) as [cs|].
  2:{ injection Hrun as <- <-. exists (value_urls env body). rewrite app_nil_r.
      by repeat split. }
  destruct (comment_blocks_resolved env (sort_comments iso_timestamp cs)
              (resolved env st0 (value_urls env body))) as (us2 & Hpre2 & Hst2 & Hall2).
  destruct (comment_blocks py_repr env (sort_comments iso_timestamp cs) _) as [bs st2].
  cbn [fst snd] in *. subst st2. rewrite <- resolved_app in Hrun.
  set (cus := concat (comment_urls env <$> sort_comments iso_timestamp cs)) in *.
  set (us := value_urls env body ++ us2) in *.
  assert (us `prefix_of` value_urls env body ++ cus) as Hpre by (by apply prefix_app).
  destruct bs as [blocks|].
  2:{ injection Hrun as <- <-. exists us. by repeat split. }
  destruct (Hall2 ltac:(eauto)) as [Hus2 Hok2].
  assert (us = value_urls env body ++ cus) as Hus by (unfold us; by rewrite Hus2).
  assert (Forall (fun u => accepted env u = true) us) as Hacc.
  { apply Forall_forall. intros u [Hu|Hu]%elem_of_app.
    - destruct (Hok1 u Hu) as [[? Hc]|?]; [|done].
      cbn [st0 fst ImageTracker_init url_to_rel] in Hc. by rewrite lookup_empty in Hc.
    - destruct (Hok2 u Hu) as [Hc|?]; [|done].
      apply resolved_cached_or_accepted in Hc as [[? Hc]|?]; [|done].
      cbn [st0 fst ImageTracker_init url_to_rel] in Hc. by rewrite lookup_empty in Hc. }
  destruct (render py_repr title rh num item _ section blocks) as [content|] eqn:Hrender.
  2:{ injection Hrun as <- <-. exists us. by repeat split. }
  apply render_heading in Hrender.
  destruct (write_text _ md_path (encode content)) as [|partial] eqn:Hw;
    injection Hrun as <- <-; exists us; cbn [stats store world trace files].
  - split; [done|]. split; [done|]. split; [done|]. split; [done|].
    split; [intros q Hq; by rewrite lookup_insert_ne|].
    split; [|done]. intros _. split; [done|]. split; [done|]. exists content.
    by rewrite lookup_insert_eq.
  - split; [done|]. split; [done|]. split; [done|]. split; [done|].
    split; [intros q Hq; by apply leave_other|].
    split; [done|]. intros _ Hok. by rewrite Hok in Hw.
Qed.



End document_facts.



(** A body that is [None], which counts as false: [replace_images] returns the empty
    string for it, and the description of the document is the placeholder. *)
Example write_md_null_body :
  exists h',
    write_md sample_clock sample_repr always_written "ISSUE" "Issue" "## Related PRs" sample_env
      [ ("number", JNum 5); ("title", JStr "t"); ("url", JStr "u"); ("state", JStr "OPEN");
        ("created_at", JStr "c"); ("updated_at", JStr "d"); ("body", JNull) ]
      [] ["export"; "o_r"; "issues"] ["export"; "o_r"; "assets"; "issues"] "_None_"
      None (Some record_pair) empty_heap
    = Some (Returned, h')
    /\ (decode <$> files (world h') !! ["export"; "o_r"; "issues"; "ISSUE-5.md"])
       ≫= (fun content => Some (Py.contains content "_No description_"))
       = Some true.
Proof. eexists. split; vm_compute; reflexivity. Qed.
(* ===================================================================== *)
(** * The fields of an item and the author of a comment                  *)
(* ===================================================================== *)

Section fields.
Implicit Types (d c item : list (string * json)) (v : json) (key : string).

Lemma find_app_none {A} (f : A -> bool) (l1 l2 : list A) :
  List.find f l1 = None -> List.find f (l1 ++ l2) = List.find f l2.
Proof. induction l1 as [|x l1 IH]; [done|]. simpl. destruct (f x); [done|exact IH]. Qed.

Lemma dict_get_missing d key : dict_has d key = false -> dict_get d key = JNull.
Proof.
  unfold dict_has, dict_get. intros H.
  destruct (List.find _ (rev d)) as [kv|] eqn:Hf; [|done].
  apply find_some in Hf as [Hin Hk]. rewrite <- in_rev in Hin.
  assert (existsb (fun kv => bool_decide (kv.1 = key)) d = true) as Hex
    by (apply existsb_exists; eauto).
  congruence.
Qed.

Lemma or_empty_idem v : or_empty (or_empty v) = or_empty v.
Proof. unfold or_empty, json_or. destruct (truthy v) eqn:Hv; [by rewrite Hv|done]. Qed.

Lemma or_empty_truthy v : truthy (or_empty v) = true \/ or_empty v = JStr EmptyString.
Proof. unfold or_empty, json_or. destruct (truthy v) eqn:Hv; [by left|by right]. Qed.

Lemma or_empty_or_null v : or_empty (json_or (or_empty v) JNull) = or_empty v.
Proof.
  destruct (or_empty_truthy v) as [Ht|He].
  - unfold json_or at 1. rewrite Ht. apply or_empty_idem.
  - by rewrite He.
Qed.

Lemma upper_char_idem a : Py.upper_char (Py.upper_char a) = Py.upper_char a.
Proof. destruct a as [[] [] [] [] [] [] [] []]; reflexivity. Qed.

Lemma upper_idem s : Py.upper (Py.upper s) = Py.upper s.
Proof. induction s as [|a s IH]; [done|]. simpl. by rewrite upper_char_idem, IH. Qed.

Lemma as_str_or_empty v s : as_str (or_empty v) = Some s -> or_empty v = JStr s.
Proof. by destruct (or_empty v); intros [= ->]. Qed.

(** X18. [extract_issue_fields] and [extract_pr_fields] are one function. It raises
    only when the state of the item is a value other than a string that counts as
    true. Otherwise it returns the seven fields in their order: the number as it is,
    the state as a string in upper case, and each of the other fields either as a
    value that counts as true or as the empty string. Its result is a fixed point:
    extracting the fields of the result changes nothing. *)
Theorem extract_fields_normal item :
  extract_pr_fields item = extract_issue_fields item
  /\ (extract_issue_fields item = None
      <-> truthy (dict_get item "state") = true /\ as_str (dict_get item "state") = None)
  /\ (forall r, extract_issue_fields item = Some r ->
        r.*1 = ["number"; "title"; "url"; "state"; "created_at"; "updated_at"; "body"]
        /\ dict_get r "number" = dict_get item "number"
        /\ (exists s, dict_get r "state" = JStr s /\ Py.upper s = s)
        /\ Forall (fun key => truthy (dict_get r key) = true
                              \/ dict_get r key = JStr EmptyString)
             ["title"; "url"; "created_at"; "updated_at"; "body"]
        /\ extract_issue_fields r = Some r).
Proof.
  split; [done|]. unfold extract_issue_fields, extract_fields.
  assert (as_str (or_empty (dict_get item "state")) = None
          <-> truthy (dict_get item "state") = true /\ as_str (dict_get item "state") = None)
    as Hkey.
  { unfold or_empty, json_or. destruct (truthy (dict_get item "state")) eqn:Ht.
    - split; [done|by intros [_ ?]].
    - cbn. split; [done|]. by intros [? _]. }
  split.
  - destruct (as_str (or_empty (dict_get item "state"))) as [state|] eqn:Hs;
      cbn [mbind option_bind].
    + split; [done|]. intros H. apply Hkey in H. done.
    + split; [|done]. intros _. by apply Hkey.
  - intros r Hr.
    destruct (as_str (or_empty (dict_get item "state"))) as [state|] eqn:Hs; [|done].
    cbn [mbind option_bind] in Hr. injection Hr as <-.
    set (title := or_empty (dict_get item "title")).
    set (url := or_empty (json_or (dict_get item "html_url") (dict_get item "url"))).
    set (created := or_empty (json_or (dict_get item "created_at")
                                      (dict_get item "createdAt"))).
    set (updated := or_empty (json_or (dict_get item "updated_at")
                                      (dict_get item "updatedAt"))).
    set (body := or_empty (dict_get item "body")).
    set (r := [("number", dict_get item "number"); ("title", title); ("url", url);
               ("state", JStr (Py.upper state)); ("created_at", created);
               ("updated_at", updated); ("body", body)]).
    assert (dict_get r "number" = dict_get item "number") as Hnumber by reflexivity.
    assert (dict_get r "title" = title) as Htitle by reflexivity.
    assert (dict_get r "url" = url) as Hurl by reflexivity.
    assert (dict_get r "html_url" = JNull) as Hhtml by reflexivity.
    assert (dict_get r "state" = JStr (Py.upper state)) as Hstate by reflexivity.
    assert (dict_get r "created_at" = created) as Hcreated by reflexivity.
    assert (dict_get r "createdAt" = JNull) as Hcreated' by reflexivity.
    assert (dict_get r "updated_at" = updated) as Hupdated by reflexivity.
    assert (dict_get r "updatedAt" = JNull) as Hupdated' by reflexivity.
    assert (dict_get r "body" = body) as Hbody by reflexivity.
    split; [done|]. split; [done|].
    split; [exists (Py.upper state); split; [done|apply upper_idem]|].
    split.
    { rewrite !Forall_cons, Htitle, Hurl, Hcreated, Hupdated, Hbody.
      repeat split; first [apply or_empty_truthy|apply Forall_nil_2]. }
    rewrite Hnumber, Htitle, Hurl, Hhtml, Hstate, Hcreated, Hcreated', Hupdated, Hupdated',
      Hbody.
    change (json_or JNull url) with url.
    unfold title, url, created, updated, body. rewrite !or_empty_or_null, !or_empty_idem.
    assert (as_str (or_empty (JStr (Py.upper state))) = Some (Py.upper state)) as ->.
    { unfold or_empty, json_or. cbn [truthy]. case_bool_decide as He; [|done].
      cbn. by rewrite He. }
    cbn [mbind option_bind]. by rewrite upper_idem.
Qed.

(** X19. The author line of a comment. The expression raises exactly when the user
    is a value other than an object that counts as true, or when no login of a user
    is found and the comment has an author that is not an object: an author given as
    a plain string is never printed, it makes the call raise. What is returned counts
    as true, and is the login of the user, the login of the author object, that
    object itself when it is not empty, or [unknown]. *)
Theorem comment_author_cases c :
  let user := json_or (dict_get_or_empty c "user") (JObj []) in
  (comment_author c = None
   <-> as_dict user = None
       \/ (exists u, as_dict user = Some u /\ truthy (dict_get u "login") = false
                     /\ as_dict (dict_get_or_empty c "author") = None))
  /\ (forall a, comment_author c = Some a ->
        truthy a = true
        /\ ((exists u, user = JObj u /\ a = dict_get u "login")
            \/ (exists d, dict_get_or_empty c "author" = JObj d /\ a = dict_get d "login")
            \/ a = JStr "unknown"
            \/ (exists d, a = JObj d /\ d <> [] /\ dict_get c "author" = JObj d
                          /\ truthy (dict_get d "login") = false)))
  /\ (forall s, dict_has c "user" = false -> dict_has c "author" = true ->
        dict_get c "author" = JStr s -> comment_author c = None).
Proof.
  intros user. unfold comment_author. fold user. split; [|split].
  - destruct (as_dict user) as [u|]; cbn [mbind option_bind]; [|by split; [left|]].
    destruct (truthy (dict_get u "login")) eqn:Hl.
    + split; [done|]. intros [?|(u' & [= <-] & ? & _)]; [done|congruence].
    + destruct (as_dict (dict_get_or_empty c "author")) as [d|]; cbn [mbind option_bind].
      * destruct (truthy (dict_get d "login")); split; try done;
          by intros [?|(u' & _ & _ & ?)].
      * split; [|done]. intros _. right. by exists u.
  - intros a. destruct user as [| | | | |u] eqn:Hu; cbn [as_dict mbind option_bind]; try done.
    destruct (truthy (dict_get u "login")) eqn:Hl.
    { intros [= <-]. split; [done|]. left. by exists u. }
    destruct (dict_get_or_empty c "author") as [| | | | |d] eqn:Hd;
      cbn [as_dict mbind option_bind]; try done.
    destruct (truthy (dict_get d "login")) eqn:Hl2.
    { intros [= <-]. split; [done|]. right. left. by exists d. }
    intros [= <-]. unfold dict_get_or_empty in Hd.
    destruct (dict_has c "author") eqn:Hhas.
    + rewrite Hd. unfold json_or. cbn [truthy]. destruct d as [|kv d].
      * split; [done|]. right. right. by left.
      * split; [done|]. right. right. right. by exists (kv :: d).
    + rewrite (dict_get_missing _ _ Hhas). split; [done|]. right. right. by left.
  - intros s Hnu Hha Hs. subst user. unfold dict_get_or_empty. rewrite Hnu, Hha, Hs.
    reflexivity.
Qed.

End fields.
(* ===================================================================== *)
(** * The rows of missing attachments                                    *)
(* ===================================================================== *)

Section missing_rows.
Implicit Types (t : ImageTracker (list missing_row)) (h : Heap (list missing_row)).
Implicit Types (st : ImageTracker (list missing_row) * Heap (list missing_row)).
Implicit Types (us : list string) (rows : list missing_row).

(** What one call adds to the list: nothing, or the row of a failed first download *)
Lemma get_local_missing_row env t url h repo kind num :
  missing_cb t = Some (make_missing_cb repo kind num) ->
  (failed (stats (get_local env t url h).2) = failed (stats h)
   /\ store (get_local env t url h).2 = store h)
  \/ (url_to_rel t !! url = None
      /\ is_Some (url_to_rel (get_local env t url h).1.2 !! url)
      /\ failed (stats (get_local env t url h).2) = S (failed (stats h))
      /\ store (get_local env t url h).2
         = make_missing_cb repo kind num url (planned_rel t url) (store h)).
Proof.
  intros Hcb. destruct (url_to_rel t !! url) as [rel|] eqn:Hc.
  - left. by rewrite (get_local_hit env t url rel h Hc).
  - destruct (accepted env url) eqn:Hacc.
    + destruct (get_local_miss env t url h Hc Hacc)
        as (rel & w' & st' & m' & -> & _ & _ & _ & [(_ & Hf & -> & _)|(_ & Hf & -> & -> & _)]).
      * left. done.
      * right. cbn [fst snd stats store url_to_rel]. rewrite Hcb, lookup_insert_eq. eauto.
    + left. by rewrite (get_local_rejected env t url h Hc Hacc).
Qed.

Lemma resolved_counter env st us : counter st.1 <= counter (resolved env st us).1.
Proof.
  revert st. induction us as [|u us IH]; intros st; [by rewrite resolved_nil|].
  rewrite resolved_cons. etrans; [|apply IH]. rewrite resolved_one. cbn [fst].
  pose proof (get_local_tracker env st.1 u st.2) as (_ & _ & _ & _ & Hstep).
  destruct (url_to_rel st.1 !! u); [by rewrite Hstep|].
  destruct Hstep as (-> & _). lia.
Qed.

Lemma resolved_cached env st us u rel :
  url_to_rel st.1 !! u = Some rel -> url_to_rel (resolved env st us).1 !! u = Some rel.
Proof.
  intros Hu. unfold resolved. cbn [fst].
  destruct (get_locals env st.1 us st.2) as [[rels t'] h'] eqn:Hrun.
  by destruct (get_locals_cached env st.1 us st.2 u rel Hu rels t' h' Hrun) as (_ & ? & _).
Qed.

(** The rows added by a sequence of calls: one for every download that failed, with
    the fields of the document, each for another URL *)
Lemma resolved_missing_rows env st us repo kind num :
  missing_cb st.1 = Some (make_missing_cb repo kind num) ->
  exists rows,
    store (resolved env st us).2 = store st.2 ++ rows
    /\ failed (stats (resolved env st us).2) = failed (stats st.2) + length rows
    /\ Forall (fun r => row_of st.1 repo kind num r /\ row_url r ∈ us
                        /\ url_to_rel st.1 !! row_url r = None) rows
    /\ NoDup (row_url <$> rows).
Proof.
  revert st. induction us as [|u us IH]; intros st Hcb.
  { exists []. rewrite resolved_nil, app_nil_r. split; [done|]. split; [simpl; lia|].
    split; constructor. }
  rewrite resolved_cons.
  destruct (resolved_fields env st [u]) as (Ha & Hm & _ & Hcb1).
  destruct (IH (resolved env st [u])) as (rows & Hstore & Hfail & Hrows & Hnd);
    [by rewrite Hcb1|].
  rewrite Hstore, Hfail. rewrite resolved_one in *. cbn [fst snd] in *.
  assert (Forall (fun r => row_of st.1 repo kind num r /\ row_url r ∈ u :: us
                           /\ (url_to_rel st.1 !! row_url r = None)
                           /\ (url_to_rel (get_local env st.1 u st.2).1.2 !! row_url r = None))
            rows) as Hrows'.
  { eapply Forall_impl; [exact Hrows|]. intros r ((H1 & H2 & H3 & H4 & H5 & k & Hk & H6) & Hin & Hnone).
    split; [|split; [by right|split; [|done]]].
    - unfold row_of. rewrite <- Ha, <- Hm. eauto 10.
    - destruct (url_to_rel st.1 !! row_url r) as [rel|] eqn:Hr; [|done].
      pose proof (resolved_cached env st [u] _ _ Hr) as Hc. rewrite resolved_one in Hc.
      cbn [fst] in Hc. congruence. }
  destruct (get_local_missing_row env st.1 u st.2 repo kind num Hcb)
    as [[-> ->]|(Hmiss & [rel0 Hin] & -> & ->)].
  - exists rows. split; [done|]. split; [done|]. split; [|done].
    eapply Forall_impl; [exact Hrows'|]. by intros r (? & ? & ? & _).
  - set (row := MkRow repo (slugify_repo repo) kind (str_of_Z num) u
                  (Py.replace (planned_rel st.1 u) "../" EmptyString)
                  (kind +:+ "s/" +:+ Py.upper kind +:+ "-" +:+ str_of_Z num +:+ ".md")).
    exists (row :: rows). unfold make_missing_cb. fold row. rewrite <- app_assoc.
    split; [done|]. split; [simpl; lia|]. split.
    + constructor.
      * split; [|split; [left|done]]. unfold row_of, row. cbn.
        repeat split. exists (S (counter st.1)). split; [lia|done].
      * eapply Forall_impl; [exact Hrows'|]. by intros r (? & ? & ? & _).
    + cbn [fmap list_fmap]. apply NoDup_cons. split; [|done].
      intros Hu%list_elem_of_fmap. destruct Hu as (r & Hr & Hrin).
      rewrite Forall_forall in Hrows'. destruct (Hrows' r Hrin) as (_ & _ & _ & Hnone).
      cbn in Hr. rewrite <- Hr in Hnone. congruence.
Qed.

End missing_rows.

Section missing_document.
Variable iso_timestamp : string -> option Q.
Variable py_repr : json -> string.
Variable write_text : nat -> path -> bytes -> write_result.

(** X20. Every failed image of a document leaves exactly one row. However the
    writing of a document ends, the list of missing attachments has grown, at its
    end, by as many rows as the failure counter has grown; the rows are for different
    URLs, all of them image URLs of the document; and each carries the repository,
    its slug, the kind and the number of the document, the path of its Markdown file
    relative to the directory of the repository, and as local path the link planned
    for the download, without its [../]. *)
Theorem write_md_missing_rows fp title rh env item comments out_dir assets_root section tok
    repo kind (h : Heap (list missing_row)) num e h' :
  dict_item item "number" = Some (JNum num) ->
  write_md iso_timestamp py_repr write_text fp title rh env item comments out_dir assets_root
    section tok (Some (make_missing_cb repo kind num)) h = Some (e, h') ->
  exists rows,
    store h' = store h ++ rows
    /\ failed (stats h') = failed (stats h) + length rows
    /\ NoDup (row_url <$> rows)
    /\ Forall (fun r =>
         row_url r ∈ document_urls env iso_timestamp item comments
         /\ row_of (ImageTracker_init (assets_root ++ [str_of_Z num]) out_dir tok
                      (Some (make_missing_cb repo kind num))) repo kind num r) rows.
Proof.
  intros Hnum Hrun.
  destruct (write_md_resolved _ _ _ _ _ _ _ _ _ _ _ _ _ _ _ _ _ _ Hnum Hrun)
    as (us & Hpre & Hstats & Hstore & _).
  destruct (resolved_missing_rows env
              (ImageTracker_init (assets_root ++ [str_of_Z num]) out_dir tok
                 (Some (make_missing_cb repo kind num)), h) us repo kind num eq_refl)
    as (rows & Hrows & Hfail & Hall & Hnd).
  exists rows. rewrite Hstore, Hstats. split; [exact Hrows|]. split; [exact Hfail|].
  split; [exact Hnd|]. eapply Forall_impl; [exact Hall|].
  intros r (Hrow & Hin & _). split; [|exact Hrow].
  destruct Hpre as [more ->]. apply elem_of_app. by left.
Qed.

End missing_document.

Lemma write_md_missing_rows_witness :
  dict_item sample_issue "number" = Some (JNum 5)
  /\ write_md sample_clock sample_repr always_written "ISSUE" "Issue" "## Related PRs"
       sample_env sample_issue sample_issue_comments ["export"; "o_r"; "issues"]
       ["export"; "o_r"; "assets"; "issues"] "_None_" None
       (Some (make_missing_cb "o/r" "issue" 5)) empty_missing_heap
     = Some (Returned, sample_missing_heap)
  /\ store sample_missing_heap = [sample_row]
  /\ exists rows,
       store sample_missing_heap = store empty_missing_heap ++ rows
       /\ failed (stats sample_missing_heap) = failed (stats empty_missing_heap) + length rows
       /\ NoDup (row_url <$> rows).
Proof.
  assert (write_md sample_clock sample_repr always_written "ISSUE" "Issue" "## Related PRs"
            sample_env sample_issue sample_issue_comments ["export"; "o_r"; "issues"]
            ["export"; "o_r"; "assets"; "issues"] "_None_" None
            (Some (make_missing_cb "o/r" "issue" 5)) empty_missing_heap
          = Some (Returned, sample_missing_heap)) as Hrun by (vm_compute; reflexivity).
  split; [reflexivity|]. split; [exact Hrun|]. split; [vm_compute; reflexivity|].
  destruct (write_md_missing_rows sample_clock sample_repr always_written "ISSUE" "Issue"
              "## Related PRs" sample_env sample_issue sample_issue_comments
              ["export"; "o_r"; "issues"] ["export"; "o_r"; "assets"; "issues"] "_None_" None
              "o/r" "issue" empty_missing_heap 5%Z Returned sample_missing_heap eq_refl Hrun)
    as (rows & Hstore & Hfail & Hnd & _).
  exists rows. split; [exact Hstore|]. split; [exact Hfail|exact Hnd].
Defined.
(* ===================================================================== *)
(** * From a row of the list to the file the browser writes              *)
(* ===================================================================== *)

Section targets.
Implicit Types (s old new rest : string) (c prev : ascii) (parts : list string).

(** [replace] on a text that starts with the pattern, and on one without it *)
Lemma replace_go_skip old new s rest :
  Py.replace_go old new (Py.len s) None (s +:+ rest) = Py.replace_go old new 0 None rest.
Proof.
  induction s as [|c s IH]; [by rewrite app_nil_l|]. rewrite app_cons. exact IH.
Qed.

Lemma replace_go_prefix c old new rest :
  Py.replace_go (String c old) new 0 None (String c old +:+ rest)
  = new +:+ Py.replace_go (String c old) new 0 None rest.
Proof.
  rewrite app_cons. cbn [Py.replace_go].
  rewrite (bool_decide_false (@None nat = Some 0)) by (intros ?; discriminate).
  cbn [negb andb]. rewrite <- app_cons, startswith_app.
  cbn [Py.len String.length Nat.sub fmap option_fmap option_map].
  rewrite Nat.sub_0_r. f_equal. apply replace_go_skip.
Qed.

Lemma replace_go_absent old new s :
  Py.contains s old = false -> Py.replace_go old new 0 None s = s.
Proof.
  induction s as [|c s IH]; [done|]. cbn [Py.contains Py.replace_go].
  intros [Hs Hc]%orb_false_iff. rewrite Hs, andb_false_r. f_equal. by apply IH.
Qed.

Lemma no_dot_slash_contains prev s : no_dot_slash prev s = true -> Py.contains s "../" = false.
Proof.
  revert prev. induction s as [|c s IH]; intros prev; [done|].
  cbn [no_dot_slash]. intros [_ Hs]%andb_true_iff. cbn [Py.contains].
  rewrite (IH c Hs), orb_false_r.
  destruct s as [|c1 [|c2 s]]; cbn [Py.startswith]; rewrite ?andb_false_r; try done.
  cbn [no_dot_slash] in Hs. apply andb_true_iff in Hs as [_ Hs].
  apply andb_true_iff in Hs as [Hs _].
  destruct (decide (c1 = "."%char)) as [->|H1];
    [|by rewrite (bool_decide_false ("."%char = c1)) by done; rewrite andb_false_r].
  destruct (decide (c2 = "/"%char)) as [->|H2];
    [|by rewrite (bool_decide_false ("/"%char = c2)) by done; rewrite !andb_false_r].
  by rewrite !bool_decide_true in Hs by done.
Qed.

(** A piece without slash and dot, followed by a slash *)
Lemma no_dot_slash_piece prev s rest :
  s <> EmptyString ->
  Forall (fun c => c <> "/"%char /\ c <> "."%char) (Py.chars s) ->
  no_dot_slash prev (s +:+ String "/" rest) = no_dot_slash "/" rest.
Proof.
  revert prev. induction s as [|c s IH]; intros prev Hne Hs; [done|].
  inversion Hs as [|? ? [Hc1 Hc2] Hs']; subst. rewrite app_cons. cbn [no_dot_slash].
  rewrite (bool_decide_false (c = "/"%char)) by done. cbn [andb negb].
  destruct s as [|c' s].
  - rewrite app_nil_l. cbn [no_dot_slash].
    by rewrite (bool_decide_false (c = "."%char)), andb_false_r.
  - by apply IH.
Qed.

Lemma no_dot_slash_part prev s rest :
  s <> EmptyString ->
  Forall (fun c => c <> "/"%char /\ c <> "."%char) (Py.chars s) ->
  no_dot_slash prev (s +:+ "/" +:+ rest) = no_dot_slash "/" rest.
Proof.
  replace ("/" +:+ rest) with (String "/" rest) by (by rewrite app_cons, app_nil_l).
  apply no_dot_slash_piece.
Qed.

Lemma no_dot_slash_last prev s :
  Forall (fun c => c <> "/"%char) (Py.chars s) -> no_dot_slash prev s = true.
Proof.
  revert prev. induction s as [|c s IH]; intros prev Hs; [done|].
  inversion Hs; subst. cbn [no_dot_slash].
  rewrite (bool_decide_false (c = "/"%char)) by done. by apply IH.
Qed.

(** [PurePosixPath] of components joined by slashes *)
Lemma parse_path_join parts :
  parts <> [] ->
  Forall (fun p => Forall (fun c => c <> "/"%char) (Py.chars p)
                   /\ p <> EmptyString /\ p <> ".") parts ->
  parse_path (Py.join "/" parts) = (false, parts).
Proof.
  intros Hne Hall. unfold parse_path. f_equal.
  - destruct parts as [|p parts]; [done|]. inversion Hall as [|? ? (Hp & Hp' & _) _]; subst.
    destruct p as [|c p]; [done|]. inversion Hp; subst.
    assert (exists r, Py.join "/" (String c p :: parts) = String c r) as [r ->].
    { destruct parts; cbn [Py.join]; rewrite ?app_cons; eauto. }
    cbn [Py.startswith]. by rewrite bool_decide_false.
  - rewrite split_join; [|done|].
    + induction Hall as [|p parts (_ & H1 & H2) _ IH]; [done|]. cbn [List.filter].
      rewrite !bool_decide_false by done. cbn [negb andb]. f_equal.
      destruct parts; [done|]. by apply IH.
    + eapply Forall_impl; [exact Hall|]. by intros p (? & _).
Qed.

Lemma str_of_N_nonempty n : Py.str_of_N n <> EmptyString.
Proof.
  unfold Py.str_of_N. destruct n as [|p]; [done|]. cbn [N.to_uint].
  pose proof (DecimalPos.Unsigned.to_uint_nonnil p) as H.
  by destruct (Pos.to_uint p).
Qed.

(** The decimal form of an integer: digits, after a minus sign if it is negative *)
Lemma str_of_Z_plain n :
  str_of_Z n <> EmptyString
  /\ Forall (fun c => c <> "/"%char /\ c <> "."%char) (Py.chars (str_of_Z n)).
Proof.
  assert (forall m, Forall (fun c => c <> "/"%char /\ c <> "."%char) (Py.chars (Py.str_of_N m)))
    as Hd.
  { intros m. eapply Forall_impl; [apply uint_digits|]. intros c Hc. by split; intros ->. }
  unfold str_of_Z. destruct (Z.ltb n 0).
  - split; [by rewrite app_cons|]. rewrite chars_app. apply Forall_app. split; [|apply Hd].
    by repeat constructor.
  - split; [apply str_of_N_nonempty|apply Hd].
Qed.

End targets.

Section row_targets.
Context {M : Type}.
Implicit Types (t : ImageTracker M) (r : missing_row).

Lemma filename_from_url_plain url k :
  Forall (fun c => c <> "/"%char) (Py.chars (filename_from_url url k))
  /\ filename_from_url url k <> EmptyString
  /\ filename_from_url url k <> ".".
Proof.
  split; [apply filename_from_url_no_slash|].
  destruct (filename_numbered url k) as [rest ->].
  destruct (format_03d_head k) as (d & r & -> & Hd). rewrite !app_cons.
  split; [done|]. intros [= -> _]. done.
Qed.

Lemma slugify_repo_plain repo :
  Py.has_char "/" repo = true ->
  Forall (fun c => c <> "/"%char) (Py.chars (slugify_repo repo))
  /\ slugify_repo repo <> EmptyString
  /\ slugify_repo repo <> "."
  /\ slugify_repo repo <> "..".
Proof.
  intros Hslash. unfold slugify_repo.
  pose proof (replace_char_chars repo "/" "_") as Hmap.
  assert ("_"%char ∈ Py.chars (Py.replace repo "/" "_")) as Hin.
  { rewrite Hmap. apply list_elem_of_fmap. exists "/"%char. split; [done|].
    by apply has_char_elem. }
  split.
  { rewrite Hmap. apply Forall_fmap, Forall_forall. intros c _. simpl. by case_bool_decide. }
  repeat split; intros H; rewrite H in Hin;
    repeat (apply elem_of_cons in Hin as [?|Hin]; [done|]); by apply elem_of_nil in Hin.
Qed.

Lemma path_div_plain (p : list string) s :
  Forall (fun c => c <> "/"%char) (Py.chars s) -> s <> EmptyString -> s <> "." -> s <> ".." ->
  path_div p s = Some (p ++ [s]).
Proof.
  intros Hs H1 H2 H3. unfold path_div.
  change s with (Py.join "/" [s]). rewrite parse_path_join; [|done|by repeat constructor].
  rewrite bool_decide_false; [done|]. intros Hin%list_elem_of_singleton. congruence.
Qed.

(** The link of an asset without its [../] *)
Lemma asset_link_local kinds num name :
  kinds <> EmptyString ->
  Forall (fun c => c <> "/"%char /\ c <> "."%char) (Py.chars kinds) ->
  num <> EmptyString ->
  Forall (fun c => c <> "/"%char /\ c <> "."%char) (Py.chars num) ->
  Forall (fun c => c <> "/"%char) (Py.chars name) ->
  Py.replace (asset_link kinds num name) "../" EmptyString
  = Py.join "/" ["assets"; kinds; num; name].
Proof.
  intros Hk1 Hk2 Hn1 Hn2 Hname. unfold Py.replace, Py.replace_count, asset_link.
  change ("../assets/" +:+ kinds +:+ "/" +:+ num +:+ "/" +:+ name)
    with ("../" +:+ ("assets" +:+ "/" +:+ kinds +:+ "/" +:+ num +:+ "/" +:+ name)).
  rewrite replace_go_prefix, app_nil_l. cbn [Py.join].
  apply replace_go_absent, (no_dot_slash_contains "/").
  rewrite (no_dot_slash_part "/" "assets") by (done || by repeat constructor).
  rewrite (no_dot_slash_part "/" kinds) by done.
  rewrite (no_dot_slash_part "/" num) by done.
  by apply no_dot_slash_last.
Qed.

(** X21. A row leads the browser to the file the exporter had planned. For a
    repository name with a slash and a document of kind [issue] or [pr], a row that
    the callback records on the tracker of the document has as local path
    [assets/<kind>s/<num>/<file name>]; [out_root / repo_slug / local_path], where
    download_attachments.py writes the body, is the path in the assets directory
    that the failed download was to fill, the one the link in the Markdown file
    points to; and [md_path], taken from the directory of the repository, is the
    Markdown file of the document. *)
Theorem missing_row_target t (out_root : list string) repo kind num r :
  Py.has_char "/" repo = true ->
  kind = "issue" \/ kind = "pr" ->
  export_layout t (out_root ++ [slugify_repo repo]) (kind +:+ "s") (str_of_Z num) ->
  row_of t repo kind num r ->
  exists k,
    1 <= k
    /\ row_local_path r
       = Py.join "/" ["assets"; kind +:+ "s"; str_of_Z num; filename_from_url (row_url r) k]
    /\ row_target out_root r = Some (assets_dir t ++ [filename_from_url (row_url r) k])
    /\ path_div (out_root ++ [slugify_repo repo]) (row_md_path r)
       = Some (md_dir t ++ [Py.upper kind +:+ "-" +:+ str_of_Z num +:+ ".md"]).
Proof.
  intros Hslash Hkind (Ha & Hm & Hk) (_ & Hslug & _ & _ & Hmd & k & Hk1 & Hlocal).
  destruct (slugify_repo_plain repo Hslash) as (Hs1 & Hs2 & Hs3 & Hs4).
  destruct (str_of_Z_plain num) as (Hn1 & Hn2).
  destruct (filename_from_url_plain (row_url r) k) as (Hf1 & Hf2 & Hf3).
  assert (kind +:+ "s" <> EmptyString
          /\ Forall (fun c => c <> "/"%char /\ c <> "."%char) (Py.chars (kind +:+ "s"))
          /\ kind +:+ "s" <> ".") as (Hk1' & Hk2' & Hk3').
  { destruct Hkind as [-> | ->]; (split; [done|split; [|done]]);
      repeat constructor; done. }
  assert (Forall (fun c => c <> "/"%char) (Py.chars (kind +:+ "s"))) as Hk4'
    by (eapply Forall_impl; [exact Hk2'|]; by intros c [? _]).
  assert (Forall (fun c => c <> "/"%char) (Py.chars (str_of_Z num))) as Hn3
    by (eapply Forall_impl; [exact Hn2|]; by intros c [? _]).
  assert (str_of_Z num <> ".") as Hn4.
  { intros H. rewrite H in Hn2. by inversion Hn2 as [|? ? [_ ?] _]. }
  rewrite Ha, Hm, relpath_layout in Hlocal by done.
  rewrite asset_link_local in Hlocal by done.
  exists k. split; [done|]. split; [done|]. split.
  - unfold row_target. rewrite Hslug, path_div_plain by done. cbn [mbind option_bind].
    unfold path_div. rewrite Hlocal, parse_path_join; [|done|].
    + rewrite bool_decide_false.
      * rewrite Ha. by rewrite <- !app_assoc.
      * intros Hin. repeat (apply elem_of_cons in Hin as [Hin|Hin]);
          [done|destruct Hkind as [-> | ->]; done| |
           |by apply elem_of_nil in Hin].
        -- rewrite <- Hin in Hn2. by inversion Hn2 as [|? ? [_ ?] _].
        -- destruct (filename_numbered (row_url r) k) as [rest Hrest].
           destruct (format_03d_head k) as (d & r' & Hd & Hdig).
           rewrite Hrest, Hd, !app_cons in Hin. by injection Hin as <- _.
    + repeat constructor; try done; by destruct Hkind as [-> | ->].
  - rewrite Hmd, Hm. unfold path_div.
    assert (kind +:+ "s/" +:+ Py.upper kind +:+ "-" +:+ str_of_Z num +:+ ".md"
            = Py.join "/" [kind +:+ "s"; Py.upper kind +:+ "-" +:+ str_of_Z num +:+ ".md"])
      as -> by (destruct Hkind as [-> | ->]; reflexivity).
    assert (Forall (fun c => c <> "/"%char)
              (Py.chars (Py.upper kind +:+ "-" +:+ str_of_Z num +:+ ".md"))
            /\ exists c rest, Py.upper kind +:+ "-" +:+ str_of_Z num +:+ ".md" = String c rest
                              /\ c <> "."%char) as (Hname & c & rest & Hhead & Hc).
    { split.
      - rewrite !chars_app. repeat apply Forall_app_2; try done.
        + destruct Hkind as [-> | ->]; by repeat constructor.
        + by repeat constructor.
        + by repeat constructor.
      - destruct Hkind as [-> | ->]; cbn [Py.upper]; rewrite app_cons; eexists _, _;
          (split; [reflexivity|done]). }
    rewrite parse_path_join; [|done|].
    + rewrite bool_decide_false; [by rewrite <- !app_assoc|].
      intros Hin. repeat (apply elem_of_cons in Hin as [Hin|Hin]);
        [destruct Hkind as [-> | ->]; done| |by apply elem_of_nil in Hin].
      rewrite Hhead in Hin. by injection Hin as <- _.
    + repeat constructor; try done; rewrite Hhead; [done|]. by intros [= -> _].
Qed.

End row_targets.

Lemma missing_row_target_witness :
  Py.has_char "/" "o/r" = true
  /\ export_layout sample_missing_tracker (["export"] ++ [slugify_repo "o/r"])
       ("issue" +:+ "s") (str_of_Z 5)
  /\ row_of sample_missing_tracker "o/r" "issue" 5 sample_row
  /\ exists k,
       row_target ["export"] sample_row
       = Some (assets_dir sample_missing_tracker ++ [filename_from_url (row_url sample_row) k]).
Proof.
  assert (Py.has_char "/" "o/r" = true) as Hslash by (vm_compute; reflexivity).
  assert (export_layout sample_missing_tracker (["export"] ++ [slugify_repo "o/r"])
            ("issue" +:+ "s") (str_of_Z 5)) as Hlay.
  { split; [vm_compute; reflexivity|]. split; [vm_compute; reflexivity|].
    vm_compute. intros H. discriminate H. }
  assert (row_of sample_missing_tracker "o/r" "issue" 5 sample_row) as Hrow.
  { split; [reflexivity|]. split; [vm_compute; reflexivity|]. split; [reflexivity|].
    split; [vm_compute; reflexivity|]. split; [vm_compute; reflexivity|].
    exists 2. split; [lia|]. vm_compute. reflexivity. }
  split; [exact Hslash|]. split; [exact Hlay|]. split; [exact Hrow|].
  destruct (missing_row_target sample_missing_tracker ["export"] "o/r" "issue" 5%Z sample_row
              Hslash (or_introl eq_refl) Hlay Hrow) as (k & _ & _ & Htarget & _).
  exists k. exact Htarget.
Defined.
(* ===================================================================== *)
(** * The download of the missing attachments                            *)
(* ===================================================================== *)

Section attachments.
Implicit Types (b : Browser) (s : Progress) (rows : list missing_row) (q target : list string).

(** One row: one more on one of the counters, and at most the target changes. *)
Lemma download_row_step b i target url s :
  let r := download_row b i target url s in
  (r.1 = Raised -> r.2 = s)
  /\ (r.1 = Returned ->
      ok_count r.2 + fail_count r.2 = S (ok_count s + fail_count s)
      /\ ok_count s <= ok_count r.2 /\ fail_count s <= fail_count r.2)
  /\ (forall q, q <> target -> disk r.2 !! q = disk s !! q)
  /\ (disk r.2 !! target = disk s !! target
      \/ ((forall n p body, write_bytes b n p body = WriteOk) ->
          exists body, disk r.2 !! target = Some body /\ body <> [])).
Proof.
  unfold download_row. destruct (mkdir_ok b i (path_parent target)); cbn [negb].
  2:{ cbn. repeat split; try done. by left. }
  destruct (request b i url) as [| |[|x body]];
    try (cbn; repeat split; try done; try lia; by left).
  destruct (write_bytes b i target (x :: body)) as [|partial] eqn:Hw; cbn.
  - split; [done|]. split; [intros _; lia|].
    split; [intros q Hq; by rewrite lookup_insert_ne|].
    right. intros _. exists (x :: body). by rewrite lookup_insert_eq.
  - split; [done|]. split; [intros _; lia|].
    split; [intros q Hq; by apply leave_other|].
    right. intros Hok. by rewrite Hok in Hw.
Qed.

Lemma download_rows_run b out_root rows i s e s' :
  download_rows b out_root i rows s = Some (e, s') ->
  (e = Returned -> ok_count s' + fail_count s' = ok_count s + fail_count s + length rows)
  /\ ok_count s <= ok_count s' /\ fail_count s <= fail_count s'
  /\ (forall q, disk s' !! q = disk s !! q
        \/ ((exists row, row ∈ rows /\ row_target out_root row = Some q)
            /\ ((forall n p body, write_bytes b n p body = WriteOk) ->
                exists body, disk s' !! q = Some body /\ body <> []))).
Proof.
  revert i s. induction rows as [|row rows IH]; intros i s Hrun; cbn [download_rows] in Hrun.
  { injection Hrun as <- <-. split; [simpl; lia|]. split; [done|]. split; [done|]. by left. }
  destruct (row_target out_root row) as [target|] eqn:Ht; [|done].
  destruct (download_row_step b i target (row_url row) s) as (Hraise & Hret & Hother & Htarget).
  destruct (download_row b i target (row_url row) s) as [[|] s1]; cbn [fst snd] in *.
  - destruct (Hret eq_refl) as (Hsum & Hok & Hfail).
    destruct (IH _ _ Hrun) as (Hsum' & Hok' & Hfail' & Hdisk).
    split; [intros He; specialize (Hsum' He); simpl; lia|]. split; [lia|]. split; [lia|].
    intros q. destruct (Hdisk q) as [Hq|[(row' & Hin & Hrow') Hbody]].
    + destruct (decide (q = target)) as [->|Hne].
      * destruct Htarget as [Hsame|Hbody]; [left; congruence|].
        right. split; [exists row; split; [left|done]|].
        intros Hw. rewrite Hq. by apply Hbody.
      * left. rewrite Hq. by apply Hother.
    + right. split; [|done]. exists row'. split; [by right|done].
  - injection Hrun as <- <-. rewrite (Hraise eq_refl).
    split; [done|]. split; [done|]. split; [done|]. by left.
Qed.

(** X22. download_attachments.py counts every row once and writes only where a row
    sends it. With no row it prints that nothing is missing and leaves the files
    alone. When it ends with status 0 after a session, the line it prints last
    reports counters [ok] and [fail] that add up to the number of rows. However it
    ends, a path holds what it held before unless it is the target
    [out_root / repo_slug / local_path] of a row; and, if no write breaks off, a
    target that has changed holds a body that is not empty: an empty body or a
    response that is not ok never replaces a file. *)
Theorem attachments_main_counts b out_root rows fs x fs' evs :
  attachments_main b out_root rows fs = Some (x, fs', evs) ->
  (rows = [] -> x = Exit 0 /\ fs' = fs /\ evs = [Stdout "No missing attachments found."])
  /\ (rows <> [] -> x = Exit 0 ->
      exists s, ok_count s + fail_count s = length rows
                /\ List.last evs (Stdout EmptyString) = Stdout (downloaded_msg s)
                /\ disk s = fs')
  /\ (forall q, fs' !! q = fs !! q
        \/ ((exists row, row ∈ rows /\ row_target out_root row = Some q)
            /\ ((forall n p body, write_bytes b n p body = WriteOk) ->
                exists body, fs' !! q = Some body /\ body <> []))).
Proof.
  unfold attachments_main. destruct rows as [|row rows].
  { intros [= <- <- <-]. split; [done|]. split; [done|]. by left. }
  set (all := row :: rows). intros Hrun. split; [done|].
  destruct (launch_ok b); cbn [negb] in Hrun.
  2:{ injection Hrun as <- <- <-. split; [done|]. by left. }
  destruct (enter_ok b); cbn [negb] in Hrun.
  2:{ injection Hrun as <- <- <-. split; [done|]. by left. }
  destruct (download_rows b out_root 0 all (MkProgress 0 0 fs)) as [[e s]|] eqn:Hrows;
    [|done]. cbn [mbind option_bind] in Hrun.
  destruct (download_rows_run _ _ _ _ _ _ _ Hrows) as (Hsum & _ & _ & Hdisk).
  cbn [ok_count fail_count disk] in *.
  destruct e; injection Hrun as <- <- <-.
  - split; [|exact Hdisk]. intros _ _. exists s. split; [by rewrite Hsum|]. done.
  - split; [done|exact Hdisk].
Qed.

End attachments.

Lemma attachments_main_counts_witness :
  attachments_main sample_browser ["export"] [sample_row] ∅
  = Some (Exit 0,
          {[ ["export"; "o_r"; "assets"; "issues"; "5"; "002_log.txt"] := [x68; x69] ]},
          [Stdout "If not logged in, log in now in the opened browser.";
           Stdout "Press Enter to continue downloading...";
           Stdout "Downloaded 1 attachments, 0 failed."])
  /\ exists s, ok_count s + fail_count s = length [sample_row].
Proof.
  assert (attachments_main sample_browser ["export"] [sample_row] ∅
          = Some (Exit 0,
                  {[ ["export"; "o_r"; "assets"; "issues"; "5"; "002_log.txt"] := [x68; x69] ]},
                  [Stdout "If not logged in, log in now in the opened browser.";
                   Stdout "Press Enter to continue downloading...";
                   Stdout "Downloaded 1 attachments, 0 failed."])) as Hrun
    by (vm_compute; reflexivity).
  split; [exact Hrun|].
  destruct (attachments_main_counts _ _ _ _ _ _ _ Hrun) as (_ & Hcount & _).
  destruct (Hcount ltac:(discriminate) eq_refl) as (s & Hs & _). by exists s.
Defined.
